(** * FortiTwin interview engine: question / score orchestration

    A shallow embedding of [fortitwin_mvp/app/interview_engine.py]:
    persona resolution, prompt assembly, the remote call and its fallback,
    the offline question synthesizer, score parsing and the security-hint
    classifier, together with the properties the specification states
    about them.

    Conventions of the embedding.
    - A Python [str] is a [string]; one character of the model stands for
      one code point (the model alphabet is the code points 0..255).
    - A Python [float] is a [spec_float] (IEEE 754 binary64 without NaN
      payload); comparisons are [SFltb] and [SFleb], so a NaN compares
      false with everything, as in Python.
    - A [dict] keyed by strings is a [gmap string _]; the JSON-like values
      that [json.loads] produces are [pyval]s, whose objects keep the
      order of their keys.
    - A method of [InterviewEngine] is a computation [M A] over the state
      of the process: the attributes of [self], the prompts sent to the
      remote service so far, and the records written to the logger.  A
      computation either returns a value or raises an exception. *)

From Stdlib Require Import ZArith Ascii String List Bool Lia.
From Stdlib Require Import SpecFloat.
From stdpp Require Import base option gmap strings.

Local Open Scope Z_scope.

(** ** Python runtime: strings *)

Module Py.

(** The line feed, written [\n] in the source. *)
Definition nl : string := String (ascii_of_nat 10) EmptyString.

(** Truth value of a [str]: every string but the empty one. *)
Definition truthy (s : string) : bool :=
  match s with
  | EmptyString => false
  | String _ _ => true
  end.

(** Truth value of an [Optional[str]]: [None] and the empty string are
    false. *)
Definition truthy_opt (o : option string) : bool :=
  match o with
  | None => false
  | Some s => truthy s
  end.

(** [str.isspace] on one code point below 256: the controls 9..13 and
    28..31, the space, NEL (133) and the no-break space (160). *)
Definition isspace (c : ascii) : bool :=
  let n := nat_of_ascii c in
  ((9 <=? n)%nat && (n <=? 13)%nat)
  || ((28 <=? n)%nat && (n <=? 32)%nat)
  || (n =? 133)%nat || (n =? 160)%nat.

(** [s.lstrip()], [s.rstrip()] and [s.strip()] with no argument. *)
Fixpoint lstrip (s : string) : string :=
  match s with
  | EmptyString => EmptyString
  | String c s' => if isspace c then lstrip s' else s
  end.

Fixpoint rstrip (s : string) : string :=
  match s with
  | EmptyString => EmptyString
  | String c s' =>
      match rstrip s' with
      | EmptyString => if isspace c then EmptyString else String c EmptyString
      | r => String c r
      end
  end.

Definition strip (s : string) : string := rstrip (lstrip s).

(** [s[:n]]: the first [n] characters, the whole string when it is
    shorter. *)
Definition slice_to (n : nat) (s : string) : string := String.substring 0 n s.

(** [sep.join(parts)]. *)
Definition join (sep : string) (parts : list string) : string :=
  String.concat sep parts.

(** [s.endswith(t)] and [s.startswith(t)] as propositions. *)
Definition endswith (s t : string) : Prop := exists p, s = p +:+ t.
Definition startswith (s t : string) : Prop := exists r, s = t +:+ r.

(** Every character of [s] is white space. *)
Fixpoint all_space (s : string) : bool :=
  match s with
  | EmptyString => true
  | String c s' => isspace c && all_space s'
  end.

(** ** Python runtime: floats *)

(** The literals of the source, as binary64 values:
    [0.75 = 0x1.8p-1], [0.45 = 0x1.ccccccccccccdp-2] (the double nearest
    to 9/20), [0.5 = 0x1p-1]; and the integer [0] that
    [dict.get(key, 0)] defaults to, which compares like [0.0]. *)
Definition f0_75 : spec_float := S754_finite false 6755399441055744 (-53).
Definition f0_45 : spec_float := S754_finite false 8106479329266893 (-54).
Definition f0_5 : spec_float := S754_finite false 4503599627370496 (-53).
Definition zero : spec_float := S754_zero false.

(** [x > y] and [x <= y] on floats. *)
Definition float_gt (x y : spec_float) : bool := SFltb y x.
Definition float_le (x y : spec_float) : bool := SFleb x y.

Definition is_nan (x : spec_float) : bool :=
  match x with
  | S754_nan => true
  | _ => false
  end.

(** ** Python runtime: values decoded from JSON *)

#[local] Set Warnings "-register-all".
Inductive pyval : Type :=
| PNone
| PBool (b : bool)
| PInt (n : Z)
| PFloat (x : spec_float)
| PStr (s : string)
| PList (l : list pyval)
| PDict (items : list (string * pyval)).

(** ** Exceptions and outcomes *)

(** An exception object: its class and what [str(e)] gives. *)
Record exn := Exn { exn_class : string; exn_str : string }.

(** [KeyError(k)] for a key without quotes or escapes: [str] of it is the
    key between single quotes. *)
Definition KeyError (k : string) : exn :=
  Exn "KeyError" ("'" +:+ k +:+ "'").

(** [isinstance(e, Exception)], decided by the class.  The classes that
    do not derive from [Exception] are [BaseException] itself and its
    direct subclasses [KeyboardInterrupt], [SystemExit], [GeneratorExit],
    [CancelledError] (of asyncio) and [BaseExceptionGroup]; every other
    class is taken to derive from [Exception]. *)
Definition outside_Exception : list string :=
  [ "BaseException"; "KeyboardInterrupt"; "SystemExit"; "GeneratorExit";
    "CancelledError"; "BaseExceptionGroup" ].

Definition is_Exception (e : exn) : bool :=
  negb (existsb (String.eqb (exn_class e)) outside_Exception).

Inductive outcome (A : Type) : Type :=
| Returns (a : A)
| Raises (e : exn).
Arguments Returns {A} a.
Arguments Raises {A} e.

Definition getitem {V} (d : gmap string V) (k : string) : outcome V :=
  match d !! k with
  | Some v => Returns v
  | None => Raises (KeyError k)
  end.

(** Truth value of a [dict]: every dict but the empty one. *)
Definition truthy_dict {V} (d : gmap string V) : bool :=
  negb (bool_decide (d = ∅)).

End Py.
Export Py.

(** ** External collaborators

    Code the engine calls but does not own: the event normalizer of
    [security_events], the emotion providers of [emotion_engine], the
    [google.generativeai] client, the process environment, [json.loads]
    and the [str()] of a dict or a list inside an f-string. *)

(** What [resp.text] gives for a response of the remote service: the text,
    or an exception when the response carries none. *)
Record Response := { text : outcome string }.

(** A generative model handle.  [generate_content] may depend on the
    prompts sent before; it returns a response or raises. *)
Record Client := { generate_content : list string -> string -> outcome Response }.

(** An emotion provider: [get_signals(session_id)] gives a dict from
    emotion labels to intensities. *)
Record Provider := { get_signals : string -> gmap string spec_float }.

Class Externals := {
  normalize_event : string -> gmap string pyval -> spec_float;
  HumeEmotionProvider : Provider;
  MockEmotionProvider : Provider;
  os_getenv : string -> option string;
  genai_configure : string -> outcome unit;
  genai_GenerativeModel : string -> outcome Client;
  json_loads : string -> outcome pyval;
  str_of_emotion : gmap string spec_float -> string;
  str_of_transcript : list (list (string * string)) -> string
}.

(** ** Process state and the monad of methods *)

Inductive level := ERROR | WARNING | INFO.

(** The attributes of an [InterviewEngine] object. *)
Record Self := {
  emotion : Provider;
  fallback_emotion : Provider;
  client : option Client;
  mode : string
}.

Record State := {
  self : Self;
  sent : list string;            (* prompts passed to generate_content *)
  log : list (level * string)    (* records of the "fortitwin" logger *)
}.

Definition M (A : Type) : Type := State -> outcome A * State.

Definition ret {A} (a : A) : M A := fun st => (Returns a, st).

Definition bind {A B} (m : M A) (f : A -> M B) : M B :=
  fun st =>
    match m st with
    | (Returns a, st') => f a st'
    | (Raises e, st') => (Raises e, st')
    end.

#[global] Instance M_ret : MRet M := @ret.
#[global] Instance M_bind : MBind M := fun A B f m => bind m f.

(** A call of a collaborator that returns or raises. *)
Definition lift {A} (o : outcome A) : M A := fun st => (o, st).

(** [try: body / except Exception as e: handler(e)]: the handler runs
    for an exception whose class derives from [Exception]; any other
    goes on to the caller. *)
Definition try_except {A} (body : M A) (handler : exn -> M A) : M A :=
  fun st =>
    match body st with
    | (Returns a, st') => (Returns a, st')
    | (Raises e, st') =>
        if is_Exception e then handler e st' else (Raises e, st')
    end.

Definition get_self : M Self := fun st => (Returns (self st), st).

Definition set_self (s : Self) : M unit :=
  fun st => (Returns tt, {| self := s; sent := sent st; log := log st |}).

Definition set_emotion (p : Provider) : M unit :=
  s ← get_self;
  set_self {| emotion := p; fallback_emotion := fallback_emotion s;
              client := client s; mode := mode s |}.

Definition set_fallback_emotion (p : Provider) : M unit :=
  s ← get_self;
  set_self {| emotion := emotion s; fallback_emotion := p;
              client := client s; mode := mode s |}.

Definition set_client (c : option Client) : M unit :=
  s ← get_self;
  set_self {| emotion := emotion s; fallback_emotion := fallback_emotion s;
              client := c; mode := mode s |}.

Definition set_mode (m : string) : M unit :=
  s ← get_self;
  set_self {| emotion := emotion s; fallback_emotion := fallback_emotion s;
              client := client s; mode := m |}.

(** The state after one more prompt went out, and after one more log
    record. *)
Definition record_sent (prompt : string) (st : State) : State :=
  {| self := self st; sent := sent st ++ [prompt]; log := log st |}.

Definition record_log (l : level) (msg : string) (st : State) : State :=
  {| self := self st; sent := sent st; log := log st ++ [(l, msg)] |}.

(** [logger.error], [logger.warning], [logger.info]. *)
Definition logger (l : level) (msg : string) : M unit :=
  fun st => (Returns tt, record_log l msg st).

(** [c.generate_content(prompt)]: the prompt goes out, the service answers
    from what it has received so far. *)
Definition call_generate_content (c : Client) (prompt : string) : M Response :=
  fun st => (generate_content c (sent st) prompt, record_sent prompt st).

(** ** Personality presets *)

Definition PERSONALITY_PRESETS : gmap string (gmap string string) :=
  {[ "Default Manager"   := {[ "tone" := "professional"; "difficulty" := "medium" ]};
     "Startup CTO"       := {[ "tone" := "direct";       "difficulty" := "high" ]};
     "FAANG Manager"     := {[ "tone" := "structured";   "difficulty" := "high" ]};
     "Finance Recruiter" := {[ "tone" := "formal";       "difficulty" := "medium" ]} ]}.

(** ** Interview engine (Gemini + offline fallback) *)

Module InterviewEngine.
Section Methods.
Context `{Externals}.

Definition __init__ : M unit :=
  set_emotion HumeEmotionProvider;;
  set_fallback_emotion MockEmotionProvider;;
  let key := os_getenv "GEMINI_API_KEY" in
  (if truthy_opt key then
     try_except
       (lift (genai_configure (default "" key));;
        c ← lift (genai_GenerativeModel "gemini-1.5-flash");
        set_client (Some c);;
        set_mode "gemini")
       (fun e =>
          logger ERROR ("Failed to init Gemini client: " +:+ exn_str e);;
          set_client None;;
          set_mode "offline")
   else
     logger WARNING "GEMINI_API_KEY not set, using offline mode.";;
     set_client None;;
     set_mode "offline");;
  s ← get_self;
  logger INFO ("InterviewEngine initialized in " +:+ mode s +:+ " mode.").

(** *** Core LLM call *)

Definition _llm_call (system user : string) : M string :=
  s ← get_self;
  match String.eqb (mode s) "gemini", client s with
  | true, Some c =>
      try_except
        (let prompt := system +:+ nl +:+ nl +:+ user in
         resp ← call_generate_content c prompt;
         t ← lift (text resp);
         mret (strip t))
        (fun e =>
           logger ERROR ("Gemini call failed: " +:+ exn_str e);;
           mret "")
  | _, _ => mret ""  (* offline fallback trigger *)
  end.

(** *** Question generation *)

Definition _emotion_ctx (session_id : string) : M (gmap string spec_float) :=
  s ← get_self;
  let sig := get_signals (emotion s) session_id in
  if negb (truthy_dict sig) then
    s ← get_self;
    mret (get_signals (fallback_emotion s) session_id)
  else mret sig.

Definition _persona (personality : string) : M (gmap string string) :=
  dflt ← lift (getitem PERSONALITY_PRESETS "Default Manager");
  mret (default dflt (PERSONALITY_PRESETS !! personality)).

Definition _offline_question
    (job_title : string) (persona : gmap string string) (rag_context : string)
    (prev_answer : option string) (emotion_ctx : gmap string spec_float)
    (security_hint : option string) : M string :=
  tone ← lift (getitem persona "tone");
  let base := "As a " +:+ tone +:+ " interviewer for a " +:+ job_title +:+ ", " in
  let base :=
    if truthy_opt security_hint then
      base +:+ "I noticed a potential distraction (" +:+ default "" security_hint
           +:+ "). Please stay focused. "
    else base in
  let base :=
    if float_gt (default zero (emotion_ctx !! "nervous")) f0_5 then
      base +:+ "I'll keep it supportive. "
    else base in
  if truthy_opt prev_answer then
    mret (base +:+ "Can you dive deeper into your last answer and describe a concrete example with outcomes?")
  else if truthy rag_context then
    mret (base +:+ "What experience do you have that directly matches this role? Refer to relevant projects.")
  else
    mret (base +:+ "Tell me about a challenging project you led end-to-end.").

Definition system_question : string :=
  "You are an empathetic, professional AI interviewer. "
  +:+ "Ask one concise question at a time. Adjust tone/difficulty based on signals. "
  +:+ "If 'security_hint' is present, remind the candidate to focus in a respectful way.".

(** The user text that [_generate_question] assembles in [user_parts]
    and joins: the list starts with two lines and grows by one
    [append] for each input that tests true. *)
Definition user_prompt
    (job_title company : string) (persona : gmap string string)
    (rag_context : string) (prev_answer : option string)
    (emotion_ctx : gmap string spec_float) (security_hint : option string)
    : M string :=
  tone ← lift (getitem persona "tone");
  difficulty ← lift (getitem persona "difficulty");
  let user_parts :=
    [ "Job Title: " +:+ job_title +:+ " at " +:+ company +:+ ".";
      "Personality: tone=" +:+ tone +:+ ", difficulty=" +:+ difficulty +:+ "." ] in
  let user_parts :=
    if truthy rag_context then
      user_parts ++ ["Company/Role Context:" +:+ nl +:+ slice_to 2000 rag_context]
    else user_parts in
  let user_parts :=
    if truthy_opt prev_answer then
      user_parts ++ ["Candidate previous answer:" +:+ nl +:+ default "" prev_answer]
    else user_parts in
  let user_parts :=
    if truthy_dict emotion_ctx then
      user_parts ++ ["Emotion signals: " +:+ str_of_emotion emotion_ctx]
    else user_parts in
  let user_parts :=
    if truthy_opt security_hint then
      user_parts ++ ["Security hint: " +:+ default "" security_hint]
    else user_parts in
  let user_parts :=
    user_parts ++ ["Now produce ONE next interview question, natural and specific."] in
  mret (join (nl +:+ nl) user_parts).

Definition _generate_question
    (job_title company personality rag_context : string)
    (prev_answer : option string) (emotion_ctx : gmap string spec_float)
    (security_hint : option string) : M string :=
  persona ← _persona personality;
  prompt ← user_prompt job_title company persona rag_context prev_answer
                       emotion_ctx security_hint;
  out ← _llm_call system_question prompt;
  if truthy out then mret out
  else _offline_question job_title persona rag_context prev_answer
                         emotion_ctx security_hint.

Definition first_question
    (job_title company personality rag_context : string) : M string :=
  emotion_ctx ← _emotion_ctx "seed";
  _generate_question job_title company personality rag_context
                     None emotion_ctx None.

Definition next_question
    (job_title company personality rag_context prev_answer : string)
    (emotion_ctx : gmap string spec_float) (security_hint : option string)
    : M string :=
  _generate_question job_title company personality rag_context
                     (Some prev_answer) emotion_ctx security_hint.

(** *** Scoring *)

Definition system_score : string :=
  "You are a fair, unbiased evaluator. Return strict JSON only.".

Definition user_score
    (transcript : list (list (string * string))) (job_title company : string)
    : string :=
  "Evaluate this interview for a " +:+ job_title +:+ " at " +:+ company +:+ "." +:+ nl
  +:+ "Transcript:" +:+ nl
  +:+ str_of_transcript transcript +:+ nl
  +:+ nl
  +:+ "Return JSON with fields: Role Fit (0-10), Culture Fit (0-10), Honesty (0-10), Communication (0-10), Notes (string).".

Definition baseline : pyval :=
  PDict [ ("Role Fit", PInt 7);
          ("Culture Fit", PInt 7);
          ("Honesty", PInt 7);
          ("Communication", PInt 7);
          ("Notes", PStr "Baseline offline scoring. Provide GEMINI_API_KEY for smarter evaluation.") ].

(** A [return] inside the [try] leaves the method with the decoded value;
    every other path falls through to the offline fallback. *)
Definition score
    (transcript : list (list (string * string))) (job_title company : string)
    : M pyval :=
  raw ← _llm_call system_score (user_score transcript job_title company);
  parsed ←
    (if truthy raw then
       try_except
         (v ← lift (json_loads raw); mret (Some v))
         (fun e =>
            logger WARNING ("Score JSON parse failed: " +:+ exn_str e);;
            mret None)
     else mret None);
  match parsed with
  | Some v => mret v
  | None => mret baseline  (* offline fallback *)
  end.

(** *** Security hints *)

Definition security_hint_from_event
    (event_type : string) (metadata : gmap string pyval) : string :=
  let impact := normalize_event event_type metadata in
  if float_gt impact f0_75 then event_type +:+ " (high impact)"
  else if float_gt impact f0_45 then event_type +:+ " (moderate impact)"
  else event_type +:+ " (low impact)".

End Methods.
End InterviewEngine.

(** ** Callers

    The routes of [main.py] call three methods on one engine for the life
    of the process; a route that raises leaves the process running. *)

Inductive call :=
| first_question_call (job_title company personality rag_context : string)
| next_question_call (job_title company personality rag_context prev_answer : string)
                     (emotion_ctx : gmap string spec_float)
                     (security_hint : option string)
| score_call (transcript : list (list (string * string)))
             (job_title company : string).

Inductive reply :=
| Question (q : string)
| Scores (v : pyval).

Section Callers.
Context `{Externals}.

Definition perform (c : call) : M reply :=
  match c with
  | first_question_call j co p r =>
      q ← InterviewEngine.first_question j co p r; mret (Question q)
  | next_question_call j co p r a emo hint =>
      q ← InterviewEngine.next_question j co p r a emo hint; mret (Question q)
  | score_call t j co =>
      v ← InterviewEngine.score t j co; mret (Scores v)
  end.

Fixpoint perform_all (cs : list call) (st : State)
    : list (outcome reply) * State :=
  match cs with
  | [] => ([], st)
  | c :: cs' =>
      let (r, st') := perform c st in
      let (rs, st'') := perform_all cs' st' in
      (r :: rs, st'')
  end.

(** The credential is unset or empty, or [genai.configure] fails, or it
    returns and the model handle fails, in either case with an exception
    derived from [Exception]. *)
Definition remote_unavailable : Prop :=
  match os_getenv "GEMINI_API_KEY" with
  | None => True
  | Some key =>
      key = ""
      \/ (exists e, genai_configure key = Raises e /\ is_Exception e = true)
      \/ (genai_configure key = Returns tt
          /\ exists e, genai_GenerativeModel "gemini-1.5-flash" = Raises e
                       /\ is_Exception e = true)
  end.

End Callers.

(** ** The specification's reading of the question path

    Definitions written from the words of the specification, to compare
    the methods with. *)

Module Spec.

(** An optional text is present when it is given and not empty. *)
Definition present (o : option string) : bool :=
  match o with
  | Some s => negb (String.eqb s "")
  | None => false
  end.

Definition nervous (emotion_ctx : gmap string spec_float) : bool :=
  float_gt (default zero (emotion_ctx !! "nervous")) f0_5.

(** *** Offline synthesizer, steps 1 to 4 *)

Definition opening (tone job_title : string) : string :=
  "As a " +:+ tone +:+ " interviewer for a " +:+ job_title +:+ ", ".

Definition refocus (security_hint : option string) : string :=
  if present security_hint then
    "I noticed a potential distraction (" +:+ default "" security_hint
    +:+ "). Please stay focused. "
  else "".

Definition supportive (emotion_ctx : gmap string spec_float) : string :=
  if nervous emotion_ctx then "I'll keep it supportive. " else "".

Definition deeper_example : string :=
  "Can you dive deeper into your last answer and describe a concrete example with outcomes?".
Definition matching_experience : string :=
  "What experience do you have that directly matches this role? Refer to relevant projects.".
Definition challenging_project : string :=
  "Tell me about a challenging project you led end-to-end.".

Definition closing_question (prev_answer : option string) (rag_context : string)
    : string :=
  if present prev_answer then deeper_example
  else if negb (String.eqb rag_context "") then matching_experience
  else challenging_project.

Definition synthesize (tone job_title rag_context : string)
    (prev_answer : option string) (emotion_ctx : gmap string spec_float)
    (security_hint : option string) : string :=
  opening tone job_title +:+ refocus security_hint
  +:+ supportive emotion_ctx +:+ closing_question prev_answer rag_context.

(** *** Prompt builder: the fields of the user text, in order; an absent
    field is [None] and contributes nothing. *)

Definition user_fields (tone difficulty job_title company rag_context : string)
    (prev_answer : option string) (emotion_ctx : gmap string spec_float)
    (security_hint : option string) `{Externals} : list (option string) :=
  [ Some ("Job Title: " +:+ job_title +:+ " at " +:+ company +:+ ".");
    Some ("Personality: tone=" +:+ tone +:+ ", difficulty=" +:+ difficulty +:+ ".");
    if String.eqb rag_context "" then None
    else Some ("Company/Role Context:" +:+ nl +:+ slice_to 2000 rag_context);
    if present prev_answer
    then Some ("Candidate previous answer:" +:+ nl +:+ default "" prev_answer)
    else None;
    if bool_decide (emotion_ctx = ∅) then None
    else Some ("Emotion signals: " +:+ str_of_emotion emotion_ctx);
    if present security_hint
    then Some ("Security hint: " +:+ default "" security_hint)
    else None;
    Some "Now produce ONE next interview question, natural and specific." ].

Definition user_text (tone difficulty job_title company rag_context : string)
    (prev_answer : option string) (emotion_ctx : gmap string spec_float)
    (security_hint : option string) `{Externals} : string :=
  join (nl +:+ nl)
       (omap id (user_fields tone difficulty job_title company rag_context
                             prev_answer emotion_ctx security_hint)).

(** *** Persona registry *)

Definition default_preset : gmap string string :=
  {[ "tone" := "professional"; "difficulty" := "medium" ]}.

Definition resolve (name : string) : gmap string string :=
  match PERSONALITY_PRESETS !! name with
  | Some preset => preset
  | None => default_preset
  end.

(** *** Remote client: what one exchange yields, the generated text or
    the exception of the call or of the response. *)

Definition remote_text (c : Client) (history : list string) (prompt : string)
    : outcome string :=
  match generate_content c history prompt with
  | Returns resp => text resp
  | Raises e => Raises e
  end.

(** *** Failures that the engine catches: every exception that the
    client of an engine raises, in the call or in the response, and every
    exception that [json.loads] raises, derives from [Exception]. *)

Definition remote_raises_Exceptions (s : Self) : Prop :=
  forall c history prompt e,
    client s = Some c ->
    remote_text c history prompt = Raises e ->
    is_Exception e = true.

Definition json_raises_Exceptions `{Externals} : Prop :=
  forall raw e, json_loads raw = Raises e -> is_Exception e = true.

(** *** Emotion context of a session: the primary provider's signals,
    the secondary provider's when the primary has none. *)

Definition signals (s : Self) (session_id : string) : gmap string spec_float :=
  if bool_decide (get_signals (emotion s) session_id = ∅)
  then get_signals (fallback_emotion s) session_id
  else get_signals (emotion s) session_id.

(** *** A call answered without the remote service *)

Definition offline_only (c : call) : M reply :=
  match c with
  | first_question_call j co p r =>
      emo ← InterviewEngine._emotion_ctx "seed";
      q ← InterviewEngine._offline_question j (resolve p) r None emo None;
      mret (Question q)
  | next_question_call j co p r a emo hint =>
      q ← InterviewEngine._offline_question j (resolve p) r (Some a) emo hint;
      mret (Question q)
  | score_call t j co => mret (Scores InterviewEngine.baseline)
  end.

End Spec.

(** ** Concrete collaborators, used to run the engine on examples *)

Module Demo.

(** A remote service that answers every prompt with the given text. *)
Definition answering (t : string) : Client :=
  {| generate_content := fun _ _ => Returns {| text := Returns t |} |}.

(** A remote service whose every call fails in transport. *)
Definition failing : Client :=
  {| generate_content := fun _ _ => Raises (Exn "ServiceUnavailable" "503") |}.

(** A remote call that is interrupted from the keyboard. *)
Definition interrupted : Client :=
  {| generate_content := fun _ _ => Raises (Exn "KeyboardInterrupt" "") |}.

(** [0.8 = 0x1.999999999999ap-1] and [0.6 = 0x1.3333333333333p-1]. *)
Definition f0_8 : spec_float := S754_finite false 7205759403792794 (-53).
Definition f0_6 : spec_float := S754_finite false 5404319552844595 (-53).

Definition calm : gmap string spec_float := {[ "nervous" := S754_zero false ]}.
Definition tense : gmap string spec_float := {[ "nervous" := f0_6 ]}.

(** No credential in the environment; a normalizer that rates a tab
    switch 0.8 and every other event 0.45; a decoder that accepts the
    one text [{"Role Fit": 11, "Extra": "kept"}]. *)
Definition dq : string := String (ascii_of_nat 34) EmptyString.
Definition scored : string :=
  "{" +:+ dq +:+ "Role Fit" +:+ dq +:+ ": 11, "
      +:+ dq +:+ "Extra" +:+ dq +:+ ": " +:+ dq +:+ "kept" +:+ dq +:+ "}".

Definition externals : Externals := {|
  normalize_event := fun e _ =>
    if String.eqb e "suspicious_tab_switch" then f0_8 else f0_45;
  HumeEmotionProvider := {| get_signals := fun _ => ∅ |};
  MockEmotionProvider := {| get_signals := fun _ => calm |};
  os_getenv := fun _ => None;
  genai_configure := fun _ => Returns tt;
  genai_GenerativeModel := fun _ => Returns (answering "");
  json_loads := fun raw =>
    if String.eqb raw scored
    then Returns (PDict [("Role Fit", PInt 11); ("Extra", PStr "kept")])
    else Raises (Exn "JSONDecodeError" "Expecting value");
  str_of_emotion := fun _ => "{}";
  str_of_transcript := fun _ => "[]"
|}.

Definition engine (c : option Client) (m : string) : Self :=
  {| emotion := {| get_signals := fun _ => ∅ |};
     fallback_emotion := {| get_signals := fun _ => calm |};
     client := c; mode := m |}.

Definition state (c : option Client) (m : string) : State :=
  {| self := engine c m; sent := []; log := [] |}.

End Demo.

(** ** Session models ([models.py])

    One module for each pydantic class, so that the fields keep their
    names.  A request reaches a route validated, so its fields have their
    declared types. *)

Module StartInterviewRequest.
Record t := {
  candidate_id : string;
  job_title : string;
  company : string;
  personality : string;
  rag_query : option string
}.
End StartInterviewRequest.

Module StartInterviewResponse.
Record t := {
  session_id : string;
  first_question : string;
  mode : string
}.
End StartInterviewResponse.

Module NextQuestionRequest.
Record t := {
  session_id : string;
  candidate_answer : string
}.
End NextQuestionRequest.

(** The [hints] of a reply are the dict
    [{"security_hint": ..., "emotion_ctx": ...}]. *)
Module NextQuestionResponse.
Record t := {
  session_id : string;
  question : string;
  security_hint : option string;
  emotion_ctx : gmap string spec_float
}.
End NextQuestionResponse.

Module ScoreRequest.
Record t := { session_id : string }.
End ScoreRequest.

Module ScoreResponse.
Record t := {
  session_id : string;
  scores : pyval
}.
End ScoreResponse.

Module SecurityEvent.
Record t := {
  session_id : string;
  event_type : string;
  metadata : gmap string pyval
}.
End SecurityEvent.

Module EmotionSignal.
Record t := {
  session_id : string;
  signals : gmap string spec_float
}.
End EmotionSignal.

Module Session.
Record t := {
  id : string;
  candidate_id : string;
  job_title : string;
  company : string;
  personality : string;
  started_at : Z;
  transcript : list (list (string * string));
  security_events : list SecurityEvent.t;
  emotion_context : gmap string spec_float;
  rag_context : string;
  mode : string
}.

(** [sess.transcript.append(entry)], [sess.security_events.append(ev)] and
    [sess.emotion_context = signals], as functions on the attributes. *)
Definition transcript_append (entry : list (string * string)) (s : t) : t :=
  {| id := id s; candidate_id := candidate_id s; job_title := job_title s;
     company := company s; personality := personality s;
     started_at := started_at s;
     transcript := transcript s ++ [entry];
     security_events := security_events s;
     emotion_context := emotion_context s;
     rag_context := rag_context s; mode := mode s |}.

Definition security_events_append (ev : SecurityEvent.t) (s : t) : t :=
  {| id := id s; candidate_id := candidate_id s; job_title := job_title s;
     company := company s; personality := personality s;
     started_at := started_at s;
     transcript := transcript s;
     security_events := security_events s ++ [ev];
     emotion_context := emotion_context s;
     rag_context := rag_context s; mode := mode s |}.

Definition set_emotion_context (signals : gmap string spec_float) (s : t) : t :=
  {| id := id s; candidate_id := candidate_id s; job_title := job_title s;
     company := company s; personality := personality s;
     started_at := started_at s;
     transcript := transcript s;
     security_events := security_events s;
     emotion_context := signals;
     rag_context := rag_context s; mode := mode s |}.
End Session.

(** ** The process of [main.py]

    Its state: the engine [ENGINE] with what it has sent and logged; the
    [Session] objects, each at an address; the dict of [SESSION_STORE],
    from session id to the address of a session; and the number of draws
    made from [uuid4] and the clock.  A route holds a session by its
    address, so what it changes in it is changed for the store too. *)

Record App := {
  ENGINE : State;
  objects : list Session.t;
  SESSION_STORE : gmap string nat;
  ticks : nat
}.

(** Collaborators of the routes: the retrieval of [rag], which returns a
    context or raises; the sources of session ids and of time, indexed by
    the draw; and the validation that pydantic applies to the
    [Dict[str, Any]] field of a score response. *)
Class Services := {
  retrieve : string -> outcome string;
  uuid4 : nat -> string;
  utcnow : nat -> Z;
  validate_scores : pyval -> outcome pyval
}.

Definition Route (A : Type) : Type := App -> outcome A * App.

Definition route_ret {A} (a : A) : Route A := fun app => (Returns a, app).

Definition route_bind {A B} (m : Route A) (f : A -> Route B) : Route B :=
  fun app =>
    match m app with
    | (Returns a, app') => f a app'
    | (Raises e, app') => (Raises e, app')
    end.

#[global] Instance Route_ret : MRet Route := @route_ret.
#[global] Instance Route_bind : MBind Route := fun A B f m => route_bind m f.

Definition raise {A} (e : exn) : Route A := fun app => (Raises e, app).

Definition read {A} (f : App -> A) : Route A := fun app => (Returns (f app), app).

(** A call of a collaborator that returns or raises. *)
Definition from_outcome {A} (o : outcome A) : Route A := fun app => (o, app).

(** A method of the engine, or a record for the shared logger, run from a
    route. *)
Definition on_engine {A} (m : M A) : Route A :=
  fun app =>
    let (r, st) := m (ENGINE app) in
    (r, {| ENGINE := st; objects := objects app;
           SESSION_STORE := SESSION_STORE app; ticks := ticks app |}).

(** A new object, at the next address. *)
Definition alloc (s : Session.t) : Route nat :=
  fun app =>
    (Returns (length (objects app)),
     {| ENGINE := ENGINE app; objects := objects app ++ [s];
        SESSION_STORE := SESSION_STORE app; ticks := ticks app |}).

(** The object at an address.  Addresses come from [alloc] and objects are
    never freed; an address with no object has no counterpart in Python and
    is reported as an error of the model. *)
Definition deref (l : nat) : Route Session.t :=
  fun app =>
    match objects app !! l with
    | Some s => (Returns s, app)
    | None => (Raises (Exn "ModelError" "no object at this address"), app)
    end.

(** A change of the object at an address, in place. *)
Definition mutate (l : nat) (f : Session.t -> Session.t) : Route unit :=
  fun app =>
    (Returns tt,
     {| ENGINE := ENGINE app; objects := alter f l (objects app);
        SESSION_STORE := SESSION_STORE app; ticks := ticks app |}).

(** [self._store[key] = session]. *)
Definition store_setitem (key : string) (l : nat) : Route unit :=
  fun app =>
    (Returns tt,
     {| ENGINE := ENGINE app; objects := objects app;
        SESSION_STORE := <[key := l]> (SESSION_STORE app); ticks := ticks app |}).

Section Draws.
Context `{Services}.

(** [str(uuid.uuid4())] and [datetime.utcnow()]. *)
Definition draw_uuid4 : Route string :=
  fun app =>
    (Returns (uuid4 (ticks app)),
     {| ENGINE := ENGINE app; objects := objects app;
        SESSION_STORE := SESSION_STORE app; ticks := S (ticks app) |}).

Definition draw_utcnow : Route Z :=
  fun app =>
    (Returns (utcnow (ticks app)),
     {| ENGINE := ENGINE app; objects := objects app;
        SESSION_STORE := SESSION_STORE app; ticks := S (ticks app) |}).

End Draws.

(** *** [SessionStore] *)

Module SessionStore.
Section Methods.
Context `{Services}.

Definition create
    (candidate_id job_title company personality rag_context mode : string)
    : Route nat :=
  sid ← draw_uuid4;
  now ← draw_utcnow;
  sess ← alloc {| Session.id := sid;
                  Session.candidate_id := candidate_id;
                  Session.job_title := job_title;
                  Session.company := company;
                  Session.personality := personality;
                  Session.started_at := now;
                  Session.transcript := [];
                  Session.security_events := [];
                  Session.emotion_context := ∅;
                  Session.rag_context := rag_context;
                  Session.mode := mode |};
  store_setitem sid sess;;
  mret sess.

End Methods.

Definition get (session_id : string) : Route nat :=
  store ← read SESSION_STORE;
  match store !! session_id with
  | None => raise (KeyError "session not found")
  | Some l => mret l
  end.

Definition update (session : nat) : Route unit :=
  s ← deref session;
  store_setitem (Session.id s) session.

End SessionStore.

(** *** Routes *)

Module Main.

(** [HTTPException(status_code=404, detail=...)]; [exn_str] holds the
    detail. *)
Definition HTTPException_404 (detail : string) : exn := Exn "HTTPException" detail.

(** Truth value of a [Session]: the class defines neither [__bool__] nor
    [__len__], so every instance is true. *)
Definition truthy_session (l : nat) : bool := true.

(** The test that follows every [SESSION_STORE.get] in the routes. *)
Definition check_found (sess : nat) : Route unit :=
  if negb (truthy_session sess)
  then raise (HTTPException_404 "Session not found")
  else mret tt.

Definition info (msg : string) : Route unit := on_engine (logger INFO msg).

(** The emotion context of a session with no signals:
    [0.3 = 0x1.3333333333333p-2], [0.2 = 0x1.999999999999ap-3]. *)
Definition default_emotion_ctx : gmap string spec_float :=
  {[ "nervous" := S754_finite false 5404319552844595 (-54);
     "confident" := f0_5;
     "empathetic_need" := S754_finite false 7205759403792794 (-55) ]}.

(** [lst[-1]] of a list that is not empty. *)
Definition last_event (evs : list SecurityEvent.t) : option SecurityEvent.t :=
  last evs.

Section Routes.
Context `{Externals} `{Services}.

(** The retrieval context of a request: what [retrieve] gives for the
    query, and the empty string without a query or with an empty one. *)
Definition rag_context_of (req : StartInterviewRequest.t) : outcome string :=
  if truthy_opt (StartInterviewRequest.rag_query req)
  then retrieve (default "" (StartInterviewRequest.rag_query req))
  else Returns "".

Definition start_interview (req : StartInterviewRequest.t)
    : Route StartInterviewResponse.t :=
  info ("Starting interview for candidate="
        +:+ StartInterviewRequest.candidate_id req
        +:+ ", job_title=" +:+ StartInterviewRequest.job_title req);;
  rag_ctx ← from_outcome (rag_context_of req);
  engine_mode ← read (fun app => mode (self (ENGINE app)));
  sess ← SessionStore.create
           (StartInterviewRequest.candidate_id req)
           (StartInterviewRequest.job_title req)
           (StartInterviewRequest.company req)
           (StartInterviewRequest.personality req)
           rag_ctx engine_mode;
  q ← on_engine (InterviewEngine.first_question
                   (StartInterviewRequest.job_title req)
                   (StartInterviewRequest.company req)
                   (StartInterviewRequest.personality req)
                   rag_ctx);
  mutate sess (Session.transcript_append [("role", "interviewer"); ("text", q)]);;
  SessionStore.update sess;;
  s ← deref sess;
  info ("Session " +:+ Session.id s +:+ " started with first question");;
  s ← deref sess;
  engine_mode ← read (fun app => mode (self (ENGINE app)));
  mret {| StartInterviewResponse.session_id := Session.id s;
          StartInterviewResponse.first_question := q;
          StartInterviewResponse.mode := engine_mode |}.

(** The two values that the route of the next question reads off the
    session before it calls the engine: the hint for the last security
    event, if there is any event, and the emotion context, or the default
    one if the session has none. *)
Definition session_security_hint (s : Session.t) : option string :=
  if negb (bool_decide (Session.security_events s = [])) then
    match last_event (Session.security_events s) with
    | Some last =>
        Some (InterviewEngine.security_hint_from_event
                (SecurityEvent.event_type last) (SecurityEvent.metadata last))
    | None => None
    end
  else None.

Definition session_emotion_ctx (s : Session.t) : gmap string spec_float :=
  if truthy_dict (Session.emotion_context s)
  then Session.emotion_context s
  else default_emotion_ctx.

Definition next_question (req : NextQuestionRequest.t)
    : Route NextQuestionResponse.t :=
  sess ← SessionStore.get (NextQuestionRequest.session_id req);
  check_found sess;;
  s ← deref sess;
  info ("Session " +:+ Session.id s +:+ ": candidate answered -> "
        +:+ NextQuestionRequest.candidate_answer req);;
  mutate sess (Session.transcript_append
                 [("role", "candidate");
                  ("text", NextQuestionRequest.candidate_answer req)]);;
  s ← deref sess;
  let security_hint := session_security_hint s in
  let emotion_ctx := session_emotion_ctx s in
  q ← on_engine (InterviewEngine.next_question
                   (Session.job_title s) (Session.company s)
                   (Session.personality s) (Session.rag_context s)
                   (NextQuestionRequest.candidate_answer req)
                   emotion_ctx security_hint);
  mutate sess (Session.transcript_append [("role", "interviewer"); ("text", q)]);;
  SessionStore.update sess;;
  s ← deref sess;
  info ("Session " +:+ Session.id s +:+ ": next question generated");;
  s ← deref sess;
  mret {| NextQuestionResponse.session_id := Session.id s;
          NextQuestionResponse.question := q;
          NextQuestionResponse.security_hint := security_hint;
          NextQuestionResponse.emotion_ctx := emotion_ctx |}.

(** The two routes below return the dict [{"ok": True}], modelled by its
    one value. *)
Definition post_event (ev : SecurityEvent.t) : Route bool :=
  sess ← SessionStore.get (SecurityEvent.session_id ev);
  check_found sess;;
  mutate sess (Session.security_events_append ev);;
  SessionStore.update sess;;
  s ← deref sess;
  info ("Session " +:+ Session.id s +:+ ": security event logged -> "
        +:+ SecurityEvent.event_type ev);;
  mret true.

Definition post_emotion (sig : EmotionSignal.t) : Route bool :=
  sess ← SessionStore.get (EmotionSignal.session_id sig);
  check_found sess;;
  mutate sess (Session.set_emotion_context (EmotionSignal.signals sig));;
  SessionStore.update sess;;
  s ← deref sess;
  info ("Session " +:+ Session.id s +:+ ": emotion signals updated");;
  mret true.

Definition score (req : ScoreRequest.t) : Route ScoreResponse.t :=
  sess ← SessionStore.get (ScoreRequest.session_id req);
  check_found sess;;
  s ← deref sess;
  scores ← on_engine (InterviewEngine.score
                        (Session.transcript s) (Session.job_title s)
                        (Session.company s));
  s ← deref sess;
  info ("Session " +:+ Session.id s +:+ ": scoring complete");;
  s ← deref sess;
  validated ← from_outcome (validate_scores scores);
  mret {| ScoreResponse.session_id := Session.id s;
          ScoreResponse.scores := validated |}.

End Routes.
End Main.

(** *** Reading the process state *)

(** The session that the store holds under an id. *)
Definition session_at (app : App) (sid : string) : option Session.t :=
  match SESSION_STORE app !! sid with
  | Some l => objects app !! l
  | None => None
  end.

(** Every entry of the store leads to an object, and that object carries
    the id it is stored under. *)
Definition store_consistent (app : App) : Prop :=
  forall sid l, SESSION_STORE app !! sid = Some l ->
                exists s, objects app !! l = Some s /\ Session.id s = sid.

(** A transcript that alternates, from an interviewer's entry to an
    interviewer's entry. *)
Fixpoint alternates (interviewer_next : bool) (t : list (list (string * string)))
    : bool :=
  match t with
  | [] => negb interviewer_next
  | entry :: t' =>
      match entry with
      | [(k1, role); (k2, _)] =>
          String.eqb k1 "role" && String.eqb k2 "text"
          && String.eqb role
               (if interviewer_next then "interviewer" else "candidate")
          && alternates (negb interviewer_next) t'
      | _ => false
      end
  end.

Definition transcripts_alternate (app : App) : Prop :=
  forall sid s, session_at app sid = Some s ->
                alternates true (Session.transcript s) = true.

(** The sessions of [app'] are those of [app] but for the one under
    [sid], which was changed by [f]. *)
Definition one_changed (app app' : App) (sid : string)
    (f : Session.t -> Session.t) : Prop :=
  exists s,
    session_at app sid = Some s
    /\ forall k, session_at app' k
                 = if decide (k = sid) then Some (f s) else session_at app k.

Definition empty_app (st : State) : App :=
  {| ENGINE := st; objects := []; SESSION_STORE := ∅; ticks := 0 |}.

(** The session that [start_interview] creates for a request, before the
    first question is known. *)
Definition created `{Services} (req : StartInterviewRequest.t) (app : App)
    (rag_ctx : string) : Session.t :=
  {| Session.id := uuid4 (ticks app);
     Session.candidate_id := StartInterviewRequest.candidate_id req;
     Session.job_title := StartInterviewRequest.job_title req;
     Session.company := StartInterviewRequest.company req;
     Session.personality := StartInterviewRequest.personality req;
     Session.started_at := utcnow (S (ticks app));
     Session.transcript := [];
     Session.security_events := [];
     Session.emotion_context := ∅;
     Session.rag_context := rag_ctx;
     Session.mode := mode (self (ENGINE app)) |}.

(** *** Concrete services and requests, used to run the routes on
    examples *)

Module DemoApp.

Definition services : Services := {|
  retrieve := fun q => Returns ("About " +:+ q);
  uuid4 := fun n => if Nat.eqb n 0 then "s-0" else "s-n";
  utcnow := fun n => Z.of_nat n;
  validate_scores := fun v => Returns v
|}.

Definition start : StartInterviewRequest.t :=
  {| StartInterviewRequest.candidate_id := "c1";
     StartInterviewRequest.job_title := "Backend Engineer";
     StartInterviewRequest.company := "Acme";
     StartInterviewRequest.personality := "Startup CTO";
     StartInterviewRequest.rag_query := Some "rockets" |}.

Definition answer : NextQuestionRequest.t :=
  {| NextQuestionRequest.session_id := "s-0";
     NextQuestionRequest.candidate_answer := "I led a migration." |}.

Definition tab_switch : SecurityEvent.t :=
  {| SecurityEvent.session_id := "s-0";
     SecurityEvent.event_type := "suspicious_tab_switch";
     SecurityEvent.metadata := ∅ |}.

Definition tense_signal : EmotionSignal.t :=
  {| EmotionSignal.session_id := "s-0";
     EmotionSignal.signals := Demo.tense |}.

(** A fresh process with an offline engine, and the same after one
    interview was started. *)
Definition fresh : App := empty_app (Demo.state None "offline").

Definition started : App :=
  snd (@Main.start_interview Demo.externals services start fresh).

(** The session that [started] holds, at address 0 and under "s-0". *)
Definition first_session : Session.t :=
  {| Session.id := "s-0";
     Session.candidate_id := "c1";
     Session.job_title := "Backend Engineer";
     Session.company := "Acme";
     Session.personality := "Startup CTO";
     Session.started_at := 1;
     Session.transcript :=
       [[("role", "interviewer");
         ("text", "As a direct interviewer for a Backend Engineer, What experience do you have that directly matches this role? Refer to relevant projects.")]];
     Session.security_events := [];
     Session.emotion_context := ∅;
     Session.rag_context := "About rockets";
     Session.mode := "offline" |}.

(** The sessions of [started] beside an engine in gemini mode whose remote
    calls are interrupted from the keyboard. *)
Definition interrupted : App :=
  {| ENGINE := Demo.state (Some Demo.interrupted) "gemini";
     objects := objects started;
     SESSION_STORE := SESSION_STORE started;
     ticks := ticks started |}.

End DemoApp.

(** * Properties *)

Import InterviewEngine.

(** ** Strings *)

Lemma append_cons (c : ascii) (a b : string) :
  String c a +:+ b = String c (a +:+ b).
Proof. reflexivity. Qed.

Lemma append_inj_l (p a b : string) : p +:+ a = p +:+ b -> a = b.
Proof.
  induction p as [|c p IH]; intros Heq.
  - exact Heq.
  - rewrite !append_cons in Heq. injection Heq as Heq. auto.
Qed.

Lemma append_assoc (a b c : string) : (a +:+ b) +:+ c = a +:+ (b +:+ c).
Proof.
  induction a as [|x a IH]; [reflexivity|].
  rewrite !append_cons. f_equal. exact IH.
Qed.

Lemma truthy_true (s : string) : truthy s = true <-> s <> "".
Proof. destruct s; simpl; split; congruence. Qed.

(** ** Float comparison *)

Lemma SFcompare_antisym (x y : spec_float) :
  SFcompare y x = option_map CompOpp (SFcompare x y).
Proof.
  destruct x as [sx|sx| |sx mx ex], y as [sy|sy| |sy my ey]; simpl;
    try reflexivity;
    try (destruct sx; reflexivity); try (destruct sy; reflexivity);
    try (destruct sx, sy; reflexivity).
  destruct sx, sy; simpl; try reflexivity;
    rewrite (Z.compare_antisym ex ey);
    destruct (ex ?= ey)%Z; simpl; try reflexivity;
    change (Pos.compare_cont Eq my mx) with (Pos.compare my mx);
    change (Pos.compare_cont Eq mx my) with (Pos.compare mx my);
    rewrite (Pos.compare_antisym mx my);
    destruct (mx ?= my)%positive; reflexivity.
Qed.

Lemma SFcompare_None (x y : spec_float) :
  SFcompare x y = None -> is_nan x = true \/ is_nan y = true.
Proof.
  destruct x as [sx|sx| |sx mx ex], y as [sy|sy| |sy my ey]; simpl;
    intros Hc; try discriminate Hc; auto.
Qed.

Lemma gt_le_excl (x y : spec_float) : float_gt x y = true -> float_le x y = false.
Proof.
  unfold float_gt, float_le, SFltb, SFleb. rewrite (SFcompare_antisym x y).
  destruct (SFcompare x y) as [[| |]|]; simpl; congruence.
Qed.

Lemma not_gt_le (x y : spec_float) :
  is_nan x = false -> is_nan y = false -> float_gt x y = false -> float_le x y = true.
Proof.
  intros Hx Hy. unfold float_gt, float_le, SFltb, SFleb. rewrite (SFcompare_antisym x y).
  destruct (SFcompare x y) as [[| |]|] eqn:Hc; simpl; try congruence.
  destruct (SFcompare_None _ _ Hc); congruence.
Qed.

Lemma SFcompare_pos (m1 m2 : positive) (e1 e2 : Z) :
  SFcompare (S754_finite false m1 e1) (S754_finite false m2 e2)
  = Some match (e1 ?= e2)%Z with
         | Lt => Lt
         | Gt => Gt
         | Eq => (m1 ?= m2)%positive
         end.
Proof. reflexivity. Qed.

(** Above 0.75 is above 0.45. *)
Lemma gt_0_75_gt_0_45 (x : spec_float) : float_gt x f0_75 = true -> float_gt x f0_45 = true.
Proof.
  unfold float_gt, SFltb, f0_75, f0_45.
  destruct x as [s|s| |s m e].
  - destruct s; cbv; congruence.
  - destruct s; cbv; congruence.
  - cbv; congruence.
  - destruct s; [cbv; congruence|].
    rewrite !SFcompare_pos.
    destruct (Z.compare_spec (-53) e) as [He|He|He];
      destruct (Z.compare_spec (-54) e) as [He'|He'|He']; try lia; congruence.
Qed.

(** The three hints for one event type are pairwise different. *)
Lemma hints_distinct (e : string) :
  e +:+ " (high impact)" <> e +:+ " (moderate impact)"
  /\ e +:+ " (high impact)" <> e +:+ " (low impact)"
  /\ e +:+ " (moderate impact)" <> e +:+ " (low impact)".
Proof.
  repeat split; intros Heq; apply append_inj_l in Heq; discriminate Heq.
Qed.

(** ** Security hints *)

(** C1: for every event type [e] and metadata [m], with [x] the impact the
    normalizer returns (a number, not a NaN): the hint is
    ["<e> (high impact)"] iff [x > 0.75], ["<e> (moderate impact)"] iff
    [0.45 < x <= 0.75], and ["<e> (low impact)"] iff [x <= 0.45]; an impact
    of exactly 0.75 gives the moderate hint and one of exactly 0.45 the low
    hint. *)
Theorem security_hint_buckets `{Externals}
    (e : string) (m : gmap string pyval) :
  is_nan (normalize_event e m) = false ->
  (security_hint_from_event e m = e +:+ " (high impact)"
     <-> float_gt (normalize_event e m) f0_75 = true)
  /\ (security_hint_from_event e m = e +:+ " (moderate impact)"
     <-> float_gt (normalize_event e m) f0_45 = true
         /\ float_le (normalize_event e m) f0_75 = true)
  /\ (security_hint_from_event e m = e +:+ " (low impact)"
     <-> float_le (normalize_event e m) f0_45 = true)
  /\ (normalize_event e m = f0_75
     -> security_hint_from_event e m = e +:+ " (moderate impact)")
  /\ (normalize_event e m = f0_45
     -> security_hint_from_event e m = e +:+ " (low impact)").
Proof.
  intros Hnan. unfold security_hint_from_event.
  destruct (hints_distinct e) as (Hhm & Hhl & Hml).
  set (x := normalize_event e m) in *.
  destruct (float_gt x f0_75) eqn:H75; [|destruct (float_gt x f0_45) eqn:H45].
  - pose proof (gt_0_75_gt_0_45 x H75) as H45.
    pose proof (gt_le_excl x f0_75 H75) as Hle75.
    pose proof (gt_le_excl x f0_45 H45) as Hle45.
    repeat split; try congruence.
    + intros [_ Habs]. congruence.
    + intros Hx. rewrite Hx in H75. discriminate H75.
    + intros Hx. rewrite Hx in H75. discriminate H75.
  - pose proof (not_gt_le x f0_75 Hnan eq_refl H75) as Hle75.
    pose proof (gt_le_excl x f0_45 H45) as Hle45.
    repeat split; try congruence.
    intros Hx. rewrite Hx in H45. discriminate H45.
  - pose proof (not_gt_le x f0_45 Hnan eq_refl H45) as Hle45.
    repeat split; try congruence.
    + intros [Habs _]. congruence.
    + intros Hx. rewrite Hx in H45. discriminate H45.
Qed.

(** At a NaN impact both tests are false and the low hint comes out. *)
Lemma security_hint_nan `{Externals} (e : string) (m : gmap string pyval) :
  normalize_event e m = S754_nan ->
  security_hint_from_event e m = e +:+ " (low impact)".
Proof. intros Hx. unfold security_hint_from_event. rewrite Hx. reflexivity. Qed.

Lemma security_hint_buckets_witness :
  is_nan (@normalize_event Demo.externals "suspicious_tab_switch" ∅) = false
  /\ @security_hint_from_event Demo.externals "suspicious_tab_switch" ∅
     = "suspicious_tab_switch (high impact)".
Proof.
  split; [reflexivity|].
  apply (@security_hint_buckets Demo.externals "suspicious_tab_switch" ∅);
    reflexivity.
Defined.

(** ** The monad *)

Lemma bind_returns {A B} (m : M A) (f : A -> M B) (st st' : State) (a : A) :
  m st = (Returns a, st') -> (m ≫= f) st = f a st'.
Proof. intros Hm. unfold mbind, M_bind, bind. rewrite Hm. reflexivity. Qed.

Lemma bind_raises {A B} (m : M A) (f : A -> M B) (st st' : State) (e : exn) :
  m st = (Raises e, st') -> (m ≫= f) st = (Raises e, st').
Proof. intros Hm. unfold mbind, M_bind, bind. rewrite Hm. reflexivity. Qed.

(** Binding the same continuation to two computations that agree at a
    state gives computations that agree there. *)
Lemma bind_agree {A B} (m m' : M A) (f : A -> M B) (st : State) :
  m st = m' st -> (m ≫= f) st = (m' ≫= f) st.
Proof. intros Hm. unfold mbind, M_bind, bind. rewrite Hm. reflexivity. Qed.

(** ** Truth tests *)

Lemma truthy_eqb (s : string) : truthy s = negb (String.eqb s "").
Proof. destruct s; reflexivity. Qed.

Lemma truthy_opt_present (o : option string) : truthy_opt o = Spec.present o.
Proof. destruct o as [s|]; [apply truthy_eqb | reflexivity]. Qed.

Lemma truthy_dict_empty {V} (d : gmap string V) :
  truthy_dict d = negb (bool_decide (d = ∅)).
Proof. reflexivity. Qed.

(** ** Persona registry *)

Lemma persona_run (personality : string) (st : State) :
  _persona personality st = (Returns (Spec.resolve personality), st).
Proof.
  unfold Spec.resolve.
  change (_persona personality st)
    with (Returns (default Spec.default_preset
                           (PERSONALITY_PRESETS !! personality)), st).
  destruct (PERSONALITY_PRESETS !! personality); reflexivity.
Qed.

Lemma presets_complete :
  map_Forall (fun _ p => is_Some (p !! "tone") /\ is_Some (p !! "difficulty"))
             PERSONALITY_PRESETS.
Proof.
  unfold PERSONALITY_PRESETS.
  repeat (apply map_Forall_insert_2; [split; eexists; reflexivity|]).
  apply map_Forall_empty.
Qed.

Lemma resolve_complete (name : string) :
  exists tone difficulty,
    Spec.resolve name !! "tone" = Some tone
    /\ Spec.resolve name !! "difficulty" = Some difficulty.
Proof.
  unfold Spec.resolve.
  destruct (PERSONALITY_PRESETS !! name) as [p|] eqn:Hp.
  - destruct (presets_complete name p Hp) as [[t Ht] [d Hd]]. eauto.
  - exists "professional", "medium". split; reflexivity.
Qed.

(** For every persona name not in the registry, [resolve] gives the preset
    of the default name. *)
Lemma resolve_unknown (name : string) :
  PERSONALITY_PRESETS !! name = None ->
  Spec.resolve name = Spec.resolve "Default Manager".
Proof. intros Hn. unfold Spec.resolve. rewrite Hn. reflexivity. Qed.

(** ** Offline question synthesizer *)

Lemma offline_question_run
    (job_title : string) (persona : gmap string string) (rag_context : string)
    (prev_answer : option string) (emotion_ctx : gmap string spec_float)
    (security_hint : option string) (tone : string) (st : State) :
  persona !! "tone" = Some tone ->
  _offline_question job_title persona rag_context prev_answer emotion_ctx
                    security_hint st
  = (Returns (Spec.synthesize tone job_title rag_context prev_answer
                              emotion_ctx security_hint), st).
Proof.
  intros Ht. unfold _offline_question, Spec.synthesize.
  unfold mbind, M_bind, bind, lift, getitem. rewrite Ht.
  unfold Spec.closing_question, Spec.supportive, Spec.refocus, Spec.nervous,
    Spec.opening.
  rewrite <- !truthy_opt_present, <- truthy_eqb.
  destruct (truthy_opt security_hint), (truthy_opt prev_answer),
    (truthy rag_context), (float_gt (default zero (emotion_ctx !! "nervous")) f0_5);
    unfold mret, M_ret, ret; f_equal; f_equal;
    rewrite ?append_assoc; reflexivity.
Qed.

Lemma closing_questions_distinct :
  Spec.deeper_example <> Spec.matching_experience
  /\ Spec.deeper_example <> Spec.challenging_project
  /\ Spec.matching_experience <> Spec.challenging_project.
Proof. repeat split; discriminate. Qed.

Lemma opening_nonempty (tone job_title rest : string) :
  Spec.opening tone job_title +:+ rest <> "".
Proof. unfold Spec.opening. rewrite !append_assoc. discriminate. Qed.

(** C3: for every input whose persona carries a tone, the offline
    synthesizer returns, without raising and without touching the state,
    a string that ends with the one closing question that the priority
    selects: the deeper-example question when a prior answer is present
    (given and not empty), else the matching-experience question when the
    retrieval context is not empty, else the challenging-project opener.
    The result is never empty, and with all optional inputs absent it is
    the opening followed by the challenging-project question. *)
Theorem offline_question_closing
    (job_title : string) (persona : gmap string string) (rag_context : string)
    (prev_answer : option string) (emotion_ctx : gmap string spec_float)
    (security_hint : option string) (tone : string) (st : State) :
  persona !! "tone" = Some tone ->
  exists q,
    _offline_question job_title persona rag_context prev_answer emotion_ctx
                      security_hint st = (Returns q, st)
    /\ q <> ""
    /\ endswith q (Spec.closing_question prev_answer rag_context)
    /\ (Spec.present prev_answer = true -> endswith q Spec.deeper_example)
    /\ (Spec.present prev_answer = false -> rag_context <> "" ->
        endswith q Spec.matching_experience)
    /\ (Spec.present prev_answer = false -> rag_context = "" ->
        endswith q Spec.challenging_project)
    /\ (prev_answer = None -> rag_context = "" -> security_hint = None ->
        emotion_ctx = ∅ ->
        q = Spec.opening tone job_title +:+ Spec.challenging_project).
Proof.
  intros Ht. eexists. split; [apply offline_question_run; exact Ht|].
  assert (Hend : endswith (Spec.synthesize tone job_title rag_context prev_answer
                             emotion_ctx security_hint)
                          (Spec.closing_question prev_answer rag_context)).
  { exists (Spec.opening tone job_title +:+ Spec.refocus security_hint
            +:+ Spec.supportive emotion_ctx).
    unfold Spec.synthesize. rewrite !append_assoc. reflexivity. }
  split; [apply opening_nonempty|].
  split; [exact Hend|].
  unfold Spec.closing_question in Hend.
  repeat split.
  - intros Hp. rewrite Hp in Hend. exact Hend.
  - intros Hp Hr. rewrite Hp in Hend.
    apply String.eqb_neq in Hr. rewrite Hr in Hend. exact Hend.
  - intros Hp Hr. rewrite Hp in Hend.
    apply String.eqb_eq in Hr. rewrite Hr in Hend. exact Hend.
  - intros -> -> -> ->. reflexivity.
Qed.

Lemma offline_question_closing_witness :
  exists q,
    _offline_question "Backend Engineer" Spec.default_preset "" None ∅ None
                      (Demo.state None "offline")
    = (Returns q, Demo.state None "offline")
    /\ q <> "".
Proof.
  destruct (offline_question_closing
              "Backend Engineer" Spec.default_preset "" None ∅ None
              "professional" (Demo.state None "offline") eq_refl)
    as (q & Hrun & Hne & _).
  exists q. split; assumption.
Defined.

(** C9: the offline synthesizer is a function of its arguments alone: two
    invocations with the same job title, persona, retrieval context, prior
    answer, emotion context and security hint give the same outcome
    whatever the state of the engine and of the process at each of them,
    and neither changes that state. *)
Theorem offline_question_deterministic
    (job_title : string) (persona : gmap string string) (rag_context : string)
    (prev_answer : option string) (emotion_ctx : gmap string spec_float)
    (security_hint : option string) (st1 st2 : State) :
  fst (_offline_question job_title persona rag_context prev_answer
                         emotion_ctx security_hint st1)
  = fst (_offline_question job_title persona rag_context prev_answer
                           emotion_ctx security_hint st2)
  /\ snd (_offline_question job_title persona rag_context prev_answer
                           emotion_ctx security_hint st1) = st1
  /\ snd (_offline_question job_title persona rag_context prev_answer
                           emotion_ctx security_hint st2) = st2.
Proof.
  destruct (persona !! "tone") as [tone|] eqn:Ht.
  - rewrite !(offline_question_run _ _ _ _ _ _ tone) by exact Ht.
    repeat split.
  - unfold _offline_question, mbind, M_bind, bind, lift, getitem.
    rewrite Ht. repeat split.
Qed.

(** ** Prompt builder *)

Lemma slice_to_length (n : nat) (s : string) :
  String.length (slice_to n s) = Nat.min n (String.length s).
Proof.
  unfold slice_to. revert n.
  induction s as [|c s IH]; intros [|n]; simpl; try reflexivity.
  f_equal. apply IH.
Qed.

Lemma slice_to_prefix (n : nat) (s : string) : startswith s (slice_to n s).
Proof.
  unfold slice_to, startswith. revert n.
  induction s as [|c s IH]; intros [|n]; simpl.
  - exists "". reflexivity.
  - exists "". reflexivity.
  - exists (String c s). reflexivity.
  - destruct (IH n) as [r Hr]. exists r.
    rewrite append_cons. f_equal. exact Hr.
Qed.

Lemma slice_to_short (n : nat) (s : string) :
  (String.length s <= n)%nat -> slice_to n s = s.
Proof.
  unfold slice_to. revert n.
  induction s as [|c s IH]; intros [|n]; simpl; intros Hle;
    try reflexivity; try lia.
  f_equal. apply IH. lia.
Qed.

Lemma user_prompt_run `{Externals}
    (job_title company : string) (persona : gmap string string)
    (rag_context : string) (prev_answer : option string)
    (emotion_ctx : gmap string spec_float) (security_hint : option string)
    (tone difficulty : string) (st : State) :
  persona !! "tone" = Some tone ->
  persona !! "difficulty" = Some difficulty ->
  user_prompt job_title company persona rag_context prev_answer emotion_ctx
              security_hint st
  = (Returns (Spec.user_text tone difficulty job_title company rag_context
                             prev_answer emotion_ctx security_hint), st).
Proof.
  intros Ht Hd. unfold user_prompt, Spec.user_text, Spec.user_fields.
  unfold mbind, M_bind, bind, lift, getitem. rewrite Ht, Hd.
  rewrite !truthy_opt_present, truthy_eqb, truthy_dict_empty.
  destruct (String.eqb rag_context ""), (Spec.present prev_answer),
    (bool_decide (emotion_ctx = ∅)), (Spec.present security_hint);
    reflexivity.
Qed.

(** C6: for every combination of inputs (the persona carrying a tone and a
    difficulty) the user text is the fields that are present, in order and
    joined by blank lines: job and company; tone and difficulty; the
    retrieval context cut to its first 2000 characters, left out when
    empty; the prior answer, left out when absent; the emotion context,
    left out when empty; the security hint, left out when absent; the
    closing instruction.  The cut keeps a prefix of the context, of length
    2000 or the length of the context if that is less, and with every
    optional input absent the text is the two opening lines and the
    closing instruction and nothing else. *)
Theorem user_prompt_fields `{Externals}
    (job_title company : string) (persona : gmap string string)
    (rag_context : string) (prev_answer : option string)
    (emotion_ctx : gmap string spec_float) (security_hint : option string)
    (tone difficulty : string) (st : State) :
  persona !! "tone" = Some tone ->
  persona !! "difficulty" = Some difficulty ->
  user_prompt job_title company persona rag_context prev_answer emotion_ctx
              security_hint st
  = (Returns (Spec.user_text tone difficulty job_title company rag_context
                             prev_answer emotion_ctx security_hint), st)
  /\ String.length (slice_to 2000 rag_context)
     = Nat.min 2000 (String.length rag_context)
  /\ startswith rag_context (slice_to 2000 rag_context)
  /\ (Spec.present prev_answer = false -> rag_context = "" ->
      emotion_ctx = ∅ -> Spec.present security_hint = false ->
      Spec.user_text tone difficulty job_title company rag_context
                     prev_answer emotion_ctx security_hint
      = ("Job Title: " +:+ job_title +:+ " at " +:+ company +:+ ".")
        +:+ (nl +:+ nl)
        +:+ ("Personality: tone=" +:+ tone +:+ ", difficulty=" +:+ difficulty +:+ ".")
        +:+ (nl +:+ nl)
        +:+ "Now produce ONE next interview question, natural and specific.").
Proof.
  intros Ht Hd.
  split; [apply user_prompt_run; assumption|].
  split; [apply slice_to_length|].
  split; [apply slice_to_prefix|].
  intros Hp -> -> Hh. unfold Spec.user_text, Spec.user_fields.
  rewrite Hp, Hh. reflexivity.
Qed.

Lemma user_prompt_fields_witness :
  @user_prompt Demo.externals "Backend Engineer" "Acme" Spec.default_preset
               "" None ∅ None (Demo.state None "offline")
  = (Returns (@Spec.user_text "professional" "medium" "Backend Engineer" "Acme"
                              "" None ∅ None Demo.externals),
     Demo.state None "offline").
Proof.
  apply (@user_prompt_fields Demo.externals "Backend Engineer" "Acme"
           Spec.default_preset "" None ∅ None "professional" "medium"
           (Demo.state None "offline") eq_refl eq_refl).
Defined.

(** An empty prior answer or hint is treated as an absent one, in the
    prompt and in the offline question alike. *)
Lemma empty_is_absent `{Externals}
    (tone difficulty job_title company rag_context : string)
    (emotion_ctx : gmap string spec_float) :
  Spec.user_text tone difficulty job_title company rag_context (Some "")
                 emotion_ctx (Some "")
  = Spec.user_text tone difficulty job_title company rag_context None
                   emotion_ctx None
  /\ Spec.synthesize tone job_title rag_context (Some "") emotion_ctx (Some "")
     = Spec.synthesize tone job_title rag_context None emotion_ctx None.
Proof. split; reflexivity. Qed.

(** ** Remote call *)

Lemma strip_all_space (s : string) : all_space s = true -> strip s = "".
Proof.
  unfold strip. induction s as [|c s IH]; simpl; [reflexivity|].
  intros Hs. apply andb_prop in Hs as [Hc Hs]. rewrite Hc. auto.
Qed.

Lemma llm_call_run (system user : string) (st : State) :
  _llm_call system user st
  = match String.eqb (mode (self st)) "gemini", client (self st) with
    | true, Some c =>
        let prompt := system +:+ nl +:+ nl +:+ user in
        match Spec.remote_text c (sent st) prompt with
        | Returns t => (Returns (strip t), record_sent prompt st)
        | Raises e =>
            if is_Exception e then
              (Returns "",
               record_log ERROR ("Gemini call failed: " +:+ exn_str e)
                          (record_sent prompt st))
            else (Raises e, record_sent prompt st)
        end
    | _, _ => (Returns "", st)
    end.
Proof.
  unfold _llm_call, mbind, M_bind, bind, get_self.
  destruct (String.eqb (mode (self st)) "gemini"); [|reflexivity].
  destruct (client (self st)) as [c|]; [|reflexivity].
  unfold try_except, call_generate_content, Spec.remote_text, lift.
  destruct (generate_content c (sent st) (system +:+ nl +:+ nl +:+ user))
    as [[[t|e]]|e]; try reflexivity;
    cbn [text]; destruct (is_Exception e); reflexivity.
Qed.

(** With a client that raises only exceptions derived from [Exception],
    the remote call returns, and leaves the attributes of the engine as
    they were. *)
Lemma llm_call_returns (system user : string) (st : State) :
  Spec.remote_raises_Exceptions (self st) ->
  exists out st',
    _llm_call system user st = (Returns out, st') /\ self st' = self st.
Proof.
  intros Hexc. rewrite llm_call_run.
  destruct (String.eqb (mode (self st)) "gemini"); [|eauto].
  destruct (client (self st)) as [c|] eqn:Hc; [|eauto].
  cbv zeta.
  destruct (Spec.remote_text c (sent st) (system +:+ nl +:+ nl +:+ user))
    as [t|e] eqn:Hr; [eauto|].
  rewrite (Hexc c _ _ e Hc Hr). eauto.
Qed.

(** A raise of the remote call goes through the question path. *)
Lemma generate_question_propagates `{Externals}
    (job_title company personality rag_context : string)
    (prev_answer : option string) (emotion_ctx : gmap string spec_float)
    (security_hint : option string) (st : State) :
  exists tone difficulty,
    Spec.resolve personality !! "tone" = Some tone
    /\ Spec.resolve personality !! "difficulty" = Some difficulty
    /\ forall e st',
         _llm_call system_question
                   (Spec.user_text tone difficulty job_title company rag_context
                                   prev_answer emotion_ctx security_hint) st
         = (Raises e, st') ->
         _generate_question job_title company personality rag_context
                            prev_answer emotion_ctx security_hint st
         = (Raises e, st').
Proof.
  destruct (resolve_complete personality) as (tone & difficulty & Ht & Hd).
  exists tone, difficulty. split; [exact Ht|]. split; [exact Hd|].
  intros e st' Hcall. unfold _generate_question.
  rewrite (bind_returns _ _ _ _ _ (persona_run personality st)).
  rewrite (bind_returns _ _ _ _ _
             (user_prompt_run _ _ _ _ _ _ _ tone difficulty st Ht Hd)).
  apply bind_raises. exact Hcall.
Qed.

Lemma generate_question_run `{Externals}
    (job_title company personality rag_context : string)
    (prev_answer : option string) (emotion_ctx : gmap string spec_float)
    (security_hint : option string) (st : State) :
  exists tone difficulty,
    Spec.resolve personality !! "tone" = Some tone
    /\ Spec.resolve personality !! "difficulty" = Some difficulty
    /\ forall out st',
         _llm_call system_question
                   (Spec.user_text tone difficulty job_title company rag_context
                                   prev_answer emotion_ctx security_hint) st
         = (Returns out, st') ->
         _generate_question job_title company personality rag_context
                            prev_answer emotion_ctx security_hint st
         = (Returns (if truthy out then out
                     else Spec.synthesize tone job_title rag_context prev_answer
                                          emotion_ctx security_hint), st').
Proof.
  destruct (resolve_complete personality) as (tone & difficulty & Ht & Hd).
  exists tone, difficulty. split; [exact Ht|]. split; [exact Hd|].
  intros out st' Hcall. unfold _generate_question.
  rewrite (bind_returns _ _ _ _ _ (persona_run personality st)).
  rewrite (bind_returns _ _ _ _ _
             (user_prompt_run _ _ _ _ _ _ _ tone difficulty st Ht Hd)).
  rewrite (bind_returns _ _ _ _ _ Hcall).
  destruct (truthy out); [reflexivity|].
  apply offline_question_run. exact Ht.
Qed.

(** C5: for every system text and user text, and every engine whose
    client fails only with exceptions derived from [Exception] (transport
    and authentication errors, malformed responses), the remote-call
    wrapper returns a string and never raises.  It returns the empty
    string when the engine has no remote capability (then without
    touching the state), when the call to the service raises, and when the
    response carries no text; otherwise it returns the stripped text.  The
    question path tests that string and nothing else: a non-empty one is
    the question, the empty one gives the offline question. *)
Theorem llm_call_never_raises `{Externals}
    (system user : string) (st : State)
    (job_title company personality rag_context : string)
    (prev_answer : option string) (emotion_ctx : gmap string spec_float)
    (security_hint : option string) :
  Spec.remote_raises_Exceptions (self st) ->
  (exists out st',
     _llm_call system user st = (Returns out, st')
     /\ ((mode (self st) <> "gemini" \/ client (self st) = None) ->
         out = "" /\ st' = st)
     /\ (forall c, mode (self st) = "gemini" -> client (self st) = Some c ->
         match Spec.remote_text c (sent st) (system +:+ nl +:+ nl +:+ user) with
         | Raises _ => out = ""
         | Returns t => out = strip t
         end))
  /\ (exists prompt out st' persona,
        _persona personality st = (Returns persona, st)
        /\ user_prompt job_title company persona rag_context prev_answer
                       emotion_ctx security_hint st = (Returns prompt, st)
        /\ _llm_call system_question prompt st = (Returns out, st')
        /\ (out <> "" ->
            _generate_question job_title company personality rag_context
                               prev_answer emotion_ctx security_hint st
            = (Returns out, st'))
        /\ (out = "" ->
            _generate_question job_title company personality rag_context
                               prev_answer emotion_ctx security_hint st
            = _offline_question job_title persona rag_context prev_answer
                                emotion_ctx security_hint st')).
Proof.
  intros Hexc. split.
  - rewrite llm_call_run.
    destruct (String.eqb (mode (self st)) "gemini") eqn:Hm.
    + apply String.eqb_eq in Hm.
      destruct (client (self st)) as [c|] eqn:Hc.
      * cbv zeta.
        destruct (Spec.remote_text c (sent st) (system +:+ nl +:+ nl +:+ user))
          as [t|e] eqn:Hr;
          [|rewrite (Hexc c _ _ e Hc Hr)];
          do 2 eexists; (split; [reflexivity|]); split.
        -- intros [Hne|Hnone]; congruence.
        -- intros c' _ Hc'. injection Hc' as <-. rewrite Hr. reflexivity.
        -- intros [Hne|Hnone]; congruence.
        -- intros c' _ Hc'. injection Hc' as <-. rewrite Hr. reflexivity.
      * do 2 eexists. split; [reflexivity|]. split; [auto|].
        intros c' _ Hc'. discriminate Hc'.
    + apply String.eqb_neq in Hm.
      destruct (client (self st)) as [c|] eqn:Hc;
        do 2 eexists; (split; [reflexivity|]); (split; [auto|]);
        intros c' Hm'; congruence.
  - destruct (generate_question_run job_title company personality rag_context
                prev_answer emotion_ctx security_hint st)
      as (tone & difficulty & Ht & Hd & Hrun).
    destruct (llm_call_returns system_question
                (Spec.user_text tone difficulty job_title company rag_context
                                prev_answer emotion_ctx security_hint) st Hexc)
      as (out & st' & Hcall & _).
    exists (Spec.user_text tone difficulty job_title company rag_context
                           prev_answer emotion_ctx security_hint),
           out, st', (Spec.resolve personality).
    split; [apply persona_run|].
    split; [apply user_prompt_run; assumption|].
    split; [exact Hcall|].
    rewrite (Hrun out st' Hcall). split.
    + intros Hne. apply truthy_true in Hne. rewrite Hne. reflexivity.
    + intros ->. cbn [truthy]. symmetry.
      apply offline_question_run. exact Ht.
Qed.

(** A transport failure: the wrapper returns the empty string. *)
Lemma llm_call_never_raises_witness :
  fst (_llm_call "system" "user" (Demo.state (Some Demo.failing) "gemini"))
  = Returns "".
Proof.
  assert (Hexc : Spec.remote_raises_Exceptions
                   (self (Demo.state (Some Demo.failing) "gemini"))).
  { intros c history prompt e Hc Hr. injection Hc as <-.
    injection Hr as <-. reflexivity. }
  destruct (@llm_call_never_raises Demo.externals "system" "user"
              (Demo.state (Some Demo.failing) "gemini")
              "Backend Engineer" "Acme" "Startup CTO" "" None ∅ None Hexc)
    as [(out & st' & Hrun & _ & Hout) _].
  rewrite Hrun. cbn [fst]. f_equal.
  exact (Hout Demo.failing eq_refl eq_refl).
Defined.

(** An exception of a class outside [Exception] is not caught: it leaves
    the wrapper after the prompt went out, and no record is logged. *)
Lemma llm_call_propagates (system user : string) (st : State) (c : Client)
    (e : exn) :
  mode (self st) = "gemini" ->
  client (self st) = Some c ->
  Spec.remote_text c (sent st) (system +:+ nl +:+ nl +:+ user) = Raises e ->
  is_Exception e = false ->
  _llm_call system user st
  = (Raises e, record_sent (system +:+ nl +:+ nl +:+ user) st).
Proof.
  intros Hm Hc Hr He. rewrite llm_call_run, Hm, Hc.
  change (String.eqb "gemini" "gemini") with true. cbv iota zeta.
  rewrite Hr, He. reflexivity.
Qed.

(** With a client and in gemini mode, the question path sends one prompt:
    the system text, a blank line, and the user text. *)
Lemma generate_question_sends `{Externals}
    (job_title company personality rag_context : string)
    (prev_answer : option string) (emotion_ctx : gmap string spec_float)
    (security_hint : option string) (st : State) (c : Client) :
  mode (self st) = "gemini" ->
  client (self st) = Some c ->
  exists tone difficulty,
    Spec.resolve personality !! "tone" = Some tone
    /\ Spec.resolve personality !! "difficulty" = Some difficulty
    /\ sent (snd (_generate_question job_title company personality rag_context
                     prev_answer emotion_ctx security_hint st))
       = sent st ++ [ system_question +:+ nl +:+ nl
                      +:+ Spec.user_text tone difficulty job_title company
                            rag_context prev_answer emotion_ctx security_hint ].
Proof.
  intros Hm Hc.
  destruct (generate_question_run job_title company personality rag_context
              prev_answer emotion_ctx security_hint st)
    as (tone & difficulty & Ht & Hd & Hrun).
  exists tone, difficulty. split; [exact Ht|]. split; [exact Hd|].
  pose proof (llm_call_run system_question
                (Spec.user_text tone difficulty job_title company rag_context
                                prev_answer emotion_ctx security_hint) st)
    as Hcall.
  rewrite Hm, Hc in Hcall.
  change (String.eqb "gemini" "gemini") with true in Hcall.
  cbv iota zeta in Hcall.
  destruct (Spec.remote_text c (sent st) _) as [t|e];
    [rewrite (Hrun _ _ Hcall); reflexivity|].
  destruct (is_Exception e); [rewrite (Hrun _ _ Hcall); reflexivity|].
  destruct (generate_question_propagates job_title company personality
              rag_context prev_answer emotion_ctx security_hint st)
    as (tone' & difficulty' & Ht' & Hd' & Hraise).
  rewrite Ht in Ht'. injection Ht' as <-.
  rewrite Hd in Hd'. injection Hd' as <-.
  rewrite (Hraise _ _ Hcall). reflexivity.
Qed.

(** C10: when the remote service answers with white space only, the
    wrapper strips the answer to the empty string and the question path
    returns the offline question, not the remote text; the prompt did go
    out. *)
Theorem whitespace_reply_falls_back `{Externals}
    (job_title company personality rag_context : string)
    (prev_answer : option string) (emotion_ctx : gmap string spec_float)
    (security_hint : option string) (st : State) (c : Client) :
  mode (self st) = "gemini" ->
  client (self st) = Some c ->
  (forall prompt, exists t,
     Spec.remote_text c (sent st) prompt = Returns t /\ all_space t = true) ->
  (forall system user, fst (_llm_call system user st) = Returns "")
  /\ fst (_generate_question job_title company personality rag_context
                             prev_answer emotion_ctx security_hint st)
     = fst (_offline_question job_title (Spec.resolve personality) rag_context
                              prev_answer emotion_ctx security_hint st)
  /\ (exists q,
        fst (_generate_question job_title company personality rag_context
                                prev_answer emotion_ctx security_hint st)
        = Returns q /\ q <> "")
  /\ length (sent (snd (_generate_question job_title company personality
                          rag_context prev_answer emotion_ctx security_hint st)))
     = S (length (sent st)).
Proof.
  intros Hm Hc Hws.
  assert (Hcall : forall system user,
             _llm_call system user st
             = (Returns "", record_sent (system +:+ nl +:+ nl +:+ user) st)).
  { intros system user. rewrite llm_call_run, Hm, Hc. cbv zeta.
    change (String.eqb "gemini" "gemini") with true. cbv iota.
    destruct (Hws (system +:+ nl +:+ nl +:+ user)) as (t & -> & Ht).
    rewrite (strip_all_space t Ht). reflexivity. }
  split; [intros system user; rewrite Hcall; reflexivity|].
  destruct (generate_question_run job_title company personality rag_context
              prev_answer emotion_ctx security_hint st)
    as (tone & difficulty & Ht & Hd & Hrun).
  rewrite (Hrun _ _ (Hcall _ _)). cbn [truthy fst snd].
  rewrite (offline_question_run _ _ _ _ _ _ tone st Ht). cbn [fst].
  split; [reflexivity|]. split.
  - eexists. split; [reflexivity|]. apply opening_nonempty.
  - unfold record_sent. cbn [sent]. rewrite length_app. cbn [length]. lia.
Qed.

Lemma whitespace_reply_falls_back_witness :
  fst (@_generate_question Demo.externals "Backend Engineer" "Acme"
         "Startup CTO" "" None ∅ None
         (Demo.state (Some (Demo.answering (" " +:+ nl +:+ " "))) "gemini"))
  = fst (_offline_question "Backend Engineer" (Spec.resolve "Startup CTO")
           "" None ∅ None
           (Demo.state (Some (Demo.answering (" " +:+ nl +:+ " "))) "gemini")).
Proof.
  apply (@whitespace_reply_falls_back Demo.externals "Backend Engineer" "Acme"
           "Startup CTO" "" None ∅ None
           (Demo.state (Some (Demo.answering (" " +:+ nl +:+ " "))) "gemini")
           (Demo.answering (" " +:+ nl +:+ " ")) eq_refl eq_refl).
  intros prompt. exists (" " +:+ nl +:+ " "). split; reflexivity.
Defined.

(** ** Orchestrator *)

Lemma emotion_ctx_run (session_id : string) (st : State) :
  _emotion_ctx session_id st = (Returns (Spec.signals (self st) session_id), st).
Proof.
  unfold _emotion_ctx, Spec.signals, mbind, M_bind, bind, get_self.
  rewrite truthy_dict_empty, negb_involutive.
  destruct (bool_decide (get_signals (emotion (self st)) session_id = ∅));
    reflexivity.
Qed.

(** C4: when the remote capability always returns empty text,
    [first_question("Backend Engineer", "Acme", "Unknown Persona", "")]
    returns a string that begins with
    ["As a professional interviewer for a Backend Engineer, "] and ends
    with the challenging-project opener, because the unknown persona name
    resolves to the default preset, whose tone is "professional".  Between
    the two stands the supportive remark when the seed emotion context
    rates nervousness above 0.5, and nothing otherwise. *)
Theorem first_question_unknown_persona `{Externals} (st : State) :
  (forall c h p, client (self st) = Some c -> Spec.remote_text c h p = Returns "") ->
  Spec.resolve "Unknown Persona" = Spec.resolve "Default Manager"
  /\ Spec.resolve "Unknown Persona" !! "tone" = Some "professional"
  /\ exists q,
       fst (first_question "Backend Engineer" "Acme" "Unknown Persona" "" st)
       = Returns q
       /\ startswith q "As a professional interviewer for a Backend Engineer, "
       /\ endswith q "Tell me about a challenging project you led end-to-end."
       /\ q = "As a professional interviewer for a Backend Engineer, "
              +:+ Spec.supportive (Spec.signals (self st) "seed")
              +:+ "Tell me about a challenging project you led end-to-end."
       /\ (Spec.nervous (Spec.signals (self st) "seed") = false ->
           q = "As a professional interviewer for a Backend Engineer, Tell me about a challenging project you led end-to-end.").
Proof.
  intros Hsilent.
  split; [reflexivity|]. split; [reflexivity|].
  unfold first_question.
  rewrite (bind_returns _ _ _ _ _ (emotion_ctx_run "seed" st)).
  set (emo := Spec.signals (self st) "seed").
  destruct (generate_question_run "Backend Engineer" "Acme" "Unknown Persona" ""
              None emo None st)
    as (tone & difficulty & Ht & Hd & Hrun).
  assert (tone = "professional") as -> by (vm_compute in Ht; congruence).
  assert (Hcall : exists st',
             _llm_call system_question
               (Spec.user_text "professional" difficulty "Backend Engineer"
                               "Acme" "" None emo None) st
             = (Returns "", st')).
  { rewrite llm_call_run.
    destruct (String.eqb (mode (self st)) "gemini"); [|eauto].
    destruct (client (self st)) as [c|] eqn:Hc; [|eauto].
    cbv zeta. rewrite (Hsilent c _ _ eq_refl). eauto. }
  destruct Hcall as [st' Hcall].
  rewrite (Hrun _ _ Hcall). cbn [truthy fst].
  eexists. split; [reflexivity|].
  unfold Spec.synthesize, Spec.closing_question, Spec.refocus.
  cbn [Spec.present String.eqb negb].
  repeat split.
  - eexists. unfold Spec.opening. reflexivity.
  - exists ("As a professional interviewer for a Backend Engineer, "
            +:+ Spec.supportive emo).
    unfold Spec.opening, Spec.challenging_project.
    rewrite !append_assoc. reflexivity.
  - intros Hn. unfold Spec.supportive. rewrite Hn. reflexivity.
Qed.

Lemma first_question_unknown_persona_witness :
  exists q,
    fst (@first_question Demo.externals "Backend Engineer" "Acme"
           "Unknown Persona" "" (Demo.state (Some (Demo.answering "")) "gemini"))
    = Returns q
    /\ startswith q "As a professional interviewer for a Backend Engineer, ".
Proof.
  destruct (@first_question_unknown_persona Demo.externals
              (Demo.state (Some (Demo.answering "")) "gemini"))
    as (_ & _ & q & Hq & Hstart & _).
  - intros c h p Hc. injection Hc as <-. reflexivity.
  - exists q. split; assumption.
Defined.

(** ** Scoring *)

Lemma score_run `{Externals}
    (transcript : list (list (string * string))) (job_title company : string)
    (st st' : State) (raw : string) :
  _llm_call system_score (user_score transcript job_title company) st
  = (Returns raw, st') ->
  score transcript job_title company st
  = if truthy raw then
      match json_loads raw with
      | Returns v => (Returns v, st')
      | Raises e =>
          if is_Exception e then
            (Returns baseline,
             record_log WARNING ("Score JSON parse failed: " +:+ exn_str e) st')
          else (Raises e, st')
      end
    else (Returns baseline, st').
Proof.
  intros Hcall. unfold score.
  rewrite (bind_returns _ _ _ _ _ Hcall).
  destruct (truthy raw); [|reflexivity].
  unfold mbind, M_bind, bind, try_except, lift.
  destruct (json_loads raw) as [v|e]; [reflexivity|].
  destruct (is_Exception e); reflexivity.
Qed.

(** C2: whenever the remote scoring call yields empty text, or text that
    fails to parse (the decoder raises an exception derived from
    [Exception], as [json.JSONDecodeError] is), [score] returns exactly
    the fixed baseline, for every transcript, job title and company: the
    four numeric fields are 7 and the notes are the fixed baseline
    string. *)
Theorem score_baseline `{Externals}
    (transcript : list (list (string * string))) (job_title company : string)
    (st st' : State) (raw : string) :
  _llm_call system_score (user_score transcript job_title company) st
  = (Returns raw, st') ->
  raw = "" \/ (exists e, json_loads raw = Raises e /\ is_Exception e = true) ->
  fst (score transcript job_title company st)
  = Returns (PDict [ ("Role Fit", PInt 7);
                     ("Culture Fit", PInt 7);
                     ("Honesty", PInt 7);
                     ("Communication", PInt 7);
                     ("Notes", PStr "Baseline offline scoring. Provide GEMINI_API_KEY for smarter evaluation.") ])
  /\ self (snd (score transcript job_title company st)) = self st'.
Proof.
  intros Hcall Hfail. rewrite (score_run _ _ _ _ _ _ Hcall).
  destruct Hfail as [-> | (e & He & Hexc)].
  - split; reflexivity.
  - rewrite He, Hexc. destruct (truthy raw); split; reflexivity.
Qed.

Lemma score_baseline_witness :
  fst (@score Demo.externals [[("role", "candidate"); ("text", "Hello")]]
         "Backend Engineer" "Acme"
         (Demo.state (Some (Demo.answering "")) "gemini"))
  = Returns baseline.
Proof.
  refine (proj1 (@score_baseline Demo.externals
                   [[("role", "candidate"); ("text", "Hello")]]
                   "Backend Engineer" "Acme"
                   (Demo.state (Some (Demo.answering "")) "gemini")
                   _ "" eq_refl (or_introl eq_refl))).
Defined.

(** C8: whenever the remote scoring call returns non-empty text that
    parses, [score] returns the decoded value as it is, whatever it is: no
    field is clamped, required or dropped. *)
Theorem score_as_received `{Externals}
    (transcript : list (list (string * string))) (job_title company : string)
    (st st' : State) (raw : string) (v : pyval) :
  _llm_call system_score (user_score transcript job_title company) st
  = (Returns raw, st') ->
  raw <> "" ->
  json_loads raw = Returns v ->
  score transcript job_title company st = (Returns v, st').
Proof.
  intros Hcall Hne Hv. rewrite (score_run _ _ _ _ _ _ Hcall).
  apply truthy_true in Hne. rewrite Hne, Hv. reflexivity.
Qed.

(** A score of 11 with a field missing and a field more comes back as
    decoded. *)
Lemma score_as_received_witness :
  fst (@score Demo.externals [] "Backend Engineer" "Acme"
         (Demo.state (Some (Demo.answering Demo.scored)) "gemini"))
  = Returns (PDict [("Role Fit", PInt 11); ("Extra", PStr "kept")]).
Proof.
  refine (f_equal fst
            (@score_as_received Demo.externals [] "Backend Engineer" "Acme"
               (Demo.state (Some (Demo.answering Demo.scored)) "gemini")
               _ Demo.scored _ eq_refl _ eq_refl)).
  discriminate.
Defined.

(** ** Offline mode *)

(** The engine makes no remote attempt in this state. *)
Lemma llm_call_offline (system user : string) (st : State) :
  String.eqb (mode (self st)) "gemini" = false \/ client (self st) = None ->
  _llm_call system user st = (Returns "", st).
Proof.
  intros Hoff. rewrite llm_call_run.
  destruct Hoff as [-> | ->]; [reflexivity|].
  destruct (String.eqb (mode (self st)) "gemini"); reflexivity.
Qed.

Lemma generate_question_offline `{Externals}
    (job_title company personality rag_context : string)
    (prev_answer : option string) (emotion_ctx : gmap string spec_float)
    (security_hint : option string) (st : State) :
  String.eqb (mode (self st)) "gemini" = false \/ client (self st) = None ->
  _generate_question job_title company personality rag_context prev_answer
                     emotion_ctx security_hint st
  = _offline_question job_title (Spec.resolve personality) rag_context
                      prev_answer emotion_ctx security_hint st
  /\ exists q,
       _offline_question job_title (Spec.resolve personality) rag_context
                         prev_answer emotion_ctx security_hint st
       = (Returns q, st).
Proof.
  intros Hoff.
  destruct (generate_question_run job_title company personality rag_context
              prev_answer emotion_ctx security_hint st)
    as (tone & difficulty & Ht & Hd & Hrun).
  rewrite (Hrun _ _ (llm_call_offline _ _ st Hoff)). cbn [truthy].
  rewrite (offline_question_run _ _ _ _ _ _ tone st Ht). eauto.
Qed.

Lemma first_question_run `{Externals}
    (job_title company personality rag_context : string) (st : State) :
  first_question job_title company personality rag_context st
  = _generate_question job_title company personality rag_context None
                       (Spec.signals (self st) "seed") None st.
Proof.
  unfold first_question.
  rewrite (bind_returns _ _ _ _ _ (emotion_ctx_run "seed" st)). reflexivity.
Qed.

Lemma perform_offline `{Externals} (c : call) (st : State) :
  String.eqb (mode (self st)) "gemini" = false \/ client (self st) = None ->
  perform c st = (fst (Spec.offline_only c st), st)
  /\ exists v, fst (Spec.offline_only c st) = Returns v.
Proof.
  intros Hoff. destruct c as [j co p r | j co p r a emo hint | t j co];
    unfold perform, Spec.offline_only.
  - destruct (generate_question_offline j co p r None
                (Spec.signals (self st) "seed") None st Hoff)
      as (Hgen & q & Hq).
    rewrite (bind_agree _ _ _ _ (first_question_run j co p r st)).
    rewrite (bind_agree _ _ _ _ Hgen).
    rewrite (bind_returns _ _ _ _ _ (emotion_ctx_run "seed" st)).
    rewrite !(bind_returns _ _ _ _ _ Hq). eauto.
  - unfold next_question.
    destruct (generate_question_offline j co p r (Some a) emo hint st Hoff)
      as (Hgen & q & Hq).
    rewrite (bind_agree _ _ _ _ Hgen).
    rewrite (bind_returns _ _ _ _ _ Hq). eauto.
  - rewrite (bind_returns _ _ _ _ _
               (score_run t j co st st "" (llm_call_offline _ _ st Hoff))).
    eauto.
Qed.

Lemma perform_all_offline `{Externals} (cs : list call) (st : State) :
  String.eqb (mode (self st)) "gemini" = false \/ client (self st) = None ->
  perform_all cs st = (map (fun c => fst (Spec.offline_only c st)) cs, st).
Proof.
  intros Hoff. induction cs as [|c cs IH]; [reflexivity|].
  cbn [perform_all map].
  destruct (perform_offline c st Hoff) as [-> _]. rewrite IH. reflexivity.
Qed.

(** Construction without an initialisable remote capability returns, with
    no client and in offline mode; it sends nothing. *)
Lemma init_unavailable `{Externals} (st0 : State) :
  remote_unavailable ->
  exists records,
    __init__ st0
    = (Returns tt,
       {| self := {| emotion := HumeEmotionProvider;
                     fallback_emotion := MockEmotionProvider;
                     client := None; mode := "offline" |};
          sent := sent st0;
          log := log st0 ++ records |}).
Proof.
  unfold remote_unavailable.
  cbv beta iota zeta delta
    [__init__ mbind M_bind bind set_emotion set_fallback_emotion set_client
     set_mode get_self set_self try_except logger record_log lift].
  destruct (os_getenv "GEMINI_API_KEY") as [key|];
    cbn [truthy_opt default from_option id].
  - intros Hcase. destruct (truthy key) eqn:Hkey.
    + destruct Hcase as [-> | [(e & He & Hexc) | (Hconf & e & He & Hexc)]].
      * discriminate Hkey.
      * rewrite He, Hexc. cbn. rewrite <- app_assoc. eauto.
      * rewrite Hconf, He, Hexc. cbn. rewrite <- app_assoc. eauto.
    + cbn. rewrite <- app_assoc. eauto.
  - intros _. cbn. rewrite <- app_assoc. eauto.
Qed.

(** Construction with a credential and a client that initialises gives
    the gemini mode and keeps the client. *)
Lemma init_available `{Externals} (st0 : State) (key : string) (c : Client) :
  os_getenv "GEMINI_API_KEY" = Some key ->
  key <> "" ->
  genai_configure key = Returns tt ->
  genai_GenerativeModel "gemini-1.5-flash" = Returns c ->
  fst (__init__ st0) = Returns tt
  /\ mode (self (snd (__init__ st0))) = "gemini"
  /\ client (self (snd (__init__ st0))) = Some c
  /\ sent (snd (__init__ st0)) = sent st0.
Proof.
  intros Hkey Hne Hconf Hmodel. apply truthy_true in Hne.
  cbv beta iota zeta delta
    [__init__ mbind M_bind bind set_emotion set_fallback_emotion set_client
     set_mode get_self set_self try_except logger record_log lift].
  rewrite Hkey. cbn [truthy_opt default from_option id].
  rewrite Hne, Hconf, Hmodel. cbn. repeat split.
Qed.

(** C7: if the engine is constructed without an initialisable remote
    capability, construction returns without raising, the mode is
    "offline" and there is no client; after any sequence of question and
    scoring calls the state is what it was after construction, so the mode
    is still offline and no prompt was sent; and every call returned what
    the offline path gives: the offline question, or the baseline score. *)
Theorem offline_forever `{Externals} (st0 : State) (cs : list call) :
  remote_unavailable ->
  fst (__init__ st0) = Returns tt
  /\ mode (self (snd (__init__ st0))) = "offline"
  /\ client (self (snd (__init__ st0))) = None
  /\ sent (snd (__init__ st0)) = sent st0
  /\ snd (perform_all cs (snd (__init__ st0))) = snd (__init__ st0)
  /\ fst (perform_all cs (snd (__init__ st0)))
     = map (fun c => fst (Spec.offline_only c (snd (__init__ st0)))) cs
  /\ Forall (fun c => exists v, perform c (snd (__init__ st0))
                                = (Returns v, snd (__init__ st0))) cs.
Proof.
  intros Hun. destruct (init_unavailable st0 Hun) as [records ->].
  cbn [fst snd].
  set (st1 := Build_State _ _ _).
  assert (Hoff : String.eqb (mode (self st1)) "gemini" = false
                 \/ client (self st1) = None) by (right; reflexivity).
  repeat split.
  - rewrite (perform_all_offline cs st1 Hoff). reflexivity.
  - rewrite (perform_all_offline cs st1 Hoff). reflexivity.
  - apply Forall_forall. intros c _.
    destruct (perform_offline c st1 Hoff) as [Hc [v Hv]].
    exists v. rewrite Hc, Hv. reflexivity.
Qed.

Lemma offline_forever_witness :
  fst (@perform_all Demo.externals
         [ first_question_call "Backend Engineer" "Acme" "Startup CTO" "";
           score_call [] "Backend Engineer" "Acme" ]
         (snd (@__init__ Demo.externals (Demo.state None ""))))
  = [ Returns (Question "As a direct interviewer for a Backend Engineer, Tell me about a challenging project you led end-to-end.");
      Returns (Scores baseline) ].
Proof.
  refine (eq_trans
            (proj1 (proj2 (proj2 (proj2 (proj2 (proj2
               (@offline_forever Demo.externals (Demo.state None "")
                  [ first_question_call "Backend Engineer" "Acme" "Startup CTO" "";
                    score_call [] "Backend Engineer" "Acme" ] I)))))))
            _).
  reflexivity.
Defined.

(** ** Worked examples *)

(** A transport failure is logged and gives the empty string. *)
Example remote_failure_is_logged :
  _llm_call "s" "u" (Demo.state (Some Demo.failing) "gemini")
  = (Returns "",
     {| self := Demo.engine (Some Demo.failing) "gemini";
        sent := ["s" +:+ nl +:+ nl +:+ "u"];
        log := [(ERROR, "Gemini call failed: 503")] |}).
Proof. reflexivity. Qed.

(** A remote answer comes back stripped. *)
Example remote_answer_is_returned :
  fst (@next_question Demo.externals "Backend Engineer" "Acme" "Startup CTO" ""
         "I led a migration." Demo.calm None
         (Demo.state (Some (Demo.answering "  What went wrong?  ")) "gemini"))
  = Returns "What went wrong?".
Proof. reflexivity. Qed.

(** Offline, with a hint, a tense candidate and a prior answer. *)
Example tense_candidate :
  fst (@next_question Demo.externals "Backend Engineer" "Acme" "FAANG Manager"
         "ctx" "I led a migration." Demo.tense (Some "tab_switch (high impact)")
         (Demo.state None "offline"))
  = Returns "As a structured interviewer for a Backend Engineer, I noticed a potential distraction (tab_switch (high impact)). Please stay focused. I'll keep it supportive. Can you dive deeper into your last answer and describe a concrete example with outcomes?".
Proof. reflexivity. Qed.

(** The user text with every field present. *)
Example full_user_text :
  @Spec.user_text "direct" "high" "Backend Engineer" "Acme" "Acme builds rockets."
     (Some "I led a migration.") Demo.tense (Some "tab_switch (low impact)")
     Demo.externals
  = "Job Title: Backend Engineer at Acme." +:+ nl +:+ nl
    +:+ "Personality: tone=direct, difficulty=high." +:+ nl +:+ nl
    +:+ "Company/Role Context:" +:+ nl +:+ "Acme builds rockets." +:+ nl +:+ nl
    +:+ "Candidate previous answer:" +:+ nl +:+ "I led a migration." +:+ nl +:+ nl
    +:+ "Emotion signals: {}" +:+ nl +:+ nl
    +:+ "Security hint: tab_switch (low impact)" +:+ nl +:+ nl
    +:+ "Now produce ONE next interview question, natural and specific.".
Proof. reflexivity. Qed.

(** The three buckets and their boundaries. *)
Example buckets :
  float_gt Demo.f0_8 f0_75 = true
  /\ float_gt f0_75 f0_75 = false /\ float_gt f0_75 f0_45 = true
  /\ float_gt f0_45 f0_45 = false.
Proof. repeat split. Qed.

(** * Further properties of the engine *)

(** ** Construction *)

(** Construction sets the two emotion providers, sends nothing, and ends
    in one of three ways.  It returns with a client and the mode "gemini",
    after one INFO record; or it returns with no client and the mode
    "offline", after one WARNING or ERROR record and the INFO record; or
    it raises, and then what it raises is an exception outside
    [Exception] that [genai.configure] or the model handle raised for a
    non-empty key, and no record was written. *)
Theorem init_outcome `{Externals} (st0 : State) :
  exists r st1 records,
    __init__ st0 = (r, st1)
    /\ emotion (self st1) = HumeEmotionProvider
    /\ fallback_emotion (self st1) = MockEmotionProvider
    /\ sent st1 = sent st0
    /\ log st1 = log st0 ++ records
    /\ ((r = Returns tt
         /\ (exists c, client (self st1) = Some c) /\ mode (self st1) = "gemini"
         /\ records = [(INFO, "InterviewEngine initialized in gemini mode.")])
        \/ (r = Returns tt
            /\ client (self st1) = None /\ mode (self st1) = "offline"
            /\ exists l msg,
                 (l = WARNING \/ l = ERROR)
                 /\ records
                    = [(l, msg);
                       (INFO, "InterviewEngine initialized in offline mode.")])
        \/ (exists key e,
              r = Raises e /\ is_Exception e = false /\ records = []
              /\ os_getenv "GEMINI_API_KEY" = Some key /\ key <> ""
              /\ (genai_configure key = Raises e
                  \/ genai_GenerativeModel "gemini-1.5-flash" = Raises e))).
Proof.
  cbv beta iota zeta delta
    [__init__ mbind M_bind bind set_emotion set_fallback_emotion set_client
     set_mode get_self set_self try_except logger record_log lift].
  destruct (os_getenv "GEMINI_API_KEY") as [key|] eqn:Hkey;
    cbn [truthy_opt default from_option id].
  - destruct (truthy key) eqn:Htruthy.
    + apply truthy_true in Htruthy.
      destruct (genai_configure key) as [[]|e] eqn:Hconf.
      * destruct (genai_GenerativeModel "gemini-1.5-flash") as [c|e] eqn:Hmodel.
        -- cbn. do 3 eexists. repeat (split; [reflexivity|]). left. eauto 8.
        -- destruct (is_Exception e) eqn:Hexc; cbn.
           ++ do 3 eexists. repeat (split; [reflexivity|]).
              split; [rewrite <- app_assoc; reflexivity|]. right. left. eauto 10.
           ++ do 3 eexists. repeat (split; [reflexivity|]).
              split; [symmetry; apply app_nil_r|]. right. right.
              exists key, e. repeat split; auto.
      * destruct (is_Exception e) eqn:Hexc; cbn.
        -- do 3 eexists. repeat (split; [reflexivity|]).
           split; [rewrite <- app_assoc; reflexivity|]. right. left. eauto 10.
        -- do 3 eexists. repeat (split; [reflexivity|]).
           split; [symmetry; apply app_nil_r|]. right. right.
           exists key, e. repeat split; auto.
    + cbn. do 3 eexists. repeat (split; [reflexivity|]).
      split; [rewrite <- app_assoc; reflexivity|]. right. left. eauto 10.
  - cbn. do 3 eexists. repeat (split; [reflexivity|]).
    split; [rewrite <- app_assoc; reflexivity|]. right. left. eauto 10.
Qed.

(** ** Remote call *)

Lemma llm_call_cases (system user : string) (st : State) :
  Spec.remote_raises_Exceptions (self st) ->
  exists out st',
    _llm_call system user st = (Returns out, st')
    /\ self st' = self st
    /\ ((st' = st /\ out = "")
        \/ (sent st' = sent st ++ [system +:+ nl +:+ nl +:+ user]
            /\ (log st' = log st
                \/ exists e,
                     out = ""
                     /\ log st'
                        = log st ++ [(ERROR, "Gemini call failed: " +:+ exn_str e)]))).
Proof.
  intros Hexc. rewrite llm_call_run.
  assert (Hidle : exists out st',
             (Returns "", st) = (Returns out, st')
             /\ self st' = self st
             /\ ((st' = st /\ out = "")
                 \/ (sent st' = sent st ++ [system +:+ nl +:+ nl +:+ user]
                     /\ (log st' = log st
                         \/ exists e,
                              out = ""
                              /\ log st'
                                 = log st
                                   ++ [(ERROR, "Gemini call failed: " +:+ exn_str e)])))).
  { exists "", st. split; [reflexivity|]. split; [reflexivity|]. left. split; reflexivity. }
  destruct (String.eqb (mode (self st)) "gemini"); [|exact Hidle].
  destruct (client (self st)) as [c|] eqn:Hc; [|exact Hidle].
  cbv zeta.
  destruct (Spec.remote_text c (sent st) (system +:+ nl +:+ nl +:+ user))
    as [t|e] eqn:Hr; [|rewrite (Hexc c _ _ e Hc Hr)];
    do 2 eexists; (split; [reflexivity|]); (split; [reflexivity|]);
    right; (split; [reflexivity|]).
  - left. reflexivity.
  - right. exists e. split; reflexivity.
Qed.

(** Whatever the client does, the wrapper leaves the attributes of the
    engine as they were. *)
Lemma llm_call_keeps_self (system user : string) (st : State) :
  self (snd (_llm_call system user st)) = self st.
Proof.
  rewrite llm_call_run.
  destruct (String.eqb (mode (self st)) "gemini"); [|reflexivity].
  destruct (client (self st)) as [c|]; [|reflexivity]. cbv zeta.
  destruct (Spec.remote_text c (sent st) _) as [t|e]; [reflexivity|].
  destruct (is_Exception e); reflexivity.
Qed.

(** One call of the wrapper makes at most one remote attempt and never
    changes the attributes of the engine.  Without a client, or outside
    the mode "gemini", it leaves the whole state as it was.  Otherwise it
    sends exactly the system text, a blank line and the user text, and
    then: when the text arrives it returns it stripped and writes no log
    record; when the call or the response fails with an exception derived
    from [Exception] it returns the empty string and writes one ERROR
    record carrying the text of the exception; when the failure is of a
    class outside [Exception] it raises that exception and writes no
    record. *)
Theorem llm_call_effects (system user : string) (st : State) :
  self (snd (_llm_call system user st)) = self st
  /\ ((mode (self st) <> "gemini" \/ client (self st) = None) ->
      _llm_call system user st = (Returns "", st))
  /\ (forall c,
        mode (self st) = "gemini" -> client (self st) = Some c ->
        sent (snd (_llm_call system user st))
        = sent st ++ [system +:+ nl +:+ nl +:+ user]
        /\ match Spec.remote_text c (sent st) (system +:+ nl +:+ nl +:+ user) with
           | Returns t =>
               fst (_llm_call system user st) = Returns (strip t)
               /\ log (snd (_llm_call system user st)) = log st
           | Raises e =>
               if is_Exception e then
                 fst (_llm_call system user st) = Returns ""
                 /\ log (snd (_llm_call system user st))
                    = log st ++ [(ERROR, "Gemini call failed: " +:+ exn_str e)]
               else
                 fst (_llm_call system user st) = Raises e
                 /\ log (snd (_llm_call system user st)) = log st
           end).
Proof.
  split; [apply llm_call_keeps_self|].
  rewrite llm_call_run. split.
  - intros [Hm | Hc].
    + apply String.eqb_neq in Hm. rewrite Hm. reflexivity.
    + rewrite Hc. destruct (String.eqb (mode (self st)) "gemini"); reflexivity.
  - intros c Hm Hc. rewrite Hm, Hc.
    change (String.eqb "gemini" "gemini") with true.
    cbv iota zeta.
    destruct (Spec.remote_text c (sent st) _) as [t|e];
      [split; [|split]; reflexivity|].
    destruct (is_Exception e); split; [|split| |split]; reflexivity.
Qed.

(** ** Question path *)

Lemma generate_question_total `{Externals}
    (job_title company personality rag_context : string)
    (prev_answer : option string) (emotion_ctx : gmap string spec_float)
    (security_hint : option string) (st : State) :
  Spec.remote_raises_Exceptions (self st) ->
  exists q st',
    _generate_question job_title company personality rag_context prev_answer
                       emotion_ctx security_hint st = (Returns q, st')
    /\ q <> ""
    /\ self st' = self st
    /\ (sent st' = sent st \/ exists p, sent st' = sent st ++ [p]).
Proof.
  intros Hexc.
  destruct (generate_question_run job_title company personality rag_context
              prev_answer emotion_ctx security_hint st)
    as (tone & difficulty & Ht & Hd & Hrun).
  destruct (llm_call_cases system_question
              (Spec.user_text tone difficulty job_title company rag_context
                              prev_answer emotion_ctx security_hint) st Hexc)
    as (out & st' & Hcall & Hself & Hsent).
  exists (if truthy out then out
          else Spec.synthesize tone job_title rag_context prev_answer
                               emotion_ctx security_hint), st'.
  split; [apply Hrun; exact Hcall|]. split; [|split; [exact Hself|]].
  - destruct (truthy out) eqn:Hout.
    + apply truthy_true. exact Hout.
    + apply opening_nonempty.
  - destruct Hsent as [[-> _] | [Hs _]]; [left; reflexivity | right; eauto].
Qed.

(** Whatever the client does: the question path leaves the attributes of
    the engine as they were, and a question that it returns is not
    empty. *)
Lemma generate_question_outcome `{Externals}
    (job_title company personality rag_context : string)
    (prev_answer : option string) (emotion_ctx : gmap string spec_float)
    (security_hint : option string) (st : State) :
  self (snd (_generate_question job_title company personality rag_context
               prev_answer emotion_ctx security_hint st)) = self st
  /\ forall q,
       fst (_generate_question job_title company personality rag_context
              prev_answer emotion_ctx security_hint st) = Returns q ->
       q <> "".
Proof.
  destruct (generate_question_run job_title company personality rag_context
              prev_answer emotion_ctx security_hint st)
    as (tone & difficulty & Ht & Hd & Hrun).
  destruct (generate_question_propagates job_title company personality
              rag_context prev_answer emotion_ctx security_hint st)
    as (tone' & difficulty' & Ht' & Hd' & Hraise).
  rewrite Ht in Ht'. injection Ht' as <-.
  rewrite Hd in Hd'. injection Hd' as <-.
  pose proof (llm_call_keeps_self system_question
                (Spec.user_text tone difficulty job_title company rag_context
                                prev_answer emotion_ctx security_hint) st)
    as Hself.
  destruct (_llm_call system_question
              (Spec.user_text tone difficulty job_title company rag_context
                              prev_answer emotion_ctx security_hint) st)
    as [[out|e] st'] eqn:Hcall.
  - rewrite (Hrun _ _ eq_refl). cbn [fst snd]. split; [exact Hself|].
    intros q Hq. injection Hq as <-.
    destruct (truthy out) eqn:Hout.
    + apply truthy_true. exact Hout.
    + apply opening_nonempty.
  - rewrite (Hraise _ _ eq_refl). cbn [fst snd]. split; [exact Hself|].
    intros q Hq. discriminate Hq.
Qed.

(** With a client that raises only exceptions derived from [Exception]
    (or with no client), [_generate_question] and [next_question] never
    raise and never return the empty string: for every input they return
    a non-empty question, leave the attributes of the engine as they
    were, and send at most one prompt. *)
Theorem question_always_returned `{Externals}
    (job_title company personality rag_context prev : string)
    (prev_answer : option string) (emotion_ctx : gmap string spec_float)
    (security_hint : option string) (st : State) :
  Spec.remote_raises_Exceptions (self st) ->
  (exists q st',
     _generate_question job_title company personality rag_context prev_answer
                        emotion_ctx security_hint st = (Returns q, st')
     /\ q <> "" /\ self st' = self st
     /\ (sent st' = sent st \/ exists p, sent st' = sent st ++ [p]))
  /\ (exists q st',
        next_question job_title company personality rag_context prev
                      emotion_ctx security_hint st = (Returns q, st')
        /\ q <> "" /\ self st' = self st
        /\ (sent st' = sent st \/ exists p, sent st' = sent st ++ [p])).
Proof.
  intros Hexc. split; [apply generate_question_total; exact Hexc|].
  unfold next_question. apply generate_question_total. exact Hexc.
Qed.

(** The service is down: the offline question is returned. *)
Lemma question_always_returned_witness :
  exists q st',
    @next_question Demo.externals "Backend Engineer" "Acme" "Startup CTO" ""
      "I led a migration." Demo.calm None
      (Demo.state (Some Demo.failing) "gemini")
    = (Returns q, st')
    /\ q <> "".
Proof.
  assert (Hexc : Spec.remote_raises_Exceptions
                   (self (Demo.state (Some Demo.failing) "gemini"))).
  { intros c history prompt e Hc Hr. injection Hc as <-.
    injection Hr as <-. reflexivity. }
  destruct (@question_always_returned Demo.externals "Backend Engineer" "Acme"
              "Startup CTO" "" "I led a migration." None Demo.calm None
              (Demo.state (Some Demo.failing) "gemini") Hexc)
    as [_ (q & st' & Hrun & Hq & _)].
  exists q, st'. split; assumption.
Defined.

(** [strip] leaves no white space at either end. *)
Lemma lstrip_head (s r : string) (c : ascii) :
  lstrip s = String c r -> isspace c = false.
Proof.
  induction s as [|a s IH]; simpl; [discriminate|].
  destruct (isspace a) eqn:Ha; [exact IH|].
  intros Heq. injection Heq as <- _. exact Ha.
Qed.

Lemma rstrip_head (s : string) (c : ascii) :
  isspace c = false -> exists r, rstrip (String c s) = String c r.
Proof.
  intros Hc. simpl. rewrite Hc. destruct (rstrip s); eauto.
Qed.

Lemma rstrip_last (s p : string) (c : ascii) :
  rstrip s = p +:+ String c "" -> isspace c = false.
Proof.
  revert p. induction s as [|a s IH]; intros p; simpl.
  - destruct p; discriminate.
  - destruct (rstrip s) as [|b r] eqn:Hr.
    + destruct (isspace a) eqn:Ha.
      * destruct p; discriminate.
      * destruct p as [|x p]; [|destruct p; discriminate].
        intros Heq. injection Heq as <-. exact Ha.
    + destruct p as [|x p]; [discriminate|].
      rewrite append_cons. intros Heq. injection Heq as _ Heq.
      apply (IH p). exact Heq.
Qed.

Lemma strip_ends (s : string) :
  (forall c r, strip s = String c r -> isspace c = false)
  /\ (forall p c, strip s = p +:+ String c "" -> isspace c = false).
Proof.
  unfold strip. split.
  - intros c r. destruct (lstrip s) as [|a l] eqn:Hl; [discriminate|].
    pose proof (lstrip_head _ _ _ Hl) as Ha.
    destruct (rstrip_head l a Ha) as [r' ->].
    intros Heq. injection Heq as <- _. exact Ha.
  - intros p c. apply rstrip_last.
Qed.

(** When the remote service answers with text that is not all white
    space, the question path returns that text with the white space at its
    two ends removed, and nothing of the offline question: the result
    neither begins nor ends with a white-space character. *)
Theorem remote_question_stripped `{Externals}
    (job_title company personality rag_context : string)
    (prev_answer : option string) (emotion_ctx : gmap string spec_float)
    (security_hint : option string) (st : State) (c : Client) :
  mode (self st) = "gemini" ->
  client (self st) = Some c ->
  (forall prompt, exists t,
     Spec.remote_text c (sent st) prompt = Returns t /\ strip t <> "") ->
  exists t prompt,
    Spec.remote_text c (sent st) prompt = Returns t
    /\ _generate_question job_title company personality rag_context
                          prev_answer emotion_ctx security_hint st
       = (Returns (strip t), record_sent prompt st)
    /\ (forall a r, strip t = String a r -> isspace a = false)
    /\ (forall p a, strip t = p +:+ String a "" -> isspace a = false).
Proof.
  intros Hm Hc Htext.
  destruct (generate_question_run job_title company personality rag_context
              prev_answer emotion_ctx security_hint st)
    as (tone & difficulty & Ht & Hd & Hrun).
  set (user := Spec.user_text tone difficulty job_title company rag_context
                              prev_answer emotion_ctx security_hint) in *.
  destruct (Htext (system_question +:+ nl +:+ nl +:+ user)) as (t & Hremote & Hne).
  exists t, (system_question +:+ nl +:+ nl +:+ user).
  split; [exact Hremote|].
  assert (Hcall : _llm_call system_question user st
                  = (Returns (strip t),
                     record_sent (system_question +:+ nl +:+ nl +:+ user) st)).
  { rewrite llm_call_run, Hm, Hc.
    change (String.eqb "gemini" "gemini") with true. cbv iota zeta.
    rewrite Hremote. reflexivity. }
  rewrite (Hrun _ _ Hcall).
  apply truthy_true in Hne. rewrite Hne.
  split; [reflexivity|]. apply strip_ends.
Qed.

Lemma remote_question_stripped_witness :
  fst (@_generate_question Demo.externals "Backend Engineer" "Acme"
         "Startup CTO" "" None ∅ None
         (Demo.state (Some (Demo.answering "  What went wrong?  ")) "gemini"))
  = Returns "What went wrong?".
Proof.
  destruct (@remote_question_stripped Demo.externals "Backend Engineer" "Acme"
              "Startup CTO" "" None ∅ None
              (Demo.state (Some (Demo.answering "  What went wrong?  ")) "gemini")
              (Demo.answering "  What went wrong?  ") eq_refl eq_refl)
    as (t & prompt & Hremote & Hrun & _).
  - intros prompt. exists "  What went wrong?  ". split; [reflexivity|discriminate].
  - rewrite Hrun. injection Hremote as <-. reflexivity.
Defined.

(** ** Offline question synthesizer *)

(** The offline question is laid out in a fixed order: the opening with
    tone and job title; then the remark that names the security hint, when
    a hint is given and not empty; then the supportive remark, when the
    emotion context rates "nervous" above 0.5 (a context without that key
    counts as 0); then the closing question.  When nothing triggers a
    remark the closing question follows the opening directly. *)
Theorem offline_question_layout
    (job_title : string) (persona : gmap string string) (rag_context : string)
    (prev_answer : option string) (emotion_ctx : gmap string spec_float)
    (security_hint : option string) (tone : string) (st : State) :
  persona !! "tone" = Some tone ->
  _offline_question job_title persona rag_context prev_answer emotion_ctx
                    security_hint st
  = (Returns (Spec.opening tone job_title
              +:+ Spec.refocus security_hint
              +:+ Spec.supportive emotion_ctx
              +:+ Spec.closing_question prev_answer rag_context), st)
  /\ (forall hint, security_hint = Some hint -> hint <> "" ->
      Spec.refocus security_hint
      = "I noticed a potential distraction (" +:+ hint
        +:+ "). Please stay focused. ")
  /\ (emotion_ctx !! "nervous" = None -> Spec.supportive emotion_ctx = "")
  /\ (Spec.present security_hint = false ->
      Spec.nervous emotion_ctx = false ->
      fst (_offline_question job_title persona rag_context prev_answer
                             emotion_ctx security_hint st)
      = Returns (Spec.opening tone job_title
                 +:+ Spec.closing_question prev_answer rag_context)).
Proof.
  intros Ht. rewrite (offline_question_run _ _ _ _ _ _ tone st Ht).
  split; [reflexivity|]. split; [|split].
  - intros hint -> Hne. unfold Spec.refocus, Spec.present.
    apply String.eqb_neq in Hne. rewrite Hne. reflexivity.
  - intros Hn. unfold Spec.supportive, Spec.nervous. rewrite Hn. reflexivity.
  - intros Hh Hn. unfold Spec.synthesize, Spec.refocus, Spec.supportive.
    rewrite Hh, Hn. reflexivity.
Qed.

Lemma offline_question_layout_witness :
  fst (_offline_question "Backend Engineer" Spec.default_preset "ctx"
         (Some "I led a migration.") Demo.tense (Some "tab_switch (high impact)")
         (Demo.state None "offline"))
  = Returns "As a professional interviewer for a Backend Engineer, I noticed a potential distraction (tab_switch (high impact)). Please stay focused. I'll keep it supportive. Can you dive deeper into your last answer and describe a concrete example with outcomes?".
Proof.
  rewrite (proj1 (offline_question_layout "Backend Engineer" Spec.default_preset
                    "ctx" (Some "I led a migration.") Demo.tense
                    (Some "tab_switch (high impact)") "professional"
                    (Demo.state None "offline") eq_refl)).
  reflexivity.
Defined.

(** A persona dict without the key "tone" makes the synthesizer raise
    [KeyError('tone')], whatever the other arguments, and the state stays
    as it was. *)
Theorem offline_question_missing_tone
    (job_title : string) (persona : gmap string string) (rag_context : string)
    (prev_answer : option string) (emotion_ctx : gmap string spec_float)
    (security_hint : option string) (st : State) :
  persona !! "tone" = None ->
  _offline_question job_title persona rag_context prev_answer emotion_ctx
                    security_hint st
  = (Raises (KeyError "tone"), st).
Proof.
  intros Ht. unfold _offline_question, mbind, M_bind, bind, lift, getitem.
  rewrite Ht. reflexivity.
Qed.

Lemma offline_question_missing_tone_witness :
  _offline_question "Backend Engineer" {[ "difficulty" := "high" ]} "" None ∅
                    None (Demo.state None "offline")
  = (Raises (Exn "KeyError" "'tone'"), Demo.state None "offline").
Proof.
  apply (offline_question_missing_tone "Backend Engineer"
           {[ "difficulty" := "high" ]} "" None ∅ None
           (Demo.state None "offline")).
  vm_compute. reflexivity.
Defined.

(** ** Scoring *)

(** With a client and a decoder that raise only exceptions derived from
    [Exception], [score] never raises.  It keeps the attributes of the
    engine, sends at most one prompt, and returns either the baseline or
    a value that [json.loads] decoded from a non-empty remote text; a
    text that fails to parse leaves one WARNING record carrying the text
    of the exception. *)
Theorem score_always_returned `{Externals}
    (transcript : list (list (string * string))) (job_title company : string)
    (st : State) :
  Spec.remote_raises_Exceptions (self st) ->
  Spec.json_raises_Exceptions ->
  exists v st',
    score transcript job_title company st = (Returns v, st')
    /\ self st' = self st
    /\ (sent st' = sent st \/ exists p, sent st' = sent st ++ [p])
    /\ (v = baseline
        \/ exists raw, raw <> "" /\ json_loads raw = Returns v)
    /\ (forall raw st1 e,
          _llm_call system_score (user_score transcript job_title company) st
          = (Returns raw, st1) ->
          raw <> "" -> json_loads raw = Raises e ->
          st' = record_log WARNING ("Score JSON parse failed: " +:+ exn_str e) st1).
Proof.
  intros Hexc Hjson.
  destruct (llm_call_cases system_score
              (user_score transcript job_title company) st Hexc)
    as (raw & st1 & Hcall & Hself & Hsent).
  rewrite (score_run _ _ _ _ _ _ Hcall).
  assert (Hs : sent st1 = sent st \/ exists p, sent st1 = sent st ++ [p]).
  { destruct Hsent as [[-> _] | [Hs _]]; [left; reflexivity | right; eauto]. }
  destruct (truthy raw) eqn:Hraw.
  - apply truthy_true in Hraw.
    destruct (json_loads raw) as [v|e] eqn:Hv.
    + exists v, st1. repeat split; try assumption.
      * right. exists raw. split; assumption.
      * intros raw' st1' e' Heq Hne He. rewrite Hcall in Heq.
        injection Heq as <- <-. congruence.
    + rewrite (Hjson raw e Hv).
      eexists _, _. split; [reflexivity|]. repeat split; try assumption.
      * left. reflexivity.
      * intros raw' st1' e' Heq Hne He. rewrite Hcall in Heq.
        injection Heq as <- <-. rewrite Hv in He. injection He as <-.
        reflexivity.
  - exists baseline, st1. repeat split; try assumption.
    + left. reflexivity.
    + intros raw' st1' e' Heq Hne He. rewrite Hcall in Heq.
      injection Heq as <- <-.
      apply truthy_true in Hne. congruence.
Qed.

(** The service answers with text that is no JSON: the baseline comes
    back. *)
Lemma score_always_returned_witness :
  exists st',
    @score Demo.externals [] "Backend Engineer" "Acme"
      (Demo.state (Some (Demo.answering "not json")) "gemini")
    = (Returns baseline, st').
Proof.
  assert (Hexc : Spec.remote_raises_Exceptions
                   (self (Demo.state (Some (Demo.answering "not json")) "gemini"))).
  { intros c history prompt e Hc Hr. injection Hc as <-. discriminate Hr. }
  assert (Hjson : @Spec.json_raises_Exceptions Demo.externals).
  { intros raw e Hr. cbn in Hr.
    destruct (String.eqb raw Demo.scored); [discriminate Hr|].
    injection Hr as <-. reflexivity. }
  destruct (@score_always_returned Demo.externals [] "Backend Engineer" "Acme"
              (Demo.state (Some (Demo.answering "not json")) "gemini")
              Hexc Hjson)
    as (v & st' & Hrun & _).
  exists st'. rewrite Hrun. vm_compute in Hrun. injection Hrun as <- _.
  reflexivity.
Defined.

(** ** Security hints *)

Lemma float_lt_le_trans (t x y : spec_float) :
  SFltb t x = true -> SFleb x y = true -> SFltb t y = true.
Proof.
  unfold SFltb, SFleb.
  destruct t as [st|st| |st mt et], x as [sx|sx| |sx mx ex],
    y as [sy|sy| |sy my ey];
    try (destruct st); try (destruct sx); try (destruct sy);
    try (cbv; congruence).
  all: cbn [SFcompare].
  all: destruct (Z.compare_spec et ex), (Z.compare_spec ex ey),
         (Z.compare_spec et ey);
       try lia; try congruence; subst;
       change (Pos.compare_cont Eq ?a ?b) with (Pos.compare a b);
       destruct (Pos.compare_spec mt mx), (Pos.compare_spec mx my),
         (Pos.compare_spec mt my);
       cbn; try lia; congruence.
Qed.

(** The severity follows the impact: of two events, the one with the
    impact that is not smaller is never rated lower.  If the lesser is
    rated high so is the greater, and if the greater is rated low so is
    the lesser. *)
Theorem security_hint_monotone `{Externals}
    (e1 e2 : string) (m1 m2 : gmap string pyval) :
  float_le (normalize_event e1 m1) (normalize_event e2 m2) = true ->
  (security_hint_from_event e1 m1 = e1 +:+ " (high impact)" ->
   security_hint_from_event e2 m2 = e2 +:+ " (high impact)")
  /\ (security_hint_from_event e2 m2 = e2 +:+ " (low impact)" ->
      security_hint_from_event e1 m1 = e1 +:+ " (low impact)").
Proof.
  intros Hle. unfold security_hint_from_event.
  destruct (hints_distinct e1) as (Hhm1 & Hhl1 & Hml1).
  destruct (hints_distinct e2) as (Hhm2 & Hhl2 & Hml2).
  set (x := normalize_event e1 m1) in *.
  set (y := normalize_event e2 m2) in *.
  pose proof (fun t => float_lt_le_trans t x y) as Htrans.
  unfold float_le in Hle. unfold float_gt.
  split.
  - destruct (SFltb f0_75 x) eqn:Hx75.
    + rewrite (Htrans f0_75 Hx75 Hle). reflexivity.
    + destruct (SFltb f0_45 x); congruence.
  - destruct (SFltb f0_75 y) eqn:Hy75; [congruence|].
    destruct (SFltb f0_45 y) eqn:Hy45; [congruence|].
    intros _.
    destruct (SFltb f0_75 x) eqn:Hx75.
    + rewrite (Htrans f0_75 Hx75 Hle) in Hy75. discriminate Hy75.
    + destruct (SFltb f0_45 x) eqn:Hx45; [|reflexivity].
      rewrite (Htrans f0_45 Hx45 Hle) in Hy45. discriminate Hy45.
Qed.

Lemma security_hint_monotone_witness :
  (@security_hint_from_event Demo.externals "window_blur" ∅
   = "window_blur (high impact)" ->
   @security_hint_from_event Demo.externals "suspicious_tab_switch" ∅
   = "suspicious_tab_switch (high impact)")
  /\ (@security_hint_from_event Demo.externals "suspicious_tab_switch" ∅
      = "suspicious_tab_switch (low impact)" ->
      @security_hint_from_event Demo.externals "window_blur" ∅
      = "window_blur (low impact)").
Proof.
  apply (@security_hint_monotone Demo.externals "window_blur"
           "suspicious_tab_switch" ∅ ∅).
  reflexivity.
Defined.

(** Impacts outside the expected range are classified without a check: a
    NaN, a zero, a negative number and minus infinity all give the low
    hint, and plus infinity gives the high hint. *)
Theorem security_hint_out_of_range `{Externals}
    (e : string) (m : gmap string pyval) :
  (normalize_event e m = S754_nan ->
   security_hint_from_event e m = e +:+ " (low impact)")
  /\ (forall s, normalize_event e m = S754_zero s ->
      security_hint_from_event e m = e +:+ " (low impact)")
  /\ (forall mx ex, normalize_event e m = S754_finite true mx ex ->
      security_hint_from_event e m = e +:+ " (low impact)")
  /\ (normalize_event e m = S754_infinity true ->
      security_hint_from_event e m = e +:+ " (low impact)")
  /\ (normalize_event e m = S754_infinity false ->
      security_hint_from_event e m = e +:+ " (high impact)").
Proof.
  unfold security_hint_from_event.
  repeat split; intros;
    match goal with
    | Heq : normalize_event e m = _ |- _ => rewrite Heq
    end; reflexivity.
Qed.

(** * Properties of the session store and the routes *)

(** ** The monad of routes *)

Lemma route_bind_returns {A B} (m : Route A) (f : A -> Route B)
    (app app' : App) (a : A) :
  m app = (Returns a, app') -> (m ≫= f) app = f a app'.
Proof.
  intros Hm. unfold mbind, Route_bind, route_bind. rewrite Hm. reflexivity.
Qed.

Lemma route_bind_raises {A B} (m : Route A) (f : A -> Route B)
    (app app' : App) (e : exn) :
  m app = (Raises e, app') -> (m ≫= f) app = (Raises e, app').
Proof.
  intros Hm. unfold mbind, Route_bind, route_bind. rewrite Hm. reflexivity.
Qed.

Lemma deref_eq (l : nat) (s : Session.t) (app : App) :
  objects app !! l = Some s -> deref l app = (Returns s, app).
Proof. intros Hl. unfold deref. rewrite Hl. reflexivity. Qed.

Lemma get_eq (sid : string) (l : nat) (app : App) :
  SESSION_STORE app !! sid = Some l ->
  SessionStore.get sid app = (Returns l, app).
Proof.
  intros Hl. unfold SessionStore.get, read, mbind, Route_bind, route_bind.
  rewrite Hl. reflexivity.
Qed.

Lemma get_missing (sid : string) (app : App) :
  SESSION_STORE app !! sid = None ->
  SessionStore.get sid app = (Raises (KeyError "session not found"), app).
Proof.
  intros Hl. unfold SessionStore.get, read, mbind, Route_bind, route_bind.
  rewrite Hl. reflexivity.
Qed.

Lemma update_eq (l : nat) (s : Session.t) (app : App) :
  objects app !! l = Some s ->
  SessionStore.update l app
  = (Returns tt,
     {| ENGINE := ENGINE app; objects := objects app;
        SESSION_STORE := <[Session.id s := l]> (SESSION_STORE app);
        ticks := ticks app |}).
Proof.
  intros Hl. unfold SessionStore.update.
  rewrite (route_bind_returns _ _ _ _ _ (deref_eq l s app Hl)). reflexivity.
Qed.

Lemma on_engine_eq {A} (m : M A) (app : App) (a : A) (st : State) :
  m (ENGINE app) = (Returns a, st) ->
  on_engine m app
  = (Returns a, {| ENGINE := st; objects := objects app;
                   SESSION_STORE := SESSION_STORE app; ticks := ticks app |}).
Proof. intros Hm. unfold on_engine. rewrite Hm. reflexivity. Qed.

(** One step of a route whose first computation returns, which [tac]
    shows. *)
Ltac step tac :=
  lazymatch goal with
  | |- mbind ?f ?m ?app = _ =>
      let Hm := fresh "Hm" in
      eassert (Hm : m app = (Returns _, _)) by tac;
      rewrite (route_bind_returns m f _ _ _ Hm); clear Hm;
      cbv beta; cbn [ENGINE objects SESSION_STORE ticks]
  end.

(** The object at an address after changes in place. *)
Ltac altered Hobj :=
  apply deref_eq; cbn [objects];
  rewrite ?list_lookup_alter_eq, Hobj; reflexivity.

(** ** What each route does to the process *)

Lemma next_question_run `{Externals} (req : NextQuestionRequest.t) (app : App)
    (l : nat) (s : Session.t) (q : string) (st2 : State) :
  SESSION_STORE app !! NextQuestionRequest.session_id req = Some l ->
  objects app !! l = Some s ->
  InterviewEngine.next_question
    (Session.job_title s) (Session.company s) (Session.personality s)
    (Session.rag_context s) (NextQuestionRequest.candidate_answer req)
    (Main.session_emotion_ctx s) (Main.session_security_hint s)
    (record_log INFO ("Session " +:+ Session.id s +:+ ": candidate answered -> "
                      +:+ NextQuestionRequest.candidate_answer req) (ENGINE app))
  = (Returns q, st2) ->
  Main.next_question req app
  = (Returns {| NextQuestionResponse.session_id := Session.id s;
                NextQuestionResponse.question := q;
                NextQuestionResponse.security_hint := Main.session_security_hint s;
                NextQuestionResponse.emotion_ctx := Main.session_emotion_ctx s |},
     {| ENGINE := record_log INFO ("Session " +:+ Session.id s
                                   +:+ ": next question generated") st2;
        objects :=
          alter (Session.transcript_append [("role", "interviewer"); ("text", q)]
                 ∘ Session.transcript_append
                     [("role", "candidate");
                      ("text", NextQuestionRequest.candidate_answer req)])
                l (objects app);
        SESSION_STORE := <[Session.id s := l]> (SESSION_STORE app);
        ticks := ticks app |}).
Proof.
  intros Hstore Hobj Heng. rewrite <- list_alter_alter_eq.
  unfold Main.next_question.
  step ltac:(apply get_eq; exact Hstore).
  step ltac:(reflexivity).
  step ltac:(apply deref_eq; exact Hobj).
  step ltac:(reflexivity).
  step ltac:(reflexivity).
  step ltac:(altered Hobj).
  cbv zeta.
  step ltac:(apply on_engine_eq; cbn [ENGINE]; exact Heng).
  step ltac:(reflexivity).
  step ltac:(apply update_eq; cbn [objects];
             rewrite !list_lookup_alter_eq, Hobj; reflexivity).
  step ltac:(altered Hobj).
  step ltac:(reflexivity).
  step ltac:(altered Hobj).
  reflexivity.
Qed.

Lemma post_event_run (ev : SecurityEvent.t) (app : App) (l : nat) (s : Session.t) :
  SESSION_STORE app !! SecurityEvent.session_id ev = Some l ->
  objects app !! l = Some s ->
  Main.post_event ev app
  = (Returns true,
     {| ENGINE := record_log INFO ("Session " +:+ Session.id s
                                   +:+ ": security event logged -> "
                                   +:+ SecurityEvent.event_type ev) (ENGINE app);
        objects := alter (Session.security_events_append ev) l (objects app);
        SESSION_STORE := <[Session.id s := l]> (SESSION_STORE app);
        ticks := ticks app |}).
Proof.
  intros Hstore Hobj. unfold Main.post_event.
  step ltac:(apply get_eq; exact Hstore).
  step ltac:(reflexivity).
  step ltac:(reflexivity).
  step ltac:(apply update_eq; cbn [objects];
             rewrite !list_lookup_alter_eq, Hobj; reflexivity).
  step ltac:(altered Hobj).
  step ltac:(reflexivity).
  reflexivity.
Qed.

Lemma post_emotion_run (sig : EmotionSignal.t) (app : App) (l : nat)
    (s : Session.t) :
  SESSION_STORE app !! EmotionSignal.session_id sig = Some l ->
  objects app !! l = Some s ->
  Main.post_emotion sig app
  = (Returns true,
     {| ENGINE := record_log INFO ("Session " +:+ Session.id s
                                   +:+ ": emotion signals updated") (ENGINE app);
        objects := alter (Session.set_emotion_context (EmotionSignal.signals sig))
                         l (objects app);
        SESSION_STORE := <[Session.id s := l]> (SESSION_STORE app);
        ticks := ticks app |}).
Proof.
  intros Hstore Hobj. unfold Main.post_emotion.
  step ltac:(apply get_eq; exact Hstore).
  step ltac:(reflexivity).
  step ltac:(reflexivity).
  step ltac:(apply update_eq; cbn [objects];
             rewrite !list_lookup_alter_eq, Hobj; reflexivity).
  step ltac:(altered Hobj).
  step ltac:(reflexivity).
  reflexivity.
Qed.

Lemma score_route_run `{Externals} `{Services} (req : ScoreRequest.t) (app : App)
    (l : nat) (s : Session.t) (v : pyval) (st' : State) :
  SESSION_STORE app !! ScoreRequest.session_id req = Some l ->
  objects app !! l = Some s ->
  InterviewEngine.score (Session.transcript s) (Session.job_title s)
                        (Session.company s) (ENGINE app)
  = (Returns v, st') ->
  Main.score req app
  = (match validate_scores v with
     | Returns v' => Returns {| ScoreResponse.session_id := Session.id s;
                                ScoreResponse.scores := v' |}
     | Raises e => Raises e
     end,
     {| ENGINE := record_log INFO ("Session " +:+ Session.id s
                                   +:+ ": scoring complete") st';
        objects := objects app;
        SESSION_STORE := SESSION_STORE app;
        ticks := ticks app |}).
Proof.
  intros Hstore Hobj Heng. unfold Main.score.
  step ltac:(apply get_eq; exact Hstore).
  step ltac:(reflexivity).
  step ltac:(apply deref_eq; exact Hobj).
  step ltac:(apply on_engine_eq; exact Heng).
  step ltac:(apply deref_eq; exact Hobj).
  step ltac:(reflexivity).
  step ltac:(apply deref_eq; exact Hobj).
  unfold mbind, Route_bind, route_bind, from_outcome.
  destruct (validate_scores v); reflexivity.
Qed.

Lemma create_run `{Services}
    (candidate_id job_title company personality rag_context mode : string)
    (app : App) :
  SessionStore.create candidate_id job_title company personality rag_context
                      mode app
  = (Returns (length (objects app)),
     {| ENGINE := ENGINE app;
        objects := objects app
                   ++ [ {| Session.id := uuid4 (ticks app);
                           Session.candidate_id := candidate_id;
                           Session.job_title := job_title;
                           Session.company := company;
                           Session.personality := personality;
                           Session.started_at := utcnow (S (ticks app));
                           Session.transcript := [];
                           Session.security_events := [];
                           Session.emotion_context := ∅;
                           Session.rag_context := rag_context;
                           Session.mode := mode |} ];
        SESSION_STORE := <[uuid4 (ticks app) := length (objects app)]>
                           (SESSION_STORE app);
        ticks := S (S (ticks app)) |}).
Proof. reflexivity. Qed.

Lemma on_engine_raises {A} (m : M A) (app : App) (e : exn) (st : State) :
  m (ENGINE app) = (Raises e, st) ->
  on_engine m app
  = (Raises e, {| ENGINE := st; objects := objects app;
                  SESSION_STORE := SESSION_STORE app; ticks := ticks app |}).
Proof. intros Hm. unfold on_engine. rewrite Hm. reflexivity. Qed.

Lemma on_engine_raises_at {A} (m : M A) (E : State) (O : list Session.t)
    (S : gmap string nat) (T : nat) (e : exn) (st : State) :
  m E = (Raises e, st) ->
  on_engine m {| ENGINE := E; objects := O; SESSION_STORE := S; ticks := T |}
  = (Raises e, {| ENGINE := st; objects := O; SESSION_STORE := S; ticks := T |}).
Proof. intros Hm. unfold on_engine. cbn [ENGINE]. rewrite Hm. reflexivity. Qed.

(** The run of [start_interview] once the retrieval context is there, for
    a first question that the engine returns. *)
Lemma start_interview_run `{Externals} `{Services}
    (req : StartInterviewRequest.t) (app : App) (rag_ctx q : string)
    (st2 : State) :
  Main.rag_context_of req = Returns rag_ctx ->
  InterviewEngine.first_question
    (StartInterviewRequest.job_title req) (StartInterviewRequest.company req)
    (StartInterviewRequest.personality req) rag_ctx
    (record_log INFO ("Starting interview for candidate="
                      +:+ StartInterviewRequest.candidate_id req
                      +:+ ", job_title=" +:+ StartInterviewRequest.job_title req)
                (ENGINE app))
  = (Returns q, st2) ->
  Main.start_interview req app
  = (Returns {| StartInterviewResponse.session_id := uuid4 (ticks app);
                StartInterviewResponse.first_question := q;
                StartInterviewResponse.mode := mode (self st2) |},
     {| ENGINE := record_log INFO ("Session " +:+ uuid4 (ticks app)
                                   +:+ " started with first question") st2;
        objects :=
          objects app
          ++ [ Session.transcript_append [("role", "interviewer"); ("text", q)]
                                         (created req app rag_ctx) ];
        SESSION_STORE := <[uuid4 (ticks app) := length (objects app)]>
                           (SESSION_STORE app);
        ticks := S (S (ticks app)) |}).
Proof.
  intros Hrag Heng. unfold Main.start_interview.
  step ltac:(reflexivity).
  step ltac:(unfold from_outcome; rewrite Hrag; reflexivity).
  step ltac:(reflexivity).
  step ltac:(apply create_run).
  step ltac:(apply on_engine_eq; cbn [ENGINE]; exact Heng).
  step ltac:(reflexivity).
  assert (Hnew : forall f s0,
             alter f (length (objects app)) (objects app ++ [s0])
             = objects app ++ [f s0]).
  { intros f s0.
    rewrite <- (Nat.add_0_r (length (objects app))) at 1.
    rewrite alter_app_r. reflexivity. }
  rewrite Hnew.
  assert (Hat : forall s0,
             (objects app ++ [s0]) !! length (objects app) = Some s0).
  { intros s0. apply list_lookup_middle. reflexivity. }
  step ltac:(apply update_eq; cbn [objects]; apply Hat).
  cbn [Session.transcript_append Session.id].
  rewrite insert_insert_eq.
  step ltac:(apply deref_eq; cbn [objects]; apply Hat).
  step ltac:(reflexivity).
  step ltac:(apply deref_eq; cbn [objects]; apply Hat).
  step ltac:(reflexivity).
  reflexivity.
Qed.

(** The run of [start_interview] for a first question that the engine
    raises on: the session is stored by then, with an empty transcript,
    and stays. *)
Lemma start_interview_run_raises `{Externals} `{Services}
    (req : StartInterviewRequest.t) (app : App) (rag_ctx : string) (e : exn)
    (st2 : State) :
  Main.rag_context_of req = Returns rag_ctx ->
  InterviewEngine.first_question
    (StartInterviewRequest.job_title req) (StartInterviewRequest.company req)
    (StartInterviewRequest.personality req) rag_ctx
    (record_log INFO ("Starting interview for candidate="
                      +:+ StartInterviewRequest.candidate_id req
                      +:+ ", job_title=" +:+ StartInterviewRequest.job_title req)
                (ENGINE app))
  = (Raises e, st2) ->
  Main.start_interview req app
  = (Raises e,
     {| ENGINE := st2;
        objects := objects app ++ [created req app rag_ctx];
        SESSION_STORE := <[uuid4 (ticks app) := length (objects app)]>
                           (SESSION_STORE app);
        ticks := S (S (ticks app)) |}).
Proof.
  intros Hrag Heng. unfold Main.start_interview.
  step ltac:(reflexivity).
  step ltac:(unfold from_outcome; rewrite Hrag; reflexivity).
  step ltac:(reflexivity).
  step ltac:(apply create_run).
  apply route_bind_raises.
  apply on_engine_raises_at. exact Heng.
Qed.

(** The run of [start_interview] when the retrieval raises: nothing is
    created and no id is drawn. *)
Lemma start_interview_no_context `{Externals} `{Services}
    (req : StartInterviewRequest.t) (app : App) (e : exn) :
  Main.rag_context_of req = Raises e ->
  Main.start_interview req app
  = (Raises e,
     {| ENGINE := record_log INFO ("Starting interview for candidate="
                                   +:+ StartInterviewRequest.candidate_id req
                                   +:+ ", job_title="
                                   +:+ StartInterviewRequest.job_title req)
                             (ENGINE app);
        objects := objects app;
        SESSION_STORE := SESSION_STORE app;
        ticks := ticks app |}).
Proof.
  intros Hrag. unfold Main.start_interview.
  step ltac:(reflexivity).
  apply route_bind_raises. unfold from_outcome. rewrite Hrag. reflexivity.
Qed.

(** The run of [next_question] for a stored session when the engine
    raises: the candidate's entry is in the transcript by then, and
    stays; [update] is not reached. *)
Lemma next_question_run_raises `{Externals} (req : NextQuestionRequest.t)
    (app : App) (l : nat) (s : Session.t) (e : exn) (st2 : State) :
  SESSION_STORE app !! NextQuestionRequest.session_id req = Some l ->
  objects app !! l = Some s ->
  InterviewEngine.next_question
    (Session.job_title s) (Session.company s) (Session.personality s)
    (Session.rag_context s) (NextQuestionRequest.candidate_answer req)
    (Main.session_emotion_ctx s) (Main.session_security_hint s)
    (record_log INFO ("Session " +:+ Session.id s +:+ ": candidate answered -> "
                      +:+ NextQuestionRequest.candidate_answer req) (ENGINE app))
  = (Raises e, st2) ->
  Main.next_question req app
  = (Raises e,
     {| ENGINE := st2;
        objects :=
          alter (Session.transcript_append
                   [("role", "candidate");
                    ("text", NextQuestionRequest.candidate_answer req)])
                l (objects app);
        SESSION_STORE := SESSION_STORE app;
        ticks := ticks app |}).
Proof.
  intros Hstore Hobj Heng.
  unfold Main.next_question.
  step ltac:(apply get_eq; exact Hstore).
  step ltac:(reflexivity).
  step ltac:(apply deref_eq; exact Hobj).
  step ltac:(reflexivity).
  step ltac:(reflexivity).
  step ltac:(altered Hobj).
  cbv zeta.
  apply route_bind_raises.
  apply on_engine_raises_at. exact Heng.
Qed.

(** The run of the score route for a stored session when the engine
    raises. *)
Lemma score_route_run_raises `{Externals} `{Services} (req : ScoreRequest.t)
    (app : App) (l : nat) (s : Session.t) (e : exn) (st' : State) :
  SESSION_STORE app !! ScoreRequest.session_id req = Some l ->
  objects app !! l = Some s ->
  InterviewEngine.score (Session.transcript s) (Session.job_title s)
                        (Session.company s) (ENGINE app)
  = (Raises e, st') ->
  Main.score req app
  = (Raises e,
     {| ENGINE := st'; objects := objects app;
        SESSION_STORE := SESSION_STORE app; ticks := ticks app |}).
Proof.
  intros Hstore Hobj Heng. unfold Main.score.
  step ltac:(apply get_eq; exact Hstore).
  step ltac:(reflexivity).
  step ltac:(apply deref_eq; exact Hobj).
  apply route_bind_raises.
  apply on_engine_raises; exact Heng.
Qed.

(** ** Sessions reached through the store *)

Lemma store_consistent_empty (st : State) : store_consistent (empty_app st).
Proof. intros sid l Hl. cbn in Hl. rewrite lookup_empty in Hl. discriminate Hl. Qed.

(** A change in place of a stored session that keeps its id, followed by
    [update]: the session is the changed one, every other session is as
    before, and the store stays consistent. *)
Lemma session_at_altered (app : App) (E : State) (sid : string) (l : nat)
    (s : Session.t) (f : Session.t -> Session.t) :
  store_consistent app ->
  SESSION_STORE app !! sid = Some l ->
  objects app !! l = Some s ->
  (forall x, Session.id (f x) = Session.id x) ->
  store_consistent
    {| ENGINE := E; objects := alter f l (objects app);
       SESSION_STORE := <[Session.id s := l]> (SESSION_STORE app);
       ticks := ticks app |}
  /\ forall k,
       session_at
         {| ENGINE := E; objects := alter f l (objects app);
            SESSION_STORE := <[Session.id s := l]> (SESSION_STORE app);
            ticks := ticks app |} k
       = if decide (k = sid) then Some (f s) else session_at app k.
Proof.
  intros Hcons Hstore Hobj Hid.
  destruct (Hcons sid l Hstore) as (s0 & Hs0 & Hsid).
  rewrite Hobj in Hs0. injection Hs0 as <-.
  rewrite Hsid, (insert_id _ _ _ Hstore).
  split.
  - intros k l' Hk. cbn in Hk. cbn [objects].
    destruct (Hcons k l' Hk) as (s' & Hs' & Hk').
    destruct (decide (l = l')) as [<- | Hne].
    + rewrite list_lookup_alter_eq, Hobj. cbn.
      exists (f s). split; [reflexivity|].
      rewrite Hid. rewrite Hobj in Hs'. injection Hs' as <-. exact Hk'.
    + rewrite list_lookup_alter_ne by exact Hne. eauto.
  - intros k. unfold session_at. cbn [SESSION_STORE objects].
    destruct (decide (k = sid)) as [-> | Hne].
    + rewrite Hstore, list_lookup_alter_eq, Hobj. reflexivity.
    + destruct (SESSION_STORE app !! k) as [l'|] eqn:Hk; [|reflexivity].
      destruct (Hcons k l' Hk) as (s' & Hs' & Hk').
      rewrite list_lookup_alter_ne; [reflexivity|].
      intros <-. rewrite Hobj in Hs'. injection Hs' as <-. congruence.
Qed.

(** A new object stored under its id. *)
Lemma session_at_fresh (app : App) (E : State) (s1 : Session.t) (t : nat) :
  store_consistent app ->
  store_consistent
    {| ENGINE := E; objects := objects app ++ [s1];
       SESSION_STORE := <[Session.id s1 := length (objects app)]>
                          (SESSION_STORE app);
       ticks := t |}
  /\ forall k,
       session_at
         {| ENGINE := E; objects := objects app ++ [s1];
            SESSION_STORE := <[Session.id s1 := length (objects app)]>
                               (SESSION_STORE app);
            ticks := t |} k
       = if decide (k = Session.id s1) then Some s1 else session_at app k.
Proof.
  intros Hcons.
  assert (Hat : (objects app ++ [s1]) !! length (objects app) = Some s1)
    by (apply list_lookup_middle; reflexivity).
  split.
  - intros k l' Hk. cbn in Hk. cbn [objects].
    destruct (decide (Session.id s1 = k)) as [<- | Hne].
    + rewrite lookup_insert_eq in Hk. injection Hk as <-. eauto.
    + rewrite lookup_insert_ne in Hk by exact Hne.
      destruct (Hcons k l' Hk) as (s' & Hs' & Hk').
      exists s'. split; [|exact Hk'].
      rewrite lookup_app_l; [exact Hs'|]. eapply lookup_lt_Some. exact Hs'.
  - intros k. unfold session_at. cbn [SESSION_STORE objects].
    destruct (decide (k = Session.id s1)) as [-> | Hne].
    + rewrite lookup_insert_eq. exact Hat.
    + rewrite lookup_insert_ne by congruence.
      destruct (SESSION_STORE app !! k) as [l'|] eqn:Hk; [|reflexivity].
      destruct (Hcons k l' Hk) as (s' & Hs' & Hk').
      apply lookup_app_l. eapply lookup_lt_Some. exact Hs'.
Qed.

(** The same change in place when [update] is not reached. *)
Lemma session_at_altered_in_place (app : App) (E : State) (sid : string)
    (l : nat) (s : Session.t) (f : Session.t -> Session.t) :
  store_consistent app ->
  SESSION_STORE app !! sid = Some l ->
  objects app !! l = Some s ->
  (forall x, Session.id (f x) = Session.id x) ->
  store_consistent
    {| ENGINE := E; objects := alter f l (objects app);
       SESSION_STORE := SESSION_STORE app; ticks := ticks app |}
  /\ forall k,
       session_at
         {| ENGINE := E; objects := alter f l (objects app);
            SESSION_STORE := SESSION_STORE app; ticks := ticks app |} k
       = if decide (k = sid) then Some (f s) else session_at app k.
Proof.
  intros Hcons Hstore Hobj Hid.
  pose proof (session_at_altered app E sid l s f Hcons Hstore Hobj Hid) as HH.
  destruct (Hcons sid l Hstore) as (s0 & Hs0 & Hsid).
  rewrite Hobj in Hs0. injection Hs0 as <-.
  rewrite Hsid, (insert_id _ _ _ Hstore) in HH. exact HH.
Qed.

(** ** The engine as the routes use it *)

Lemma first_question_outcome `{Externals}
    (job_title company personality rag_context : string) (st : State) :
  self (snd (first_question job_title company personality rag_context st))
  = self st
  /\ forall q,
       fst (first_question job_title company personality rag_context st)
       = Returns q ->
       q <> "".
Proof. rewrite first_question_run. apply generate_question_outcome. Qed.

Lemma next_question_outcome `{Externals}
    (job_title company personality rag_context prev : string)
    (emotion_ctx : gmap string spec_float) (security_hint : option string)
    (st : State) :
  self (snd (next_question job_title company personality rag_context prev
               emotion_ctx security_hint st)) = self st
  /\ forall q,
       fst (next_question job_title company personality rag_context prev
              emotion_ctx security_hint st) = Returns q ->
       q <> "".
Proof. unfold next_question. apply generate_question_outcome. Qed.

Lemma next_question_total `{Externals}
    (job_title company personality rag_context prev : string)
    (emotion_ctx : gmap string spec_float) (security_hint : option string)
    (st : State) :
  Spec.remote_raises_Exceptions (self st) ->
  exists q st',
    next_question job_title company personality rag_context prev emotion_ctx
                  security_hint st = (Returns q, st')
    /\ q <> "" /\ self st' = self st.
Proof.
  intros Hexc. unfold next_question.
  destruct (generate_question_total job_title company personality rag_context
              (Some prev) emotion_ctx security_hint st Hexc)
    as (q & st' & Hrun & Hq & Hself & _).
  eauto.
Qed.

Lemma score_keeps_self `{Externals}
    (transcript : list (list (string * string))) (job_title company : string)
    (st : State) :
  self (snd (score transcript job_title company st)) = self st.
Proof.
  pose proof (llm_call_keeps_self system_score
                (user_score transcript job_title company) st) as Hself.
  destruct (_llm_call system_score (user_score transcript job_title company) st)
    as [[raw|e] st1] eqn:Hcall; cbn [snd] in Hself.
  - rewrite (score_run _ _ _ _ _ _ Hcall).
    destruct (truthy raw); [|exact Hself].
    destruct (json_loads raw) as [v|e]; [exact Hself|].
    destruct (is_Exception e); exact Hself.
  - unfold score. rewrite (bind_raises _ _ _ _ _ Hcall). exact Hself.
Qed.

Lemma score_total `{Externals}
    (transcript : list (list (string * string))) (job_title company : string)
    (st : State) :
  Spec.remote_raises_Exceptions (self st) ->
  Spec.json_raises_Exceptions ->
  exists v st',
    score transcript job_title company st = (Returns v, st')
    /\ (v = baseline \/ exists raw, raw <> "" /\ json_loads raw = Returns v).
Proof.
  intros Hexc Hjson.
  destruct (llm_call_cases system_score
              (user_score transcript job_title company) st Hexc)
    as (raw & st1 & Hcall & Hself & _).
  rewrite (score_run _ _ _ _ _ _ Hcall).
  destruct (truthy raw) eqn:Hraw; [|eauto 6].
  apply truthy_true in Hraw.
  destruct (json_loads raw) as [v|e] eqn:Hv; [eauto 8|].
  rewrite (Hjson raw e Hv).
  do 2 eexists. split; [reflexivity|]. left. reflexivity.
Qed.

(** ** Unknown sessions *)

Lemma routes_missing `{Externals} `{Services} (app : App) (sid : string) :
  SESSION_STORE app !! sid = None ->
  (forall req, NextQuestionRequest.session_id req = sid ->
     Main.next_question req app = (Raises (KeyError "session not found"), app))
  /\ (forall ev, SecurityEvent.session_id ev = sid ->
        Main.post_event ev app = (Raises (KeyError "session not found"), app))
  /\ (forall sig, EmotionSignal.session_id sig = sid ->
        Main.post_emotion sig app = (Raises (KeyError "session not found"), app))
  /\ (forall req, ScoreRequest.session_id req = sid ->
        Main.score req app = (Raises (KeyError "session not found"), app)).
Proof.
  intros Hnone.
  repeat split; intros r Hr;
    [unfold Main.next_question | unfold Main.post_event
     | unfold Main.post_emotion | unfold Main.score];
    apply route_bind_raises; apply get_missing; rewrite Hr; exact Hnone.
Qed.

(** For a session id that the store does not hold, the four routes that
    take one raise [KeyError('session not found')], which comes from
    [SessionStore.get]; they change nothing, write no log record, and do
    not reach the test that would raise the HTTP error with status 404. *)
Theorem routes_unknown_session `{Externals} `{Services} (app : App) (sid : string) :
  SESSION_STORE app !! sid = None ->
  (forall req, NextQuestionRequest.session_id req = sid ->
     Main.next_question req app = (Raises (KeyError "session not found"), app))
  /\ (forall ev, SecurityEvent.session_id ev = sid ->
        Main.post_event ev app = (Raises (KeyError "session not found"), app))
  /\ (forall sig, EmotionSignal.session_id sig = sid ->
        Main.post_emotion sig app = (Raises (KeyError "session not found"), app))
  /\ (forall req, ScoreRequest.session_id req = sid ->
        Main.score req app = (Raises (KeyError "session not found"), app))
  /\ KeyError "session not found" <> Main.HTTPException_404 "Session not found".
Proof.
  intros Hnone.
  destruct (routes_missing app sid Hnone) as (Hn & He & Hs & Hc).
  repeat split; try assumption. discriminate.
Qed.

Lemma routes_unknown_session_witness :
  @Main.next_question Demo.externals
    {| NextQuestionRequest.session_id := "no-such-session";
       NextQuestionRequest.candidate_answer := "I led a migration." |}
    DemoApp.started
  = (Raises (Exn "KeyError" "'session not found'"), DemoApp.started).
Proof.
  apply (@routes_unknown_session Demo.externals DemoApp.services
           DemoApp.started "no-such-session"); reflexivity.
Defined.

(** ** Session store *)

(** [create] followed by [get] of the new id gives back the object just
    created, whose transcript and events are empty and whose emotion
    context is empty; ids other than the new one lead where they led
    before, and the engine is not touched.  The id and the start time are
    the next two draws. *)
Theorem create_then_get `{Services}
    (candidate_id job_title company personality rag_context mode : string)
    (app : App) :
  exists sess app',
    SessionStore.create candidate_id job_title company personality rag_context
                        mode app = (Returns sess, app')
    /\ SessionStore.get (uuid4 (ticks app)) app' = (Returns sess, app')
    /\ session_at app' (uuid4 (ticks app))
       = Some {| Session.id := uuid4 (ticks app);
                 Session.candidate_id := candidate_id;
                 Session.job_title := job_title;
                 Session.company := company;
                 Session.personality := personality;
                 Session.started_at := utcnow (S (ticks app));
                 Session.transcript := [];
                 Session.security_events := [];
                 Session.emotion_context := ∅;
                 Session.rag_context := rag_context;
                 Session.mode := mode |}
    /\ (forall k, k <> uuid4 (ticks app) ->
        SESSION_STORE app' !! k = SESSION_STORE app !! k)
    /\ (forall l s, objects app !! l = Some s -> objects app' !! l = Some s)
    /\ ENGINE app' = ENGINE app.
Proof.
  do 2 eexists. split; [apply create_run|].
  split; [apply get_eq; cbn; apply lookup_insert_eq|].
  split; [|split; [|split]].
  - unfold session_at. cbn. rewrite lookup_insert_eq.
    apply list_lookup_middle. reflexivity.
  - intros k Hk. cbn. apply lookup_insert_ne. congruence.
  - intros l s Hl. cbn. rewrite lookup_app_l; [exact Hl|].
    eapply lookup_lt_Some. exact Hl.
  - reflexivity.
Qed.

(** [update] files an object under the id it carries: [get] of that id
    then gives the object, other ids lead where they led before, and no
    object changes.  For an object that the store already holds under its
    id, as after a change in place, [update] changes nothing at all. *)
Theorem update_then_get (session : nat) (s : Session.t) (app : App) :
  objects app !! session = Some s ->
  exists app',
    SessionStore.update session app = (Returns tt, app')
    /\ SessionStore.get (Session.id s) app' = (Returns session, app')
    /\ session_at app' (Session.id s) = Some s
    /\ (forall k, k <> Session.id s ->
        SESSION_STORE app' !! k = SESSION_STORE app !! k)
    /\ objects app' = objects app
    /\ (SESSION_STORE app !! Session.id s = Some session -> app' = app).
Proof.
  intros Hobj. eexists. split; [apply update_eq; exact Hobj|].
  split; [apply get_eq; cbn; apply lookup_insert_eq|].
  split; [|split; [|split]].
  - unfold session_at. cbn. rewrite lookup_insert_eq. exact Hobj.
  - intros k Hk. cbn. apply lookup_insert_ne. congruence.
  - reflexivity.
  - intros Hstore. rewrite (insert_id _ _ _ Hstore). destruct app; reflexivity.
Qed.

Lemma update_then_get_witness :
  exists app',
    SessionStore.update 0 DemoApp.started = (Returns tt, app')
    /\ app' = DemoApp.started.
Proof.
  assert (Hobj : objects DemoApp.started !! 0%nat = Some DemoApp.first_session)
    by reflexivity.
  destruct (update_then_get 0 DemoApp.first_session DemoApp.started Hobj)
    as (app' & Hrun & _ & _ & _ & _ & Hsame).
  exists app'. split; [exact Hrun|]. apply Hsame. reflexivity.
Defined.

(** ** Starting an interview *)

(** The first question is non-empty when the engine returns one, and the
    engine keeps its attributes whether it returns or raises. *)
Lemma start_interview_returned `{Externals} `{Services}
    (req : StartInterviewRequest.t) (app : App)
    (resp : StartInterviewResponse.t) (app' : App) :
  Main.start_interview req app = (Returns resp, app') ->
  exists rag_ctx q st2,
    Main.rag_context_of req = Returns rag_ctx
    /\ q <> ""
    /\ self st2 = self (ENGINE app)
    /\ resp = {| StartInterviewResponse.session_id := uuid4 (ticks app);
                 StartInterviewResponse.first_question := q;
                 StartInterviewResponse.mode := mode (self st2) |}
    /\ app' = {| ENGINE := record_log INFO ("Session " +:+ uuid4 (ticks app)
                                            +:+ " started with first question")
                                      st2;
                 objects :=
                   objects app
                   ++ [ Session.transcript_append
                          [("role", "interviewer"); ("text", q)]
                          (created req app rag_ctx) ];
                 SESSION_STORE := <[uuid4 (ticks app) := length (objects app)]>
                                    (SESSION_STORE app);
                 ticks := S (S (ticks app)) |}.
Proof.
  intros Hrun.
  destruct (Main.rag_context_of req) as [rag_ctx|e] eqn:Hrag.
  2: { rewrite (start_interview_no_context req app e Hrag) in Hrun.
       discriminate Hrun. }
  pose proof (first_question_outcome
                (StartInterviewRequest.job_title req)
                (StartInterviewRequest.company req)
                (StartInterviewRequest.personality req) rag_ctx
                (record_log INFO ("Starting interview for candidate="
                                  +:+ StartInterviewRequest.candidate_id req
                                  +:+ ", job_title="
                                  +:+ StartInterviewRequest.job_title req)
                            (ENGINE app))) as [Hself Hq].
  destruct (first_question _ _ _ rag_ctx _) as [[q|e] st2] eqn:Heng.
  - rewrite (start_interview_run req app rag_ctx q st2 Hrag Heng) in Hrun.
    injection Hrun as <- <-.
    exists rag_ctx, q, st2. split; [reflexivity|].
    split; [apply Hq; reflexivity|]. split; [exact Hself|].
    split; reflexivity.
  - rewrite (start_interview_run_raises req app rag_ctx e st2 Hrag Heng) in Hrun.
    discriminate Hrun.
Qed.

(** Whenever [start_interview] returns, it has drawn the session id and
    the start time and stored under that id a session with the fields of
    the request, the retrieved context (empty when the request has no
    query or an empty one, and what [retrieve] returned otherwise), the
    mode of the engine, no event, no emotion context and a transcript of
    one entry, the interviewer's first question; the reply carries that
    id, that question, which is not empty, and the same mode.  The
    attributes of the engine are as before. *)
Theorem start_interview_creates `{Externals} `{Services}
    (req : StartInterviewRequest.t) (app : App)
    (resp : StartInterviewResponse.t) (app' : App) :
  Main.start_interview req app = (Returns resp, app') ->
  StartInterviewResponse.session_id resp = uuid4 (ticks app)
  /\ StartInterviewResponse.first_question resp <> ""
  /\ StartInterviewResponse.mode resp = mode (self (ENGINE app))
  /\ (exists rag_ctx,
        match StartInterviewRequest.rag_query req with
        | Some query => if String.eqb query "" then rag_ctx = ""
                        else retrieve query = Returns rag_ctx
        | None => rag_ctx = ""
        end
        /\ session_at app' (uuid4 (ticks app))
           = Some {| Session.id := uuid4 (ticks app);
                     Session.candidate_id := StartInterviewRequest.candidate_id req;
                     Session.job_title := StartInterviewRequest.job_title req;
                     Session.company := StartInterviewRequest.company req;
                     Session.personality := StartInterviewRequest.personality req;
                     Session.started_at := utcnow (S (ticks app));
                     Session.transcript :=
                       [[("role", "interviewer");
                         ("text", StartInterviewResponse.first_question resp)]];
                     Session.security_events := [];
                     Session.emotion_context := ∅;
                     Session.rag_context := rag_ctx;
                     Session.mode := mode (self (ENGINE app)) |})
  /\ ticks app' = S (S (ticks app))
  /\ self (ENGINE app') = self (ENGINE app).
Proof.
  intros Hrun.
  destruct (start_interview_returned req app resp app' Hrun)
    as (rag_ctx & q & st2 & Hrag & Hq & Hself & -> & ->).
  cbn [StartInterviewResponse.session_id StartInterviewResponse.first_question
       StartInterviewResponse.mode ticks ENGINE].
  split; [reflexivity|]. split; [exact Hq|].
  split; [rewrite Hself; reflexivity|].
  split; [|split; [reflexivity | exact Hself]].
  exists rag_ctx. split.
  - unfold Main.rag_context_of in Hrag.
    destruct (StartInterviewRequest.rag_query req) as [query|]; cbn in Hrag.
    + rewrite truthy_eqb in Hrag. destruct (String.eqb query "").
      * cbn in Hrag. injection Hrag as <-. reflexivity.
      * exact Hrag.
    + injection Hrag as <-. reflexivity.
  - unfold session_at. cbn [SESSION_STORE objects].
    rewrite lookup_insert_eq.
    apply list_lookup_middle. reflexivity.
Qed.

Lemma start_interview_creates_witness :
  session_at DemoApp.started "s-0" <> None
  /\ ticks DemoApp.started = 2%nat.
Proof.
  assert (Hrun : @Main.start_interview Demo.externals DemoApp.services
                   DemoApp.start DemoApp.fresh
                 = (Returns
                      {| StartInterviewResponse.session_id := "s-0";
                         StartInterviewResponse.first_question :=
                           "As a direct interviewer for a Backend Engineer, What experience do you have that directly matches this role? Refer to relevant projects.";
                         StartInterviewResponse.mode := "offline" |},
                    DemoApp.started))
    by (vm_compute; reflexivity).
  destruct (@start_interview_creates Demo.externals DemoApp.services
              DemoApp.start DemoApp.fresh _ _ Hrun)
    as (_ & _ & _ & (rag_ctx & _ & Hat) & Hticks & _).
  split; [|exact Hticks].
  change (uuid4 (ticks DemoApp.fresh)) with "s-0" in Hat.
  rewrite Hat. discriminate.
Defined.

(** When the engine raises on the first question, as it does for what the
    remote call raises outside [Exception], [start_interview] raises the
    same; by then the session is created and stored under the id drawn,
    and it stays there with an empty transcript. *)
Theorem start_interview_interrupted `{Externals} `{Services}
    (req : StartInterviewRequest.t) (app : App) (rag_ctx : string) (e : exn)
    (st2 : State) :
  Main.rag_context_of req = Returns rag_ctx ->
  InterviewEngine.first_question
    (StartInterviewRequest.job_title req) (StartInterviewRequest.company req)
    (StartInterviewRequest.personality req) rag_ctx
    (record_log INFO ("Starting interview for candidate="
                      +:+ StartInterviewRequest.candidate_id req
                      +:+ ", job_title=" +:+ StartInterviewRequest.job_title req)
                (ENGINE app))
  = (Raises e, st2) ->
  fst (Main.start_interview req app) = Raises e
  /\ session_at (snd (Main.start_interview req app)) (uuid4 (ticks app))
     = Some (created req app rag_ctx)
  /\ Session.transcript (created req app rag_ctx) = []
  /\ ticks (snd (Main.start_interview req app)) = S (S (ticks app)).
Proof.
  intros Hrag Heng.
  rewrite (start_interview_run_raises req app rag_ctx e st2 Hrag Heng).
  cbn [fst snd ticks].
  split; [reflexivity|]. split; [|split; reflexivity].
  unfold session_at. cbn [SESSION_STORE objects].
  rewrite lookup_insert_eq.
  apply list_lookup_middle. reflexivity.
Qed.

Lemma start_interview_interrupted_witness :
  fst (@Main.start_interview Demo.externals DemoApp.services DemoApp.start
         (empty_app (Demo.state (Some Demo.interrupted) "gemini")))
  = Raises (Exn "KeyboardInterrupt" "")
  /\ option_map Session.transcript
       (session_at
          (snd (@Main.start_interview Demo.externals DemoApp.services
                  DemoApp.start
                  (empty_app (Demo.state (Some Demo.interrupted) "gemini"))))
          "s-0")
     = Some [].
Proof.
  set (app := empty_app (Demo.state (Some Demo.interrupted) "gemini")).
  assert (Hrag : @Main.rag_context_of DemoApp.services DemoApp.start
                 = Returns "About rockets") by reflexivity.
  pose (r := @InterviewEngine.first_question Demo.externals
               "Backend Engineer" "Acme" "Startup CTO" "About rockets"
               (record_log INFO
                  "Starting interview for candidate=c1, job_title=Backend Engineer"
                  (ENGINE app))).
  assert (Heng : r = (Raises (Exn "KeyboardInterrupt" ""), snd r))
    by (vm_compute; reflexivity).
  destruct (@start_interview_interrupted Demo.externals DemoApp.services
              DemoApp.start app "About rockets" _ _ Hrag Heng)
    as (Hfst & Hat & _).
  split; [exact Hfst|].
  change (uuid4 (ticks app)) with "s-0" in Hat.
  rewrite Hat. reflexivity.
Defined.

(** ** The next question *)

(** What the route does for a stored session, with the question that the
    engine gives when the remote call raises only what derives from
    [Exception]. *)
Lemma next_question_known `{Externals} (req : NextQuestionRequest.t) (app : App)
    (l : nat) (s : Session.t) :
  SESSION_STORE app !! NextQuestionRequest.session_id req = Some l ->
  objects app !! l = Some s ->
  Spec.remote_raises_Exceptions (self (ENGINE app)) ->
  exists q st2,
    q <> ""
    /\ self st2 = self (ENGINE app)
    /\ InterviewEngine.next_question
         (Session.job_title s) (Session.company s) (Session.personality s)
         (Session.rag_context s) (NextQuestionRequest.candidate_answer req)
         (Main.session_emotion_ctx s) (Main.session_security_hint s)
         (record_log INFO ("Session " +:+ Session.id s
                           +:+ ": candidate answered -> "
                           +:+ NextQuestionRequest.candidate_answer req)
                     (ENGINE app))
       = (Returns q, st2)
    /\ Main.next_question req app
       = (Returns {| NextQuestionResponse.session_id := Session.id s;
                     NextQuestionResponse.question := q;
                     NextQuestionResponse.security_hint :=
                       Main.session_security_hint s;
                     NextQuestionResponse.emotion_ctx :=
                       Main.session_emotion_ctx s |},
          {| ENGINE := record_log INFO ("Session " +:+ Session.id s
                                        +:+ ": next question generated") st2;
             objects :=
               alter (Session.transcript_append
                        [("role", "interviewer"); ("text", q)]
                      ∘ Session.transcript_append
                          [("role", "candidate");
                           ("text", NextQuestionRequest.candidate_answer req)])
                     l (objects app);
             SESSION_STORE := <[Session.id s := l]> (SESSION_STORE app);
             ticks := ticks app |}).
Proof.
  intros Hstore Hobj Hexc.
  destruct (next_question_total
              (Session.job_title s) (Session.company s) (Session.personality s)
              (Session.rag_context s) (NextQuestionRequest.candidate_answer req)
              (Main.session_emotion_ctx s) (Main.session_security_hint s)
              (record_log INFO ("Session " +:+ Session.id s
                                +:+ ": candidate answered -> "
                                +:+ NextQuestionRequest.candidate_answer req)
                          (ENGINE app)) Hexc)
    as (q & st2 & Heng & Hq & Hself).
  exists q, st2. split; [exact Hq|]. split; [exact Hself|].
  split; [exact Heng|].
  apply next_question_run; assumption.
Qed.

(** A reply of the route for a stored session is made of a question that
    the engine returned. *)
Lemma next_question_returned `{Externals} (req : NextQuestionRequest.t)
    (app : App) (l : nat) (s : Session.t) (resp : NextQuestionResponse.t)
    (app' : App) :
  SESSION_STORE app !! NextQuestionRequest.session_id req = Some l ->
  objects app !! l = Some s ->
  Main.next_question req app = (Returns resp, app') ->
  exists q st2,
    q <> ""
    /\ self st2 = self (ENGINE app)
    /\ resp = {| NextQuestionResponse.session_id := Session.id s;
                 NextQuestionResponse.question := q;
                 NextQuestionResponse.security_hint :=
                   Main.session_security_hint s;
                 NextQuestionResponse.emotion_ctx :=
                   Main.session_emotion_ctx s |}
    /\ app' = {| ENGINE := record_log INFO ("Session " +:+ Session.id s
                                            +:+ ": next question generated") st2;
                 objects :=
                   alter (Session.transcript_append
                            [("role", "interviewer"); ("text", q)]
                          ∘ Session.transcript_append
                              [("role", "candidate");
                               ("text", NextQuestionRequest.candidate_answer req)])
                         l (objects app);
                 SESSION_STORE := <[Session.id s := l]> (SESSION_STORE app);
                 ticks := ticks app |}.
Proof.
  intros Hstore Hobj Hrun.
  pose proof (next_question_outcome
                (Session.job_title s) (Session.company s) (Session.personality s)
                (Session.rag_context s) (NextQuestionRequest.candidate_answer req)
                (Main.session_emotion_ctx s) (Main.session_security_hint s)
                (record_log INFO ("Session " +:+ Session.id s
                                  +:+ ": candidate answered -> "
                                  +:+ NextQuestionRequest.candidate_answer req)
                            (ENGINE app))) as [Hself Hq].
  destruct (next_question _ _ _ _ _ _ _ _) as [[q|e] st2] eqn:Heng.
  - rewrite (next_question_run req app l s q st2 Hstore Hobj Heng) in Hrun.
    injection Hrun as <- <-.
    exists q, st2. split; [apply Hq; reflexivity|].
    split; [exact Hself|]. split; reflexivity.
  - rewrite (next_question_run_raises req app l s e st2 Hstore Hobj Heng) in Hrun.
    discriminate Hrun.
Qed.

(** Whenever the route of the next question returns for a stored session,
    it has appended two entries to the transcript, the candidate's answer
    and then the interviewer's new question, which is the question of the
    reply and is not empty; it has changed nothing else in the session,
    drawn no id and left the attributes of the engine as they were. *)
Theorem next_question_appends `{Externals} (req : NextQuestionRequest.t)
    (app : App) (l : nat) (s : Session.t) (resp : NextQuestionResponse.t)
    (app' : App) :
  SESSION_STORE app !! NextQuestionRequest.session_id req = Some l ->
  objects app !! l = Some s ->
  Session.id s = NextQuestionRequest.session_id req ->
  Main.next_question req app = (Returns resp, app') ->
  NextQuestionResponse.session_id resp = NextQuestionRequest.session_id req
  /\ NextQuestionResponse.question resp <> ""
  /\ (exists s',
        session_at app' (NextQuestionRequest.session_id req) = Some s'
        /\ Session.transcript s'
           = Session.transcript s
             ++ [ [("role", "candidate");
                   ("text", NextQuestionRequest.candidate_answer req)];
                  [("role", "interviewer");
                   ("text", NextQuestionResponse.question resp)] ]
        /\ s' = Session.transcript_append
                  [("role", "interviewer");
                   ("text", NextQuestionResponse.question resp)]
                  (Session.transcript_append
                     [("role", "candidate");
                      ("text", NextQuestionRequest.candidate_answer req)] s))
  /\ ticks app' = ticks app
  /\ self (ENGINE app') = self (ENGINE app).
Proof.
  intros Hstore Hobj Hid Hrun.
  destruct (next_question_returned req app l s resp app' Hstore Hobj Hrun)
    as (q & st2 & Hq & Hself & -> & ->).
  cbn [NextQuestionResponse.session_id NextQuestionResponse.question
       ticks ENGINE].
  split; [exact Hid|]. split; [exact Hq|].
  split; [|split; [reflexivity | exact Hself]].
  exists (Session.transcript_append
            [("role", "interviewer"); ("text", q)]
            (Session.transcript_append
               [("role", "candidate");
                ("text", NextQuestionRequest.candidate_answer req)] s)).
  split; [|split; [|reflexivity]].
  - unfold session_at. cbn [SESSION_STORE objects].
    rewrite Hid, lookup_insert_eq, list_lookup_alter_eq, Hobj. reflexivity.
  - cbn. rewrite <- app_assoc. reflexivity.
Qed.

Lemma next_question_appends_witness :
  option_map (fun s' => length (Session.transcript s'))
    (session_at
       (snd (@Main.next_question Demo.externals DemoApp.answer DemoApp.started))
       "s-0")
  = Some 3%nat.
Proof.
  assert (Hobj : objects DemoApp.started !! 0%nat = Some DemoApp.first_session)
    by reflexivity.
  pose (r := @Main.next_question Demo.externals DemoApp.answer DemoApp.started).
  assert (Hrun : r = (Returns
                        {| NextQuestionResponse.session_id := "s-0";
                           NextQuestionResponse.question :=
                             "As a direct interviewer for a Backend Engineer, Can you dive deeper into your last answer and describe a concrete example with outcomes?";
                           NextQuestionResponse.security_hint := None;
                           NextQuestionResponse.emotion_ctx :=
                             Main.default_emotion_ctx |},
                      snd r))
    by (vm_compute; reflexivity).
  destruct (@next_question_appends Demo.externals DemoApp.answer
              DemoApp.started 0 DemoApp.first_session _ _ eq_refl Hobj eq_refl
              Hrun)
    as (_ & _ & (s' & Hat & Ht & _) & _).
  change (NextQuestionRequest.session_id DemoApp.answer) with "s-0" in Hat.
  fold r. rewrite Hat. cbn [option_map]. rewrite Ht. reflexivity.
Defined.

(** When the engine raises on the next question, as it does for what the
    remote call raises outside [Exception], the route raises the same; by
    then the candidate's answer is appended to the transcript of the
    session, and it stays there with no question after it.  The entries of
    the store are as before. *)
Theorem next_question_interrupted `{Externals} (req : NextQuestionRequest.t)
    (app : App) (l : nat) (s : Session.t) (e : exn) (st2 : State) :
  SESSION_STORE app !! NextQuestionRequest.session_id req = Some l ->
  objects app !! l = Some s ->
  InterviewEngine.next_question
    (Session.job_title s) (Session.company s) (Session.personality s)
    (Session.rag_context s) (NextQuestionRequest.candidate_answer req)
    (Main.session_emotion_ctx s) (Main.session_security_hint s)
    (record_log INFO ("Session " +:+ Session.id s +:+ ": candidate answered -> "
                      +:+ NextQuestionRequest.candidate_answer req) (ENGINE app))
  = (Raises e, st2) ->
  fst (Main.next_question req app) = Raises e
  /\ session_at (snd (Main.next_question req app))
                (NextQuestionRequest.session_id req)
     = Some (Session.transcript_append
               [("role", "candidate");
                ("text", NextQuestionRequest.candidate_answer req)] s)
  /\ SESSION_STORE (snd (Main.next_question req app)) = SESSION_STORE app
  /\ ticks (snd (Main.next_question req app)) = ticks app.
Proof.
  intros Hstore Hobj Heng.
  rewrite (next_question_run_raises req app l s e st2 Hstore Hobj Heng).
  cbn [fst snd SESSION_STORE ticks].
  split; [reflexivity|]. split; [|split; reflexivity].
  unfold session_at. cbn [SESSION_STORE objects].
  rewrite Hstore, list_lookup_alter_eq, Hobj. reflexivity.
Qed.

Lemma next_question_interrupted_witness :
  fst (@Main.next_question Demo.externals DemoApp.answer DemoApp.interrupted)
  = Raises (Exn "KeyboardInterrupt" "")
  /\ option_map (fun s' => last (Session.transcript s'))
       (session_at
          (snd (@Main.next_question Demo.externals DemoApp.answer
                  DemoApp.interrupted)) "s-0")
     = Some (Some [("role", "candidate"); ("text", "I led a migration.")]).
Proof.
  assert (Hobj : objects DemoApp.interrupted !! 0%nat
                 = Some DemoApp.first_session)
    by reflexivity.
  pose (r := @InterviewEngine.next_question Demo.externals
               "Backend Engineer" "Acme" "Startup CTO" "About rockets"
               "I led a migration."
               (Main.session_emotion_ctx DemoApp.first_session)
               (@Main.session_security_hint Demo.externals
                  DemoApp.first_session)
               (record_log INFO
                  "Session s-0: candidate answered -> I led a migration."
                  (ENGINE DemoApp.interrupted))).
  assert (Heng : r = (Raises (Exn "KeyboardInterrupt" ""), snd r))
    by (vm_compute; reflexivity).
  destruct (@next_question_interrupted Demo.externals DemoApp.answer
              DemoApp.interrupted 0 DemoApp.first_session _ _ eq_refl Hobj Heng)
    as (Hfst & Hat & _).
  split; [exact Hfst|].
  change (NextQuestionRequest.session_id DemoApp.answer) with "s-0" in Hat.
  rewrite Hat. reflexivity.
Defined.

(** The hint of a reply comes from the last event posted to the session
    and from no other: with no event there is no hint, and otherwise the
    hint is the classification of the last event.  Answering does not
    consume the event: the session holds the same events afterwards, so
    the next reply carries the same hint.  The reply is there whenever
    the remote call raises only what derives from [Exception]. *)
Theorem hint_from_last_event `{Externals} (req : NextQuestionRequest.t)
    (app : App) (l : nat) (s : Session.t) :
  SESSION_STORE app !! NextQuestionRequest.session_id req = Some l ->
  objects app !! l = Some s ->
  Session.id s = NextQuestionRequest.session_id req ->
  Spec.remote_raises_Exceptions (self (ENGINE app)) ->
  exists resp app' s',
    Main.next_question req app = (Returns resp, app')
    /\ session_at app' (NextQuestionRequest.session_id req) = Some s'
    /\ Session.security_events s' = Session.security_events s
    /\ Main.session_security_hint s' = NextQuestionResponse.security_hint resp
    /\ (Session.security_events s = [] ->
        NextQuestionResponse.security_hint resp = None)
    /\ (forall evs last,
          Session.security_events s = evs ++ [last] ->
          NextQuestionResponse.security_hint resp
          = Some (security_hint_from_event (SecurityEvent.event_type last)
                                           (SecurityEvent.metadata last))).
Proof.
  intros Hstore Hobj Hid Hexc.
  destruct (next_question_known req app l s Hstore Hobj Hexc)
    as (q & st2 & Hq & Hself & _ & Hrun).
  do 2 eexists.
  exists (Session.transcript_append
            [("role", "interviewer"); ("text", q)]
            (Session.transcript_append
               [("role", "candidate");
                ("text", NextQuestionRequest.candidate_answer req)] s)).
  split; [exact Hrun|].
  cbn [NextQuestionResponse.security_hint].
  split; [|split; [reflexivity | split; [reflexivity | split]]].
  - unfold session_at. cbn [SESSION_STORE objects].
    rewrite Hid, lookup_insert_eq, list_lookup_alter_eq, Hobj. reflexivity.
  - intros Hnil. unfold Main.session_security_hint. rewrite Hnil. reflexivity.
  - intros evs last Hevs. unfold Main.session_security_hint, Main.last_event.
    rewrite Hevs, last_snoc.
    destruct (bool_decide (evs ++ [last] = [])) eqn:Hd; [|reflexivity].
    apply bool_decide_eq_true in Hd. destruct evs; discriminate Hd.
Qed.

Lemma hint_from_last_event_witness :
  exists resp app',
    @Main.next_question Demo.externals DemoApp.answer DemoApp.started
    = (Returns resp, app')
    /\ NextQuestionResponse.security_hint resp = None.
Proof.
  assert (Hobj : objects DemoApp.started !! 0%nat = Some DemoApp.first_session)
    by reflexivity.
  assert (Hexc : Spec.remote_raises_Exceptions (self (ENGINE DemoApp.started)))
    by (intros c history prompt e Hc; discriminate Hc).
  destruct (@hint_from_last_event Demo.externals DemoApp.answer
              DemoApp.started 0 DemoApp.first_session eq_refl Hobj eq_refl
              Hexc)
    as (resp & app' & s' & Hrun & _ & _ & _ & Hnone & _).
  exists resp, app'. split; [exact Hrun|]. apply Hnone. reflexivity.
Defined.

(** ** Events and emotion signals *)

(** Posting a security event to a stored session returns [true] and adds
    the event at the end of the session's events, leaving the earlier
    ones, the transcript and the emotion context as they were; from then
    on the hint of the session is the classification of this event. *)
Theorem post_event_appends `{Externals} (ev : SecurityEvent.t)
    (app : App) (l : nat) (s : Session.t) :
  SESSION_STORE app !! SecurityEvent.session_id ev = Some l ->
  objects app !! l = Some s ->
  Session.id s = SecurityEvent.session_id ev ->
  exists app' s',
    Main.post_event ev app = (Returns true, app')
    /\ session_at app' (SecurityEvent.session_id ev) = Some s'
    /\ s' = Session.security_events_append ev s
    /\ Session.security_events s' = Session.security_events s ++ [ev]
    /\ Session.transcript s' = Session.transcript s
    /\ Session.emotion_context s' = Session.emotion_context s
    /\ Main.session_security_hint s'
       = Some (security_hint_from_event (SecurityEvent.event_type ev)
                                        (SecurityEvent.metadata ev))
    /\ sent (ENGINE app') = sent (ENGINE app).
Proof.
  intros Hstore Hobj Hid.
  eexists. exists (Session.security_events_append ev s).
  split; [apply (post_event_run ev app l s Hstore Hobj)|].
  split; [|repeat split].
  - unfold session_at. cbn [SESSION_STORE objects].
    rewrite Hid, lookup_insert_eq, list_lookup_alter_eq, Hobj. reflexivity.
  - unfold Main.session_security_hint, Main.last_event. cbn [Session.security_events_append Session.security_events].
    rewrite last_snoc.
    destruct (bool_decide (Session.security_events s ++ [ev] = [])) eqn:Hd;
      [|reflexivity].
    apply bool_decide_eq_true in Hd.
    destruct (Session.security_events s); discriminate Hd.
Qed.

Lemma post_event_appends_witness :
  exists app',
    Main.post_event DemoApp.tab_switch DemoApp.started = (Returns true, app')
    /\ session_at app' "s-0"
       = Some (Session.security_events_append DemoApp.tab_switch
                                              DemoApp.first_session).
Proof.
  assert (Hobj : objects DemoApp.started !! 0%nat = Some DemoApp.first_session)
    by reflexivity.
  destruct (@post_event_appends Demo.externals DemoApp.tab_switch
              DemoApp.started 0 DemoApp.first_session eq_refl Hobj eq_refl)
    as (app' & s' & Hrun & Hat & -> & _).
  exists app'. split; assumption.
Defined.

(** Posting emotion signals to a stored session returns [true] and
    replaces the session's emotion context by the signals posted, with no
    merge with the earlier context.  The next question then uses these
    signals, unless they are empty: an empty post puts the session back on
    the default context. *)
Theorem post_emotion_replaces (sig : EmotionSignal.t)
    (app : App) (l : nat) (s : Session.t) :
  SESSION_STORE app !! EmotionSignal.session_id sig = Some l ->
  objects app !! l = Some s ->
  Session.id s = EmotionSignal.session_id sig ->
  exists app' s',
    Main.post_emotion sig app = (Returns true, app')
    /\ session_at app' (EmotionSignal.session_id sig) = Some s'
    /\ s' = Session.set_emotion_context (EmotionSignal.signals sig) s
    /\ Session.emotion_context s' = EmotionSignal.signals sig
    /\ (EmotionSignal.signals sig <> ∅ ->
        Main.session_emotion_ctx s' = EmotionSignal.signals sig)
    /\ (EmotionSignal.signals sig = ∅ ->
        Main.session_emotion_ctx s' = Main.default_emotion_ctx)
    /\ sent (ENGINE app') = sent (ENGINE app).
Proof.
  intros Hstore Hobj Hid.
  eexists. exists (Session.set_emotion_context (EmotionSignal.signals sig) s).
  split; [apply (post_emotion_run sig app l s Hstore Hobj)|].
  split; [|repeat split].
  - unfold session_at. cbn [SESSION_STORE objects].
    rewrite Hid, lookup_insert_eq, list_lookup_alter_eq, Hobj. reflexivity.
  - intros Hne. unfold Main.session_emotion_ctx, truthy_dict.
    cbn [Session.set_emotion_context Session.emotion_context].
    rewrite bool_decide_eq_false_2 by exact Hne. reflexivity.
  - intros Hempty. unfold Main.session_emotion_ctx, truthy_dict.
    cbn [Session.set_emotion_context Session.emotion_context].
    rewrite bool_decide_eq_true_2 by exact Hempty. reflexivity.
Qed.

Lemma post_emotion_replaces_witness :
  exists app',
    Main.post_emotion DemoApp.tense_signal DemoApp.started = (Returns true, app')
    /\ session_at app' "s-0"
       = Some (Session.set_emotion_context Demo.tense DemoApp.first_session).
Proof.
  assert (Hobj : objects DemoApp.started !! 0%nat = Some DemoApp.first_session)
    by reflexivity.
  destruct (post_emotion_replaces DemoApp.tense_signal
              DemoApp.started 0 DemoApp.first_session eq_refl Hobj eq_refl)
    as (app' & s' & Hrun & Hat & -> & _).
  exists app'. split; assumption.
Defined.

(** ** Follow-up questions without the remote service *)

Lemma default_emotion_not_nervous :
  Spec.supportive Main.default_emotion_ctx = "".
Proof. reflexivity. Qed.

(** With no client, for a stored session that has no emotion signals and
    an answer that is not empty, the reply asks the deeper-example
    question: the opening for the tone of the session's persona, the
    refocus remark if the session has an event, never the supportive
    remark (the default context rates "nervous" 0.3), and then the
    deeper-example question, whatever the retrieval context. *)
Theorem offline_follow_up `{Externals} (req : NextQuestionRequest.t)
    (app : App) (l : nat) (s : Session.t) :
  SESSION_STORE app !! NextQuestionRequest.session_id req = Some l ->
  objects app !! l = Some s ->
  client (self (ENGINE app)) = None ->
  Session.emotion_context s = ∅ ->
  NextQuestionRequest.candidate_answer req <> "" ->
  exists tone resp,
    Spec.resolve (Session.personality s) !! "tone" = Some tone
    /\ fst (Main.next_question req app) = Returns resp
    /\ NextQuestionResponse.question resp
       = Spec.opening tone (Session.job_title s)
         +:+ Spec.refocus (Main.session_security_hint s)
         +:+ Spec.deeper_example
    /\ NextQuestionResponse.emotion_ctx resp = Main.default_emotion_ctx
    /\ sent (ENGINE (snd (Main.next_question req app))) = sent (ENGINE app).
Proof.
  intros Hstore Hobj Hclient Hemo Hans.
  assert (Hexc : Spec.remote_raises_Exceptions (self (ENGINE app))).
  { intros c history prompt e Hc. rewrite Hclient in Hc. discriminate Hc. }
  destruct (next_question_known req app l s Hstore Hobj Hexc)
    as (q & st2 & _ & _ & Heng & Hrun).
  destruct (resolve_complete (Session.personality s))
    as (tone & difficulty & Ht & Hd).
  assert (Hctx : Main.session_emotion_ctx s = Main.default_emotion_ctx).
  { unfold Main.session_emotion_ctx, truthy_dict. rewrite Hemo. reflexivity. }
  unfold next_question in Heng.
  match type of Heng with
  | _generate_question _ _ _ _ _ _ _ ?st = _ =>
      destruct (generate_question_offline
                  (Session.job_title s) (Session.company s)
                  (Session.personality s) (Session.rag_context s)
                  (Some (NextQuestionRequest.candidate_answer req))
                  (Main.session_emotion_ctx s) (Main.session_security_hint s)
                  st (or_intror Hclient))
        as (Hoff & _)
  end.
  rewrite Hoff, (offline_question_run _ _ _ _ _ _ tone _ Ht) in Heng.
  injection Heng as <- <-.
  exists tone. eexists. split; [exact Ht|]. rewrite Hrun.
  cbn [fst snd NextQuestionResponse.question NextQuestionResponse.emotion_ctx
       ENGINE].
  split; [reflexivity|]. split; [|split; [exact Hctx | reflexivity]].
  unfold Spec.synthesize, Spec.closing_question. rewrite Hctx.
  rewrite default_emotion_not_nervous.
  cbn [Spec.present]. apply String.eqb_neq in Hans. rewrite Hans. reflexivity.
Qed.

Lemma offline_follow_up_witness :
  exists resp,
    fst (@Main.next_question Demo.externals DemoApp.answer DemoApp.started)
    = Returns resp
    /\ NextQuestionResponse.question resp
       = "As a direct interviewer for a Backend Engineer, Can you dive deeper into your last answer and describe a concrete example with outcomes?".
Proof.
  assert (Hobj : objects DemoApp.started !! 0%nat = Some DemoApp.first_session)
    by reflexivity.
  destruct (@offline_follow_up Demo.externals DemoApp.answer
              DemoApp.started 0 DemoApp.first_session eq_refl Hobj eq_refl
              eq_refl)
    as (tone & resp & Ht & Hrun & Hq & _).
  - discriminate.
  - exists resp. split; [exact Hrun|]. rewrite Hq.
    vm_compute in Ht. injection Ht as <-. reflexivity.
Defined.

(** ** The score route *)

(** For a stored session the score route hands the session's transcript,
    job title and company to the engine and changes no session, no entry
    of the store, no draw and no attribute of the engine, whether it
    returns or raises.  When the remote call and the decoder raise only
    what derives from [Exception], the engine returns scores, the route
    logs the completion, and what it returns or raises is what the
    validation of the response makes of the engine's scores. *)
Theorem score_route_reads_only `{Externals} `{Services} (req : ScoreRequest.t)
    (app : App) (l : nat) (s : Session.t) :
  SESSION_STORE app !! ScoreRequest.session_id req = Some l ->
  objects app !! l = Some s ->
  objects (snd (Main.score req app)) = objects app
  /\ SESSION_STORE (snd (Main.score req app)) = SESSION_STORE app
  /\ ticks (snd (Main.score req app)) = ticks app
  /\ self (ENGINE (snd (Main.score req app))) = self (ENGINE app)
  /\ (Spec.remote_raises_Exceptions (self (ENGINE app)) ->
      Spec.json_raises_Exceptions ->
      exists v st',
        InterviewEngine.score (Session.transcript s) (Session.job_title s)
                              (Session.company s) (ENGINE app) = (Returns v, st')
        /\ fst (Main.score req app)
           = match validate_scores v with
             | Returns v' => Returns {| ScoreResponse.session_id := Session.id s;
                                        ScoreResponse.scores := v' |}
             | Raises e => Raises e
             end
        /\ log (ENGINE (snd (Main.score req app)))
           = log st' ++ [(INFO, "Session " +:+ Session.id s
                                +:+ ": scoring complete")]).
Proof.
  intros Hstore Hobj.
  pose proof (score_keeps_self (Session.transcript s) (Session.job_title s)
                (Session.company s) (ENGINE app)) as Hself.
  destruct (InterviewEngine.score (Session.transcript s) (Session.job_title s)
              (Session.company s) (ENGINE app)) as [[v|e] st'] eqn:Heng;
    cbn [snd] in Hself.
  - rewrite (score_route_run req app l s v st' Hstore Hobj Heng).
    cbn [fst snd objects SESSION_STORE ticks ENGINE].
    repeat split; [exact Hself|].
    intros _ _. exists v, st'. repeat split.
  - rewrite (score_route_run_raises req app l s e st' Hstore Hobj Heng).
    cbn [fst snd objects SESSION_STORE ticks ENGINE].
    repeat split; [exact Hself|].
    intros Hexc Hjson.
    destruct (score_total (Session.transcript s) (Session.job_title s)
                (Session.company s) (ENGINE app) Hexc Hjson)
      as (v & st0 & Hrun & _).
    rewrite Heng in Hrun. discriminate Hrun.
Qed.

Lemma score_route_reads_only_witness :
  fst (@Main.score Demo.externals DemoApp.services
         {| ScoreRequest.session_id := "s-0" |} DemoApp.started)
  = Returns {| ScoreResponse.session_id := "s-0";
               ScoreResponse.scores := baseline |}.
Proof.
  assert (Hobj : objects DemoApp.started !! 0%nat = Some DemoApp.first_session)
    by reflexivity.
  assert (Hexc : Spec.remote_raises_Exceptions (self (ENGINE DemoApp.started)))
    by (intros c history prompt e Hc; discriminate Hc).
  assert (Hjson : @Spec.json_raises_Exceptions Demo.externals).
  { intros raw e Hr. cbn in Hr.
    destruct (String.eqb raw Demo.scored); [discriminate Hr|].
    injection Hr as <-. reflexivity. }
  destruct (@score_route_reads_only Demo.externals DemoApp.services
              {| ScoreRequest.session_id := "s-0" |} DemoApp.started 0
              DemoApp.first_session eq_refl Hobj)
    as (_ & _ & _ & _ & Hreturns).
  destruct (Hreturns Hexc Hjson) as (v & st' & Hrun & Hfst & _).
  rewrite Hfst. vm_compute in Hrun. injection Hrun as <- _. reflexivity.
Defined.

(** ** Invariants of the process *)

Lemma known_session (app : App) (sid : string) (l : nat) :
  store_consistent app ->
  SESSION_STORE app !! sid = Some l ->
  exists s, objects app !! l = Some s /\ Session.id s = sid
            /\ session_at app sid = Some s.
Proof.
  intros Hcons Hstore. destruct (Hcons sid l Hstore) as (s & Hobj & Hid).
  exists s. repeat split; try assumption.
  unfold session_at. rewrite Hstore. exact Hobj.
Qed.

(** The route of the next question changes the session of the request and
    no other, by the candidate's entry alone when the engine raises and
    by the two entries when it returns. *)
Lemma next_question_sessions `{Externals} (req : NextQuestionRequest.t)
    (app : App) :
  store_consistent app ->
  store_consistent (snd (Main.next_question req app))
  /\ (snd (Main.next_question req app) = app
      \/ one_changed app (snd (Main.next_question req app))
           (NextQuestionRequest.session_id req)
           (Session.transcript_append
              [("role", "candidate");
               ("text", NextQuestionRequest.candidate_answer req)])
      \/ exists q,
           one_changed app (snd (Main.next_question req app))
             (NextQuestionRequest.session_id req)
             (Session.transcript_append [("role", "interviewer"); ("text", q)]
              ∘ Session.transcript_append
                  [("role", "candidate");
                   ("text", NextQuestionRequest.candidate_answer req)])).
Proof.
  intros Hcons.
  destruct (SESSION_STORE app !! NextQuestionRequest.session_id req)
    as [l|] eqn:Hstore.
  - destruct (known_session app _ l Hcons Hstore) as (s & Hobj & Hid & Hat).
    destruct (InterviewEngine.next_question
                (Session.job_title s) (Session.company s) (Session.personality s)
                (Session.rag_context s) (NextQuestionRequest.candidate_answer req)
                (Main.session_emotion_ctx s) (Main.session_security_hint s)
                (record_log INFO ("Session " +:+ Session.id s
                                  +:+ ": candidate answered -> "
                                  +:+ NextQuestionRequest.candidate_answer req)
                            (ENGINE app))) as [[q|e] st2] eqn:Heng.
    + rewrite (next_question_run req app l s q st2 Hstore Hobj Heng).
      cbn [snd].
      edestruct (session_at_altered app) as [Hc Hk];
        [exact Hcons | exact Hstore | exact Hobj | | ].
      2: { split; [exact Hc|]. right. right. exists q, s.
           split; [exact Hat | exact Hk]. }
      intros x. reflexivity.
    + rewrite (next_question_run_raises req app l s e st2 Hstore Hobj Heng).
      cbn [snd].
      edestruct (session_at_altered_in_place app) as [Hc Hk];
        [exact Hcons | exact Hstore | exact Hobj | | ].
      2: { split; [exact Hc|]. right. left. exists s.
           split; [exact Hat | exact Hk]. }
      intros x. reflexivity.
  - unfold Main.next_question.
    rewrite (route_bind_raises _ _ _ _ _ (get_missing _ app Hstore)).
    cbn [snd]. split; [exact Hcons | left; reflexivity].
Qed.

Lemma post_event_sessions (ev : SecurityEvent.t) (app : App) :
  store_consistent app ->
  store_consistent (snd (Main.post_event ev app))
  /\ (snd (Main.post_event ev app) = app
      \/ one_changed app (snd (Main.post_event ev app))
           (SecurityEvent.session_id ev) (Session.security_events_append ev)).
Proof.
  intros Hcons.
  destruct (SESSION_STORE app !! SecurityEvent.session_id ev)
    as [l|] eqn:Hstore.
  - destruct (known_session app _ l Hcons Hstore) as (s & Hobj & Hid & Hat).
    rewrite (post_event_run ev app l s Hstore Hobj). cbn [snd].
    edestruct (session_at_altered app) as [Hc Hk];
      [exact Hcons | exact Hstore | exact Hobj | | ].
    2: { split; [exact Hc|]. right. exists s. split; [exact Hat | exact Hk]. }
    intros x. reflexivity.
  - unfold Main.post_event.
    rewrite (route_bind_raises _ _ _ _ _ (get_missing _ app Hstore)).
    cbn [snd]. split; [exact Hcons | left; reflexivity].
Qed.

Lemma post_emotion_sessions (sig : EmotionSignal.t) (app : App) :
  store_consistent app ->
  store_consistent (snd (Main.post_emotion sig app))
  /\ (snd (Main.post_emotion sig app) = app
      \/ one_changed app (snd (Main.post_emotion sig app))
           (EmotionSignal.session_id sig)
           (Session.set_emotion_context (EmotionSignal.signals sig))).
Proof.
  intros Hcons.
  destruct (SESSION_STORE app !! EmotionSignal.session_id sig)
    as [l|] eqn:Hstore.
  - destruct (known_session app _ l Hcons Hstore) as (s & Hobj & Hid & Hat).
    rewrite (post_emotion_run sig app l s Hstore Hobj). cbn [snd].
    edestruct (session_at_altered app) as [Hc Hk];
      [exact Hcons | exact Hstore | exact Hobj | | ].
    2: { split; [exact Hc|]. right. exists s. split; [exact Hat | exact Hk]. }
    intros x. reflexivity.
  - unfold Main.post_emotion.
    rewrite (route_bind_raises _ _ _ _ _ (get_missing _ app Hstore)).
    cbn [snd]. split; [exact Hcons | left; reflexivity].
Qed.

Lemma score_sessions `{Externals} `{Services} (req : ScoreRequest.t) (app : App) :
  store_consistent app ->
  store_consistent (snd (Main.score req app))
  /\ forall k, session_at (snd (Main.score req app)) k = session_at app k.
Proof.
  intros Hcons.
  destruct (SESSION_STORE app !! ScoreRequest.session_id req)
    as [l|] eqn:Hstore.
  - destruct (known_session app _ l Hcons Hstore) as (s & Hobj & Hid & Hat).
    destruct (InterviewEngine.score (Session.transcript s) (Session.job_title s)
                (Session.company s) (ENGINE app)) as [[v|e] st'] eqn:Heng.
    + rewrite (score_route_run req app l s v st' Hstore Hobj Heng). cbn [snd].
      split; [exact Hcons | reflexivity].
    + rewrite (score_route_run_raises req app l s e st' Hstore Hobj Heng).
      cbn [snd]. split; [exact Hcons | reflexivity].
  - unfold Main.score.
    rewrite (route_bind_raises _ _ _ _ _ (get_missing _ app Hstore)).
    cbn [snd]. split; [exact Hcons | reflexivity].
Qed.

(** [start_interview] leaves every session as it was but the one under
    the id it draws; it stores none when the retrieval raises. *)
Lemma start_interview_sessions `{Externals} `{Services}
    (req : StartInterviewRequest.t) (app : App) :
  store_consistent app ->
  store_consistent (snd (Main.start_interview req app))
  /\ ((forall k, session_at (snd (Main.start_interview req app)) k
                 = session_at app k)
      \/ exists s1,
           Session.id s1 = uuid4 (ticks app)
           /\ forall k, session_at (snd (Main.start_interview req app)) k
                        = if decide (k = uuid4 (ticks app)) then Some s1
                          else session_at app k).
Proof.
  intros Hcons.
  destruct (Main.rag_context_of req) as [rag_ctx|e] eqn:Hrag.
  2: { rewrite (start_interview_no_context req app e Hrag). cbn [snd].
       split; [exact Hcons | left; reflexivity]. }
  destruct (InterviewEngine.first_question
              (StartInterviewRequest.job_title req)
              (StartInterviewRequest.company req)
              (StartInterviewRequest.personality req) rag_ctx
              (record_log INFO ("Starting interview for candidate="
                                +:+ StartInterviewRequest.candidate_id req
                                +:+ ", job_title="
                                +:+ StartInterviewRequest.job_title req)
                          (ENGINE app))) as [[q|e] st2] eqn:Heng.
  - rewrite (start_interview_run req app rag_ctx q st2 Hrag Heng). cbn [snd].
    destruct (session_at_fresh app
                (record_log INFO ("Session " +:+ uuid4 (ticks app)
                                  +:+ " started with first question") st2)
                (Session.transcript_append
                   [("role", "interviewer"); ("text", q)]
                   (created req app rag_ctx))
                (S (S (ticks app))) Hcons) as [Hc Hk].
    split; [exact Hc|]. right. eexists. split; [|exact Hk]. reflexivity.
  - rewrite (start_interview_run_raises req app rag_ctx e st2 Hrag Heng).
    cbn [snd].
    destruct (session_at_fresh app st2 (created req app rag_ctx)
                (S (S (ticks app))) Hcons) as [Hc Hk].
    split; [exact Hc|]. right. eexists. split; [|exact Hk]. reflexivity.
Qed.

Lemma started_consistent : store_consistent DemoApp.started.
Proof.
  apply (@start_interview_sessions Demo.externals DemoApp.services
           DemoApp.start DemoApp.fresh (store_consistent_empty _)).
Qed.

(** Every route keeps the store consistent: whatever the request and
    whether the route returns or raises, each id of the store still leads
    to an object, and that object carries the id.  A fresh process starts
    consistent. *)
Theorem store_stays_consistent `{Externals} `{Services} (app : App) :
  store_consistent app ->
  (forall req, store_consistent (snd (Main.start_interview req app)))
  /\ (forall req, store_consistent (snd (Main.next_question req app)))
  /\ (forall ev, store_consistent (snd (Main.post_event ev app)))
  /\ (forall sig, store_consistent (snd (Main.post_emotion sig app)))
  /\ (forall req, store_consistent (snd (Main.score req app)))
  /\ (forall st, store_consistent (empty_app st)).
Proof.
  intros Hcons. repeat split.
  - intros req. apply (start_interview_sessions req app Hcons).
  - intros req. apply (next_question_sessions req app Hcons).
  - intros ev. apply (post_event_sessions ev app Hcons).
  - intros sig. apply (post_emotion_sessions sig app Hcons).
  - intros req. apply (score_sessions req app Hcons).
  - apply store_consistent_empty.
Qed.

Lemma store_stays_consistent_witness :
  store_consistent
    (snd (@Main.start_interview Demo.externals DemoApp.services DemoApp.start
            DemoApp.fresh)).
Proof.
  apply (@store_stays_consistent Demo.externals DemoApp.services DemoApp.fresh
           (store_consistent_empty _)).
Defined.

(** A route touches the session it is called for and no other: after the
    route of the next question, of an event or of emotion signals, every
    session stored under another id is as before; after the score route
    every session is as before; after the start of an interview every
    session but the one under the new id is as before. *)
Theorem routes_touch_one_session `{Externals} `{Services} (app : App)
    (k : string) :
  store_consistent app ->
  (forall req, NextQuestionRequest.session_id req <> k ->
     session_at (snd (Main.next_question req app)) k = session_at app k)
  /\ (forall ev, SecurityEvent.session_id ev <> k ->
        session_at (snd (Main.post_event ev app)) k = session_at app k)
  /\ (forall sig, EmotionSignal.session_id sig <> k ->
        session_at (snd (Main.post_emotion sig app)) k = session_at app k)
  /\ (forall req, session_at (snd (Main.score req app)) k = session_at app k)
  /\ (forall req, uuid4 (ticks app) <> k ->
        session_at (snd (Main.start_interview req app)) k = session_at app k).
Proof.
  intros Hcons. repeat split.
  - intros req Hne.
    destruct (next_question_sessions req app Hcons)
      as [_ [-> | [(s & _ & Hk) | (q & s & _ & Hk)]]]; [reflexivity| |];
      rewrite Hk; destruct (decide _); congruence.
  - intros ev Hne.
    destruct (post_event_sessions ev app Hcons) as [_ [-> | (s & _ & Hk)]];
      [reflexivity|].
    rewrite Hk. destruct (decide _); congruence.
  - intros sig Hne.
    destruct (post_emotion_sessions sig app Hcons) as [_ [-> | (s & _ & Hk)]];
      [reflexivity|].
    rewrite Hk. destruct (decide _); congruence.
  - intros req. apply (score_sessions req app Hcons).
  - intros req Hne.
    destruct (start_interview_sessions req app Hcons)
      as [_ [Hk | (s1 & _ & Hk)]]; [apply Hk|].
    rewrite Hk. destruct (decide _); congruence.
Qed.

Lemma routes_touch_one_session_witness :
  session_at (snd (Main.post_event DemoApp.tab_switch DemoApp.started)) "s-n"
  = session_at DemoApp.started "s-n".
Proof.
  apply (@routes_touch_one_session Demo.externals DemoApp.services
           DemoApp.started "s-n").
  - apply started_consistent.
  - discriminate.
Defined.

Lemma alternates_answered (t : list (list (string * string))) (a q : string)
    (b : bool) :
  alternates b t = true ->
  alternates b (t ++ [ [("role", "candidate"); ("text", a)];
                       [("role", "interviewer"); ("text", q)] ]) = true.
Proof.
  revert b. induction t as [|entry t IH]; intros b.
  - destruct b; [discriminate|]. intros _. reflexivity.
  - rewrite <- app_comm_cons. cbn [alternates].
    destruct entry as [|[k1 r] [|[k2 x] [|]]]; try discriminate.
    intros Halt. apply andb_prop in Halt as [Hhead Htail].
    rewrite Hhead. apply IH. exact Htail.
Qed.

(** A route that returns keeps the transcripts in shape: if each stored
    transcript alternates between the interviewer and the candidate,
    beginning and ending with an entry of the interviewer, then so does
    each stored transcript after a start of an interview or a next
    question that returned.  The routes of events, of emotion signals and
    of scores change no transcript, whether they return or raise, and a
    fresh process has no transcript. *)
Theorem transcripts_stay_alternating `{Externals} `{Services} (app : App) :
  store_consistent app ->
  transcripts_alternate app ->
  (forall req resp app',
     Main.start_interview req app = (Returns resp, app') ->
     transcripts_alternate app')
  /\ (forall req resp app',
        Main.next_question req app = (Returns resp, app') ->
        transcripts_alternate app')
  /\ (forall ev, transcripts_alternate (snd (Main.post_event ev app)))
  /\ (forall sig, transcripts_alternate (snd (Main.post_emotion sig app)))
  /\ (forall req, transcripts_alternate (snd (Main.score req app)))
  /\ (forall st, transcripts_alternate (empty_app st)).
Proof.
  intros Hcons Halt. repeat split.
  - intros req resp app' Hrun k s' Hat.
    destruct (start_interview_returned req app resp app' Hrun)
      as (rag_ctx & q & st2 & _ & _ & _ & _ & ->).
    destruct (session_at_fresh app
                (record_log INFO ("Session " +:+ uuid4 (ticks app)
                                  +:+ " started with first question") st2)
                (Session.transcript_append
                   [("role", "interviewer"); ("text", q)]
                   (created req app rag_ctx))
                (S (S (ticks app))) Hcons) as [_ Hk].
    cbn [Session.id Session.transcript_append created] in Hk.
    rewrite Hk in Hat. destruct (decide _).
    + injection Hat as <-. reflexivity.
    + apply (Halt k). exact Hat.
  - intros req resp app' Hrun k s' Hat.
    destruct (SESSION_STORE app !! NextQuestionRequest.session_id req)
      as [l|] eqn:Hstore.
    2: { unfold Main.next_question in Hrun.
         rewrite (route_bind_raises _ _ _ _ _ (get_missing _ app Hstore)) in Hrun.
         discriminate Hrun. }
    destruct (known_session app _ l Hcons Hstore) as (s & Hobj & Hid & Hs).
    destruct (next_question_returned req app l s resp app' Hstore Hobj Hrun)
      as (q & st2 & _ & _ & _ & ->).
    edestruct (session_at_altered app) as [_ Hk];
      [exact Hcons | exact Hstore | exact Hobj | | ].
    2: { rewrite Hk in Hat. destruct (decide _).
         - injection Hat as <-. cbn. rewrite <- app_assoc.
           apply alternates_answered. apply (Halt _ _ Hs).
         - apply (Halt k). exact Hat. }
    intros x. reflexivity.
  - intros ev k s' Hat.
    destruct (post_event_sessions ev app Hcons) as [_ [Hsame | (s & Hs & Hk)]].
    + rewrite Hsame in Hat. apply (Halt k). exact Hat.
    + rewrite Hk in Hat. destruct (decide _).
      * injection Hat as <-. apply (Halt _ _ Hs).
      * apply (Halt k). exact Hat.
  - intros sig k s' Hat.
    destruct (post_emotion_sessions sig app Hcons)
      as [_ [Hsame | (s & Hs & Hk)]].
    + rewrite Hsame in Hat. apply (Halt k). exact Hat.
    + rewrite Hk in Hat. destruct (decide _).
      * injection Hat as <-. apply (Halt _ _ Hs).
      * apply (Halt k). exact Hat.
  - intros req k s' Hat.
    destruct (score_sessions req app Hcons) as [_ Hk].
    rewrite Hk in Hat. apply (Halt k). exact Hat.
  - intros st k s' Hat. unfold session_at in Hat. cbn in Hat.
    rewrite lookup_empty in Hat. discriminate Hat.
Qed.

Lemma transcripts_stay_alternating_witness :
  transcripts_alternate DemoApp.started.
Proof.
  assert (Hempty : transcripts_alternate DemoApp.fresh)
    by (intros k s' Hat; discriminate Hat).
  assert (Hrun : @Main.start_interview Demo.externals DemoApp.services
                   DemoApp.start DemoApp.fresh
                 = (Returns
                      {| StartInterviewResponse.session_id := "s-0";
                         StartInterviewResponse.first_question :=
                           "As a direct interviewer for a Backend Engineer, What experience do you have that directly matches this role? Refer to relevant projects.";
                         StartInterviewResponse.mode := "offline" |},
                    DemoApp.started))
    by (vm_compute; reflexivity).
  destruct (@transcripts_stay_alternating Demo.externals DemoApp.services
              DemoApp.fresh (store_consistent_empty _) Hempty)
    as (Hstart & _).
  exact (Hstart _ _ _ Hrun).
Defined.
